(** * CO2 ventilation monitor: the computational core of [CO2Monitor.jsx]

    A shallow embedding of the functions of
    [co2-app/src/CO2Monitor.jsx] (elapsed-time normalisation in
    [addDataPoint], [buildProjectionSegment], [removeLastPoint],
    [clearData], [getCO2Status] and the [timeToIdeal] block of the
    component body) together with the properties the specification
    states about them.

    JavaScript numbers are modelled by [number]: a finite rational, one
    of the two infinities, or NaN.  The results of [+], [-], [*] and [/]
    are rounded as IEEE 754 binary64 rounds them: to 53 significant
    bits, to the nearest value, a tie going to the even significand
    ([round64]; it is compared with the Standard Library's
    specification of IEEE 754 arithmetic in [round64_is_binary64]).
    The exponent range is not bounded: there is no overflow to an
    infinity and no gradual underflow, which are out of reach of the
    quantities the component computes (magnitudes between 2^-1022 and
    2^1024 are rounded exactly as in binary64).  The two zeros are
    identified: every zero the program divides by is a difference
    [x - x], which is [+0].  An integer read from a string is kept as it
    is, whatever its size; JavaScript would round one of more than 53
    bits. *)

From Stdlib Require Import ZArith QArith Qround Qreduction Qpower Qabs Lqa.
From Stdlib Require Import List String Ascii Bool Lia.
From Stdlib Require Import DecimalString Sorted Permutation.
From Stdlib Require Floats.SpecFloat.
Import ListNotations.

(** ** JavaScript numbers *)

Module JS.

Inductive number : Type :=
| Fin (q : Q)
| PosInf
| NegInf
| NaN.

Definition ofZ (z : Z) : number := Fin (inject_Z z).

Definition Qltb (x y : Q) : bool :=
  match (x ?= y)%Q with Lt => true | _ => false end.

Definition Qleb (x y : Q) : bool :=
  match (x ?= y)%Q with Gt => false | _ => true end.

Definition Qeqb (x y : Q) : bool :=
  match (x ?= y)%Q with Eq => true | _ => false end.

(** *** Rounding to binary64 *)

(** The integer nearest to [x], a tie going to the even one. *)
Definition nearest_even (x : Q) : Z :=
  let f := Qfloor x in
  match (x - inject_Z f ?= 1 # 2)%Q with
  | Lt => f
  | Gt => (f + 1)%Z
  | Eq => if Z.even f then f else (f + 1)%Z
  end.

(** The exponent of the leading bit of a positive rational [x]: the [e]
    with [2 ^ e <= x < 2 ^ (e + 1)]. *)
Definition binade (x : Q) : Z :=
  let e := (Z.log2 (Qnum x) - Z.log2 (Z.pos (Qden x)))%Z in
  if Qle_bool (2 ^ e) x then e else (e - 1)%Z.

(** A positive rational rounded to a significand of 53 bits. *)
Definition round_pos (x : Q) : Q :=
  let e := (binade x - 52)%Z in
  (inject_Z (nearest_even (x / 2 ^ e)) * 2 ^ e)%Q.

(** The binary64 value nearest to [x]. *)
Definition round64 (x : Q) : Q :=
  let x := Qred x in
  match Qnum x with
  | Z0 => 0%Q
  | Zpos _ => Qred (round_pos x)
  | Zneg _ => Qred (- round_pos (- x))
  end.

(** [a + b] *)
Definition add (a b : number) : number :=
  match a, b with
  | NaN, _ | _, NaN => NaN
  | Fin x, Fin y => Fin (round64 (x + y))
  | PosInf, NegInf | NegInf, PosInf => NaN
  | PosInf, _ | _, PosInf => PosInf
  | NegInf, _ | _, NegInf => NegInf
  end.

(** [-a] *)
Definition neg (a : number) : number :=
  match a with
  | Fin x => Fin (Qred (- x))
  | PosInf => NegInf
  | NegInf => PosInf
  | NaN => NaN
  end.

(** [a - b] *)
Definition sub (a b : number) : number :=
  match a, b with
  | NaN, _ | _, NaN => NaN
  | Fin x, Fin y => Fin (round64 (x - y))
  | PosInf, PosInf | NegInf, NegInf => NaN
  | PosInf, _ | _, NegInf => PosInf
  | NegInf, _ | _, PosInf => NegInf
  end.

Definition signed_inf (positive : bool) : number :=
  if positive then PosInf else NegInf.

(** [a * b] *)
Definition mul (a b : number) : number :=
  match a, b with
  | NaN, _ | _, NaN => NaN
  | Fin x, Fin y => Fin (round64 (x * y))
  | Fin x, PosInf | PosInf, Fin x =>
      if Qeqb x 0 then NaN else signed_inf (Qltb 0 x)
  | Fin x, NegInf | NegInf, Fin x =>
      if Qeqb x 0 then NaN else signed_inf (Qltb x 0)
  | PosInf, PosInf | NegInf, NegInf => PosInf
  | PosInf, NegInf | NegInf, PosInf => NegInf
  end.

(** [a / b]; a finite non-zero value over zero is an infinity of the
    sign of the numerator, and [0 / 0] is NaN. *)
Definition div (a b : number) : number :=
  match a, b with
  | NaN, _ | _, NaN => NaN
  | Fin x, Fin y =>
      if Qeqb y 0
      then (if Qeqb x 0 then NaN else signed_inf (Qltb 0 x))
      else Fin (round64 (x / y))
  | Fin _, PosInf | Fin _, NegInf => Fin 0
  | PosInf, Fin y => signed_inf (Qleb 0 y)
  | NegInf, Fin y => signed_inf (Qltb y 0)
  | _, _ => NaN
  end.

(** Relational operators: every comparison with NaN is [false]. *)
Definition lt (a b : number) : bool :=
  match a, b with
  | NaN, _ | _, NaN => false
  | Fin x, Fin y => Qltb x y
  | _, NegInf => false
  | NegInf, _ => true
  | PosInf, _ => false
  | _, PosInf => true
  end.

Definition le (a b : number) : bool :=
  match a, b with
  | NaN, _ | _, NaN => false
  | Fin x, Fin y => Qleb x y
  | NegInf, _ => true
  | _, PosInf => true
  | _, NegInf => false
  | PosInf, _ => false
  end.

Definition gt (a b : number) : bool := lt b a.
Definition ge (a b : number) : bool := le b a.

(** [a === b] on numbers. *)
Definition strict_eq (a b : number) : bool :=
  match a, b with
  | Fin x, Fin y => Qeqb x y
  | PosInf, PosInf | NegInf, NegInf => true
  | _, _ => false
  end.

(** [Math.round]: the nearest integer, a tie going towards [+Infinity]. *)
Definition Math_round (a : number) : number :=
  match a with
  | Fin x => ofZ (Qfloor (x + (1 # 2)))
  | _ => a
  end.

End JS.

Import JS.

Local Open Scope string_scope.
Local Open Scope list_scope.
Local Open Scope Z_scope.

Declare Scope js_scope.
Delimit Scope js_scope with js.
Bind Scope js_scope with number.
Notation "a + b" := (add a b) : js_scope.
Notation "a - b" := (sub a b) : js_scope.
Notation "a * b" := (mul a b) : js_scope.
Notation "a / b" := (div a b) : js_scope.
Notation "- a" := (neg a) : js_scope.
Notation "a <? b" := (lt a b) : js_scope.
Notation "a <=? b" := (le a b) : js_scope.
Notation "a >? b" := (gt a b) : js_scope.
Notation "a >=? b" := (ge a b) : js_scope.
Notation "a === b" := (strict_eq a b) (at level 70, no associativity) : js_scope.

Coercion ofZ : Z >-> number.

(** ** Data model *)

Inductive PointType : Type := measured | projected.

(** A point object [{time, minutes, co2, type}].  A measured point
    carries its wall-clock string ([T := string]); a projected point has
    no [time] property ([T := unit], the value [undefined]). *)
Record Point (T : Type) : Type := mkPoint {
  time : T;
  minutes : number;
  co2 : number;
  type : PointType
}.

Arguments mkPoint {T} _ _ _ _.
Arguments time {T} _.
Arguments minutes {T} _.
Arguments co2 {T} _.
Arguments type {T} _.

Definition MeasuredPoint : Type := Point string.
Definition ProjectedPoint : Type := Point unit.
Definition undefined : unit := tt.

(** [arr.slice(-n)]: the last [n] elements (all of them when fewer). *)
Definition slice_last {A : Type} (n : nat) (arr : list A) : list A :=
  skipn (List.length arr - n) arr.

(** [arr.slice(0, -1)]: everything but the last element. *)
Definition slice_init {A : Type} (arr : list A) : list A :=
  firstn (List.length arr - 1) arr.

(** ** [buildProjectionSegment] *)

Definition buildProjectionSegment (measuredData : list MeasuredPoint)
  : list ProjectedPoint :=
  if (List.length measuredData <? 2)%nat then [] else
  match slice_last 2 measuredData with
  | prevPoint :: currentPoint :: _ =>
      let timeDiff := (minutes currentPoint - minutes prevPoint)%js in
      if (timeDiff === 0%Z)%js then [] else
      let co2Diff := (co2 currentPoint - co2 prevPoint)%js in
      let rate := (co2Diff / timeDiff)%js in
      if (rate >=? 0%Z)%js then [] else
      let currentCO2 := co2 currentPoint in
      let minutesToIdeal := Math_round ((550%Z - currentCO2) / rate)%js in
      if (minutesToIdeal <=? 0%Z)%js then [] else
      let endMinute := (minutes currentPoint + minutesToIdeal)%js in
      [ {| time := undefined; minutes := minutes currentPoint;
           co2 := currentCO2; type := projected |};
        {| time := undefined; minutes := endMinute;
           co2 := 550%Z; type := projected |} ]
  | _ => []
  end.

(** ** [getCO2Status] *)

Record Status : Type := mkStatus {
  text : string;
  color : string;
  bg : string
}.

Definition getCO2Status (c : number) : Status :=
  if (c <=? 550%Z)%js then
    {| text := "Ideal"; color := "text-green-400"; bg := "bg-green-900/50" |}
  else if (c <=? 800%Z)%js then
    {| text := "Good"; color := "text-blue-400"; bg := "bg-blue-900/50" |}
  else if (c <=? 1000%Z)%js then
    {| text := "Concerning"; color := "text-yellow-400"; bg := "bg-yellow-900/50" |}
  else
    {| text := "Poor"; color := "text-red-400"; bg := "bg-red-900/50" |}.

(** ** The derived values of the component body *)

Definition latestMeasured (measuredPoints : list MeasuredPoint)
  : option MeasuredPoint :=
  if (0 <? List.length measuredPoints)%nat
  then nth_error measuredPoints (List.length measuredPoints - 1)
  else None.

Definition status (measuredPoints : list MeasuredPoint) : option Status :=
  match latestMeasured measuredPoints with
  | Some p => Some (getCO2Status (co2 p))
  | None => None
  end.

(** The pair [(timeToIdeal, currentRate)]; [None] is [null].  With no
    measurement [latestMeasured] is [null] and the [&&] of the guard
    stops at its first operand. *)
Definition timeToIdeal_currentRate (measuredPoints : list MeasuredPoint)
  : option number * option number :=
  match latestMeasured measuredPoints with
  | Some latest =>
      if (2 <=? List.length measuredPoints)%nat && (co2 latest >? 550%Z)%js then
        match nth_error measuredPoints (List.length measuredPoints - 2) with
        | Some secondLast =>
            let slope :=
              ((co2 latest - co2 secondLast)
               / (minutes latest - minutes secondLast))%js in
            if (slope <? 0%Z)%js
            then (Some (Math_round ((550%Z - co2 latest) / slope)%js),
                  Some (- slope * 60%Z)%js)
            else (None, None)
        | None => (None, None)
        end
      else (None, None)
  | None => (None, None)
  end.

Definition timeToIdeal (measuredPoints : list MeasuredPoint) : option number :=
  fst (timeToIdeal_currentRate measuredPoints).

Definition currentRate (measuredPoints : list MeasuredPoint) : option number :=
  snd (timeToIdeal_currentRate measuredPoints).

(** ** Strings: the time pattern, [split], [Number] and [parseInt]

    A string is a sequence of code units below 256. *)

Definition code (c : ascii) : Z := Z.of_N (N_of_ascii c).

(** The fragment of regular expressions the program uses. *)
Inductive regex : Type :=
| Chr (c : ascii)
| Cls (lo hi : ascii)
| Seq (r1 r2 : regex)
| Alt (r1 r2 : regex)
| Opt (r : regex).

Definition in_range (lo hi c : ascii) : bool :=
  (code lo <=? code c)%Z && (code c <=? code hi)%Z.

(** Backtracking matcher with a continuation for the rest of the input:
    alternatives are tried left to right and [r?] is greedy. *)
Fixpoint rmatch (r : regex) (s : string) (k : string -> bool) : bool :=
  match r with
  | Chr c =>
      match s with
      | String a s' => if Ascii.eqb a c then k s' else false
      | EmptyString => false
      end
  | Cls lo hi =>
      match s with
      | String a s' => if in_range lo hi a then k s' else false
      | EmptyString => false
      end
  | Seq r1 r2 => rmatch r1 s (fun s' => rmatch r2 s' k)
  | Alt r1 r2 => rmatch r1 s k || rmatch r2 s k
  | Opt r1 => rmatch r1 s k || k s
  end.

(** [/^r$/.test(s)] without flags: the whole of [s] must match. *)
Definition test (r : regex) (s : string) : bool :=
  rmatch r s (fun rest => match rest with EmptyString => true | _ => false end).

(** [/^([01]?[0-9]|2[0-3]):([0-5][0-9])$/] *)
Definition timePattern : regex :=
  Seq (Alt (Seq (Opt (Cls "0" "1")) (Cls "0" "9"))
           (Seq (Chr "2") (Cls "0" "3")))
      (Seq (Chr ":")
           (Seq (Cls "0" "5") (Cls "0" "9"))).

(** [s.split(sep)] for a one-character separator. *)
Fixpoint split (sep : ascii) (s : string) : list string :=
  match s with
  | EmptyString => [EmptyString]
  | String a s' =>
      if Ascii.eqb a sep then EmptyString :: split sep s'
      else match split sep s' with
           | piece :: pieces => String a piece :: pieces
           | [] => [String a EmptyString]
           end
  end.

Definition is_digit (c : ascii) : bool := in_range "0" "9" c.

Fixpoint decimal_value (acc : Z) (s : string) : option Z :=
  match s with
  | EmptyString => Some acc
  | String c s' =>
      if is_digit c then decimal_value (10 * acc + (code c - 48)) s'
      else None
  end.

(** [Number(s)] on the strings the program converts: a (possibly empty)
    run of decimal digits gives its value, the empty string being 0.
    Signs, fractions, exponents, radix prefixes and surrounding white
    space are outside this fragment and give NaN here; the program only
    converts the two halves of a string accepted by [timePattern], which
    are runs of one or two digits ([TimeShape_totalMinutes] below). *)
Definition Number (s : string) : number :=
  match decimal_value 0 s with
  | Some z => ofZ z
  | None => NaN
  end.

(** White space that [parseInt] skips. *)
Definition is_white_space (c : ascii) : bool :=
  let n := code c in
  ((9 <=? n)%Z && (n <=? 13)%Z) || (n =? 32)%Z || (n =? 160)%Z.

Fixpoint trim_start (s : string) : string :=
  match s with
  | String c s' => if is_white_space c then trim_start s' else s
  | EmptyString => EmptyString
  end.

(** The value of [c] as a digit of radix [R], if it is one. *)
Definition radix_digit (R : Z) (c : ascii) : option Z :=
  let n := code c in
  let v := if (48 <=? n)%Z && (n <=? 57)%Z then n - 48
           else if (97 <=? n)%Z && (n <=? 122)%Z then n - 87
           else if (65 <=? n)%Z && (n <=? 90)%Z then n - 55
           else R in
  if (v <? R)%Z then Some v else None.

(** The longest prefix of radix-[R] digits: its value, [None] when empty. *)
Fixpoint radix_prefix (R : Z) (acc : option Z) (s : string) : option Z :=
  match s with
  | String c s' =>
      match radix_digit R c with
      | Some v =>
          radix_prefix R (Some (R * match acc with Some a => a | None => 0 end + v)) s'
      | None => acc
      end
  | EmptyString => acc
  end.

(** [parseInt(s)] with no radix argument. *)
Definition parseInt (s : string) : number :=
  let S1 := trim_start s in
  let '(negative, S2) :=
    match S1 with
    | String "-" rest => (true, rest)
    | String "+" rest => (false, rest)
    | _ => (false, S1)
    end in
  let '(R, S3) :=
    match S2 with
    | String "0" (String "x" rest) => (16, rest)
    | String "0" (String "X" rest) => (16, rest)
    | _ => (10, S2)
    end in
  match radix_prefix R None S3 with
  | None => NaN
  | Some v => ofZ (if negative then - v else v)
  end.

(** A string is falsy exactly when it is empty. *)
Definition truthy (s : string) : bool :=
  match s with EmptyString => false | _ => true end.

(** [arr[i]] on an array of numbers; a missing element is [undefined],
    which arithmetic turns into NaN. *)
Definition item (arr : list number) (i : nat) : number := nth i arr NaN.

(** ** Component state and its event handlers *)

(** The four [useState] cells, and the messages shown by [alert]. *)
Record State : Type := mkState {
  measuredPoints : list MeasuredPoint;
  projectedPoints : list ProjectedPoint;
  currentTime : string;
  currentCO2 : string;
  alerts : list string
}.

Definition initialState : State :=
  {| measuredPoints := []; projectedPoints := [];
     currentTime := ""; currentCO2 := ""; alerts := [] |}.

Definition setMeasuredPoints (v : list MeasuredPoint) (st : State) : State :=
  {| measuredPoints := v; projectedPoints := projectedPoints st;
     currentTime := currentTime st; currentCO2 := currentCO2 st;
     alerts := alerts st |}.

Definition setProjectedPoints (v : list ProjectedPoint) (st : State) : State :=
  {| measuredPoints := measuredPoints st; projectedPoints := v;
     currentTime := currentTime st; currentCO2 := currentCO2 st;
     alerts := alerts st |}.

Definition setCurrentTime (v : string) (st : State) : State :=
  {| measuredPoints := measuredPoints st; projectedPoints := projectedPoints st;
     currentTime := v; currentCO2 := currentCO2 st;
     alerts := alerts st |}.

Definition setCurrentCO2 (v : string) (st : State) : State :=
  {| measuredPoints := measuredPoints st; projectedPoints := projectedPoints st;
     currentTime := currentTime st; currentCO2 := v;
     alerts := alerts st |}.

Definition alert (msg : string) (st : State) : State :=
  {| measuredPoints := measuredPoints st; projectedPoints := projectedPoints st;
     currentTime := currentTime st; currentCO2 := currentCO2 st;
     alerts := alerts st ++ [msg] |}.

(** Minutes since midnight of a wall-clock string:
    [const [hours, minutes] = t.split(':').map(Number)] and
    [hours * 60 + minutes]. *)
Definition totalMinutesOf (t : string) : number :=
  let parts := map Number (split ":" t) in
  (item parts 0 * 60%Z + item parts 1)%js.

(** The [elapsedMinutes] computed by [addDataPoint] for the wall-clock
    string [t] against the measurements [points] already stored. *)
Definition elapsedMinutesOf (t : string) (points : list MeasuredPoint) : number :=
  let totalMinutes := totalMinutesOf t in
  match points with
  | [] => 0%Z
  | first :: _ =>
      let firstPointMinutes := totalMinutesOf (time first) in
      let elapsedMinutes := (totalMinutes - firstPointMinutes)%js in
      if (elapsedMinutes <? 0%Z)%js
      then (elapsedMinutes + (24 * 60)%Z)%js
      else elapsedMinutes
  end.

(** [addDataPoint].  The handler reads the state [st] of the render it
    was created in; every setter writes the state of the next render,
    threaded here as [st1], [st2], ... *)
Definition addDataPoint (st : State) : State :=
  if negb (truthy (currentTime st)) || negb (truthy (currentCO2 st)) then st else
  if negb (test timePattern (currentTime st)) then
    alert "Please enter time in HH:MM format" st
  else
    let elapsedMinutes := elapsedMinutesOf (currentTime st) (measuredPoints st) in
    let st1 :=
      if (List.length (measuredPoints st) =? 0)%nat then st
      else setProjectedPoints [] st in
    let newPoint :=
      {| time := currentTime st; minutes := elapsedMinutes;
         co2 := parseInt (currentCO2 st); type := measured |} in
    let updatedMeasured := measuredPoints st ++ [newPoint] in
    let st2 := setMeasuredPoints updatedMeasured st1 in
    let st3 :=
      if (2 <=? List.length updatedMeasured)%nat
      then setProjectedPoints (buildProjectionSegment updatedMeasured) st2
      else st2 in
    setCurrentCO2 "" (setCurrentTime "" st3).

Definition clearData (st : State) : State :=
  setProjectedPoints [] (setMeasuredPoints [] st).

Definition removeLastPoint (st : State) : State :=
  if (List.length (measuredPoints st) =? 0)%nat then st else
  let updatedMeasured := slice_init (measuredPoints st) in
  let st1 := setMeasuredPoints updatedMeasured st in
  if (2 <=? List.length updatedMeasured)%nat
  then setProjectedPoints (buildProjectionSegment updatedMeasured) st1
  else setProjectedPoints [] st1.

(** What the user can do to the component. *)
Inductive Event : Type :=
| TypeTime (v : string)
| TypeCO2 (v : string)
| ClickAdd
| ClickClear
| RemoveLast.

Definition step (st : State) (e : Event) : State :=
  match e with
  | TypeTime v => setCurrentTime v st
  | TypeCO2 v => setCurrentCO2 v st
  | ClickAdd => addDataPoint st
  | ClickClear => clearData st
  | RemoveLast => removeLastPoint st
  end.

Definition run (events : list Event) : State :=
  fold_left step events initialState.

(** ** The earlier draft of the projection

    An earlier draft of the component builds the projection as a series
    of points every five minutes for two hours, stopping below 400 ppm;
    its [addDataPoint] merges that series into the stored one. *)

Module Draft.

(** The body of [for (let i = 5; i <= 120; i += 5)], over the values of
    [i] still to visit; [break] ends the series. *)
Fixpoint projectFrom (startMinutes startCO2 rate : number) (steps : list Z)
  : list ProjectedPoint :=
  match steps with
  | [] => []
  | i :: later =>
      let futureMinutes := (startMinutes + i)%js in
      let projectedCO2 := Math_round (startCO2 + rate * i)%js in
      if (projectedCO2 <? 400)%js then []
      else {| time := undefined; minutes := futureMinutes;
              co2 := projectedCO2; type := projected |}
           :: projectFrom startMinutes startCO2 rate later
  end.

Definition fiveMinuteSteps : list Z :=
  map (fun k => 5 * Z.of_nat k) (seq 1 24).

Definition buildProjectionSegment (measuredData : list MeasuredPoint)
  : list ProjectedPoint :=
  if (List.length measuredData <? 2)%nat then [] else
  match slice_last 2 measuredData with
  | prevPoint :: currentPoint :: _ =>
      let timeDiff := (minutes currentPoint - minutes prevPoint)%js in
      let co2Diff := (co2 currentPoint - co2 prevPoint)%js in
      let rate := (co2Diff / timeDiff)%js in
      if (rate >=? 0)%js then [] else
      let startMinutes := minutes currentPoint in
      let startCO2 := co2 currentPoint in
      projectFrom startMinutes startCO2 rate fiveMinuteSteps
  | _ => []
  end.

End Draft.

(** ** Quantities the specification names *)

(** The two-point rate of change, ppm per minute. *)
Definition rate (previous latest : MeasuredPoint) : number :=
  ((co2 latest - co2 previous) / (minutes latest - minutes previous))%js.

(** Minutes until the target of 550 ppm at that rate. *)
Definition minutesToTarget (previous latest : MeasuredPoint) : number :=
  ((550 - co2 latest) / rate previous latest)%js.

Definition half : number := Fin (1 # 2).

(** A measured point whose [minutes] and [co2] are integers. *)
Definition reading (t : string) (m c : Z) : MeasuredPoint :=
  {| time := t; minutes := m; co2 := c; type := measured |}.

Definition projectedAt (m c : number) : ProjectedPoint :=
  {| time := undefined; minutes := m; co2 := c; type := projected |}.

Definition integral (p : MeasuredPoint) : Prop :=
  exists m c : Z, minutes p = m /\ co2 p = c.

(** The pattern the specification describes: two-digit hours 00-23,
    two-digit minutes 00-59, that is
    [/^([01][0-9]|2[0-3]):([0-5][0-9])$/]. *)
Definition strictTimePattern : regex :=
  Seq (Alt (Seq (Cls "0" "1") (Cls "0" "9"))
           (Seq (Chr "2") (Cls "0" "3")))
      (Seq (Chr ":")
           (Seq (Cls "0" "5") (Cls "0" "9"))).

(** The strings [timePattern] accepts: one or two hour digits, a colon,
    two minute digits, within the ranges of a 24-hour clock. *)
Inductive TimeShape : string -> Z -> Z -> Prop :=
| shape_two (h1 h2 m1 m2 : ascii) :
    code "0" <= code h1 <= code "2" ->
    code "0" <= code h2 <= code "9" ->
    (code h1 = code "2" -> code h2 <= code "3") ->
    code "0" <= code m1 <= code "5" ->
    code "0" <= code m2 <= code "9" ->
    TimeShape (String h1 (String h2 (String ":" (String m1 (String m2 EmptyString)))))
              (10 * (code h1 - 48) + (code h2 - 48))
              (10 * (code m1 - 48) + (code m2 - 48))
| shape_one (h2 m1 m2 : ascii) :
    code "0" <= code h2 <= code "9" ->
    code "0" <= code m1 <= code "5" ->
    code "0" <= code m2 <= code "9" ->
    TimeShape (String h2 (String ":" (String m1 (String m2 EmptyString))))
              (code h2 - 48)
              (10 * (code m1 - 48) + (code m2 - 48)).

(** The stored projection is the one rebuilt from the stored measurements. *)
Definition projectionOf (points : list MeasuredPoint) : list ProjectedPoint :=
  if (2 <=? List.length points)%nat then buildProjectionSegment points else [].

(** A stored measurement is well formed: its time was accepted by
    [timePattern] and its elapsed minutes are an integer of a single day. *)
Definition wellFormed (p : MeasuredPoint) : Prop :=
  test timePattern (time p) = true /\
  exists m : Z, minutes p = m /\ 0 <= m <= 1439.

Definition firstIsOrigin (points : list MeasuredPoint) : Prop :=
  match points with
  | first :: _ => minutes first = 0
  | [] => True
  end.

(** The point an accepted submission stores. *)
Definition newPointOf (st : State) : MeasuredPoint :=
  {| time := currentTime st;
     minutes := elapsedMinutesOf (currentTime st) (measuredPoints st);
     co2 := parseInt (currentCO2 st);
     type := measured |}.

(** The guards of [addDataPoint]: both inputs non-empty and the time
    accepted by [timePattern]. *)
Definition accepted (st : State) : bool :=
  truthy (currentTime st) && truthy (currentCO2 st)
  && test timePattern (currentTime st).

(** The invariant of the component state. *)
Definition invariant (st : State) : Prop :=
  Forall wellFormed (measuredPoints st) /\
  firstIsOrigin (measuredPoints st) /\
  projectedPoints st = projectionOf (measuredPoints st).

(** ** Further parts of the component *)

(** [validProjections]: only a projection of exactly two points is
    handed to the chart data. *)
Definition validProjections (projectedPoints : list ProjectedPoint)
  : list ProjectedPoint :=
  if (List.length projectedPoints =? 2)%nat then projectedPoints else [].

(** Every stored measurement carries the elapsed minutes that
    [addDataPoint] computes for its wall-clock string against the first
    stored measurement. *)
Definition anchored (points : list MeasuredPoint) : Prop :=
  Forall (fun p => minutes p = elapsedMinutesOf (time p) points) points.

(** The four labels of [getCO2Status], in order of severity. *)
Definition severity (s : Status) : nat :=
  if String.eqb (text s) "Ideal" then 0
  else if String.eqb (text s) "Good" then 1
  else if String.eqb (text s) "Concerning" then 2
  else 3.

(** What [parseInt] can return. *)
Definition integerOrNaN (n : number) : Prop :=
  n = NaN \/ exists z : Z, n = z.

(** [Math.floor] *)
Definition Math_floor (a : number) : number :=
  match a with
  | Fin x => ofZ (Qfloor x)
  | _ => a
  end.

(** [Math.min(a, b)] *)
Definition Math_min (a b : number) : number :=
  match a, b with
  | NaN, _ | _, NaN => NaN
  | _, _ => if (a <? b)%js then a else b
  end.

(** The quotient of a rational truncated towards zero. *)
Definition Qtrunc (q : Q) : Z := Z.quot (Qnum q) (Z.pos (Qden q)).

(** [a % b]: the remainder of the truncated division, with the sign of
    the dividend. *)
Definition rem (a b : number) : number :=
  match a, b with
  | Fin x, Fin y =>
      if Qeqb y 0 then NaN
      else Fin (Qred (x - y * inject_Z (Qtrunc (x / y))))
  | Fin x, PosInf | Fin x, NegInf => Fin x
  | _, _ => NaN
  end.

(** The decimal digits of an integer, with a minus sign when negative. *)
Definition decimal (z : Z) : string := NilZero.string_of_int (Z.to_int z).

(** [n.toString()].  Integers below 10^21 in magnitude print as their
    decimal digits; the printing of fractions and of larger values
    (shortest round-trip digits, exponents) is not modelled: [None]. *)
Definition toString (a : number) : option string :=
  match a with
  | NaN => Some "NaN"
  | PosInf => Some "Infinity"
  | NegInf => Some "-Infinity"
  | Fin x =>
      if Qeqb x (inject_Z (Qfloor x)) && (Z.abs (Qfloor x) <? 10 ^ 21)
      then Some (decimal (Qfloor x))
      else None
  end.

Fixpoint repeat_string (n : nat) (s : string) : string :=
  match n with
  | O => ""
  | S n' => (s ++ repeat_string n' s)%string
  end.

(** [s.padStart(targetLength, fillString)] *)
Definition padStart (targetLength : nat) (fillString : string) (s : string) : string :=
  let len := String.length s in
  if (targetLength <=? len)%nat then s
  else match fillString with
       | EmptyString => s
       | _ =>
           let fillLen := (targetLength - len)%nat in
           (substring 0 fillLen (repeat_string fillLen fillString) ++ s)%string
       end.

(** [formatTime]: the wall-clock string of an elapsed minute. *)
Definition formatTime (st : State) (minutes : number) : option string :=
  if (List.length (measuredPoints st) =? 0)%nat then Some "" else
  match measuredPoints st with
  | first :: _ =>
      let firstPointMinutes := totalMinutesOf (time first) in
      let totalMinutes := (firstPointMinutes + minutes)%js in
      let hours := rem (Math_floor (totalMinutes / 60)%js) 24 in
      let mins := rem totalMinutes 60 in
      match toString hours, toString mins with
      | Some h, Some m => Some (padStart 2 "0" h ++ ":" ++ padStart 2 "0" m)%string
      | _, _ => None
      end
  | [] => Some ""
  end.

(** What [new Date()] is asked for: the local hour and minute. *)
Record Date : Type := mkDate {
  getHours : Z;
  getMinutes : Z
}.

(** [setCurrentTimeToNow], given the clock reading [now]. *)
Definition setCurrentTimeToNow (now : Date) (st : State) : State :=
  let hours := padStart 2 "0" (decimal (getHours now)) in
  let minutes := padStart 2 "0" (decimal (getMinutes now)) in
  setCurrentTime (hours ++ ":" ++ minutes)%string st.

(** *** The time field

    The [onChange] handler of the time input rewrites what was typed
    before it is stored. *)

(** [value.replace(/[^0-9:]/g, '')]: every character that is neither a
    digit nor a colon is removed. *)
Fixpoint keepDigitsAndColons (s : string) : string :=
  match s with
  | EmptyString => EmptyString
  | String c s' =>
      if is_digit c || Ascii.eqb c ":"
      then String c (keepDigitsAndColons s')
      else keepDigitsAndColons s'
  end.

(** [/^\d{3,4}$/] *)
Definition threeOrFourDigits : regex :=
  Seq (Cls "0" "9") (Seq (Cls "0" "9") (Seq (Cls "0" "9") (Opt (Cls "0" "9")))).

(** [s.includes(c)] for a one-character string [c]. *)
Fixpoint includes (c : ascii) (s : string) : bool :=
  match s with
  | EmptyString => false
  | String a s' => Ascii.eqb a c || includes c s'
  end.

(** [s.substring(n)] *)
Definition substringFrom (n : nat) (s : string) : string :=
  substring n (String.length s - n) s.

(** [a || 0] on numbers: NaN and 0 are falsy. *)
Definition orZero (a : number) : number :=
  match a with
  | NaN => 0
  | Fin x => if Qeqb x 0 then 0 else a
  | _ => a
  end.

(** [pieces[i]] on an array of strings; a missing element is
    [undefined], which is falsy like the empty string and is only ever
    tested for truth. *)
Definition piece (pieces : list string) (i : nat) : string := nth i pieces "".

(** The second statement of the handler: three or four digits typed
    without a colon get one after the second digit. *)
Definition insertColon (value : string) : string :=
  if test threeOrFourDigits value then
    let hours := substring 0 2 value in
    let minutes := substringFrom 2 value in
    (hours ++ ":" ++ minutes)%string
  else value.

(** The third statement: once there is a colon, the hours are clamped to
    23 and padded to two digits, the minutes cut to two digits and
    clamped to 59. *)
Definition clampTime (value : string) : option string :=
  if includes ":" value then
    let pieces := split ":" value in
    let hours := piece pieces 0 in
    let minutes := piece pieces 1 in
    match (if truthy hours
           then option_map (padStart 2 "0")
                  (toString (Math_min (orZero (parseInt hours)) 23))
           else Some "00") with
    | Some validHours =>
        let validMinutes :=
          if truthy minutes then
            let validMinutes :=
              if (2 <? String.length minutes)%nat
              then substring 0 2 minutes else minutes in
            if (parseInt validMinutes >? 59)%js then "59" else validMinutes
          else "" in
        Some (validHours ++ (if includes ":" value
                             then ":" ++ validMinutes else ""))%string
    | None => None
    end
  else Some value.

(** The handler, given [e.target.value]. *)
Definition timeInput_onChange (targetValue : string) (st : State) : option State :=
  let value := keepDigitsAndColons targetValue in
  let value := insertColon value in
  match clampTime value with
  | Some value => Some (setCurrentTime value st)
  | None => None
  end.

(** A string of digits and colons only. *)
Fixpoint digitsAndColons (s : string) : bool :=
  match s with
  | EmptyString => true
  | String c s' => (is_digit c || Ascii.eqb c ":") && digitsAndColons s'
  end.

Fixpoint allDigits (s : string) : bool :=
  match s with
  | EmptyString => true
  | String c s' => is_digit c && allDigits s'
  end.

(** What the clamped minutes of the time field can be: at most two
    digits, of value at most 59. *)
Definition minuteField (mm : string) : Prop :=
  allDigits mm = true /\ (String.length mm <= 2)%nat /\
  exists k : Z, Number mm = k /\ 0 <= k <= 59.

(** *** Merging projections

    [mergeProjectionSegments] is part of the component and is what the
    earlier draft's [addDataPoint] stores. *)

(** SameValueZero on numbers, the key equality of a [Map]: NaN is equal
    to itself. *)
Definition sameValueZero (a b : number) : bool :=
  match a, b with
  | NaN, NaN => true
  | _, _ => (a === b)%js
  end.

(** A [Map] keyed by numbers: its entries in insertion order. *)
Definition PointMap : Type := list (number * ProjectedPoint).

Definition Map_has (m : PointMap) (key : number) : bool :=
  existsb (fun entry => sameValueZero (fst entry) key) m.

(** [m.set(key, value)]: an existing key keeps its place and gets the
    new value, a new key goes last. *)
Fixpoint Map_set (m : PointMap) (key : number) (value : ProjectedPoint) : PointMap :=
  match m with
  | [] => [(key, value)]
  | (k, v) :: rest =>
      if sameValueZero k key then (k, value) :: rest
      else (k, v) :: Map_set rest key value
  end.

Definition Map_values (m : PointMap) : list ProjectedPoint := map snd m.

Definition PointType_eqb (a b : PointType) : bool :=
  match a, b with
  | measured, measured | projected, projected => true
  | _, _ => false
  end.

(** [arr.sort(compare)], as a stable insertion sort: each element goes
    before the first one it compares below (a NaN comparison counts as
    0).  For a comparator that orders the elements consistently this is
    the result ECMAScript prescribes; for an inconsistent one the order
    is left to the implementation and this is one admissible outcome. *)
Fixpoint sort_insert {A : Type} (compare : A -> A -> number) (x : A) (sorted : list A)
  : list A :=
  match sorted with
  | [] => [x]
  | y :: rest =>
      if (compare x y <? 0)%js then x :: y :: rest
      else y :: sort_insert compare x rest
  end.

Definition sort {A : Type} (compare : A -> A -> number) (arr : list A) : list A :=
  fold_left (fun sorted x => sort_insert compare x sorted) arr [].

Definition byMinutes {T : Type} (a b : Point T) : number :=
  (minutes a - minutes b)%js.

Definition mergeProjectionSegments (allProjected : list ProjectedPoint)
  : list ProjectedPoint :=
  let timeMap :=
    fold_left
      (fun (timeMap : PointMap) point =>
         if negb (Map_has timeMap (minutes point))
            || PointType_eqb (type point) projected
         then Map_set timeMap (minutes point) point
         else timeMap)
      allProjected [] in
  sort byMinutes (Map_values timeMap).

(** The earlier draft's [addDataPoint].  It has no check of the time
    (its time field is an [<input type="time">]); the update
    [setProjectedPoints(prev => ...)] is applied to the pending state
    and then replaced by the later [setProjectedPoints(mergedProjected)]. *)
Module DraftHandlers.

Definition addDataPoint (st : State) : State :=
  if negb (truthy (currentTime st)) || negb (truthy (currentCO2 st)) then st else
  let totalMinutes := totalMinutesOf (currentTime st) in
  let '(elapsedMinutes, st1) :=
    match measuredPoints st with
    | [] => (ofZ 0, st)
    | first :: _ =>
        let firstPointMinutes := totalMinutesOf (time first) in
        let elapsedMinutes := (totalMinutes - firstPointMinutes)%js in
        if (elapsedMinutes <? 0)%js
        then ((elapsedMinutes + (24 * 60)%Z)%js, st)
        else (elapsedMinutes,
              setProjectedPoints
                (sort byMinutes
                   (filter (fun p => (minutes p <? elapsedMinutes)%js)
                           (projectedPoints st)))
                st)
    end in
  let newPoint :=
    {| time := currentTime st; minutes := elapsedMinutes;
       co2 := parseInt (currentCO2 st); type := measured |} in
  let updatedMeasured := measuredPoints st ++ [newPoint] in
  let st2 := setMeasuredPoints updatedMeasured st1 in
  let st3 :=
    if (2 <=? List.length updatedMeasured)%nat then
      let newSegment := Draft.buildProjectionSegment updatedMeasured in
      let mergedProjected :=
        mergeProjectionSegments (projectedPoints st ++ newSegment) in
      setProjectedPoints mergedProjected st2
    else st2 in
  setCurrentCO2 "" (setCurrentTime "" st3).

End DraftHandlers.

(** A point whose [minutes] are finite. *)
Definition finiteMinutes {T : Type} (p : Point T) : Prop :=
  exists q : Q, minutes p = Fin q.

(** The step of the loop of [mergeProjectionSegments]. *)
Definition mergeStep (timeMap : PointMap) (point : ProjectedPoint) : PointMap :=
  if negb (Map_has timeMap (minutes point)) || PointType_eqb (type point) projected
  then Map_set timeMap (minutes point) point
  else timeMap.

(** The keys of a map are pairwise different, and every entry is filed
    under the minutes of its point. *)
Definition wellKeyed (m : PointMap) : Prop :=
  ForallOrdPairs (fun a b => sameValueZero a b = false) (map fst m) /\
  Forall (fun e => sameValueZero (fst e) (minutes (snd e)) = true) m.

(** One projected point lies at an earlier minute than another; two
    projected points lie at different minutes. *)
Definition beforeMinute (a b : ProjectedPoint) : Prop :=
  (minutes a <? minutes b)%js = true.

Definition otherMinute (a b : ProjectedPoint) : Prop :=
  sameValueZero (minutes a) (minutes b) = false.

(** *** The time-to-target panel

    The element of the status card that reports the time to the ideal
    level: what it shows, before the number is formatted. *)
Inductive TimePanel : Type :=
| NeedTwoMeasurements
| InHours (hours : number)
| InMinutes (mins : number)
| NotDecreasing.

(** A number is falsy when it is 0 or NaN. *)
Definition truthyNumber (a : number) : bool :=
  match a with
  | NaN => false
  | Fin x => negb (Qeqb x 0)
  | _ => true
  end.

Definition timePanel (measuredPoints : list MeasuredPoint) : option TimePanel :=
  match latestMeasured measuredPoints with
  | None => None
  | Some latest =>
      if (List.length measuredPoints =? 1)%nat && (co2 latest >? 550)%js
      then Some NeedTwoMeasurements
      else if (2 <=? List.length measuredPoints)%nat && (co2 latest >? 550)%js
      then match timeToIdeal measuredPoints with
           | Some t =>
               if truthyNumber t
               then if (t >? 120)%js then Some (InHours (t / 60)%js)
                    else Some (InMinutes t)
               else Some NotDecreasing
           | None => Some NotDecreasing
           end
      else None
  end.

(** The character of a decimal digit. *)
Definition digitChar (d : Z) : ascii := ascii_of_N (Z.to_N (48 + d)).

Definition twoDigits (z : Z) : string :=
  String (digitChar (z / 10)) (String (digitChar (z mod 10)) EmptyString).

(** *** What reaches [addDataPoint]

    The time field is written by its [onChange] handler and by the
    "Now" button only (and cleared by [addDataPoint]); the concentration
    field stores whatever value its input element reports.  A clock
    reads hours 0 to 23 and minutes 0 to 59.  [removeLastPoint] is
    defined by the component although no element of it calls it; it is
    among the interactions so that they cover every handler. *)
Inductive Interaction : Type :=
| ChangeTime (targetValue : string)
| PressNow (now : Date)
| ChangeCO2 (targetValue : string)
| PressAdd
| PressClear
| UndoLast.

Definition interact (st : State) (i : Interaction) : option State :=
  match i with
  | ChangeTime targetValue => timeInput_onChange targetValue st
  | PressNow now =>
      if (0 <=? getHours now) && (getHours now <=? 23)
         && (0 <=? getMinutes now) && (getMinutes now <=? 59)
      then Some (setCurrentTimeToNow now st)
      else None
  | ChangeCO2 targetValue => Some (setCurrentCO2 targetValue st)
  | PressAdd => Some (addDataPoint st)
  | PressClear => Some (clearData st)
  | UndoLast => Some (removeLastPoint st)
  end.

Fixpoint session (interactions : list Interaction) (st : State) : option State :=
  match interactions with
  | [] => Some st
  | i :: later =>
      match interact st i with
      | Some st' => session later st'
      | None => None
      end
  end.


(** *** The Standard Library's IEEE 754 arithmetic, for comparison *)

(** An integer as a binary64 value, and the [number] of a binary64
    value. *)
Definition binary64_of_Z (z : Z) : SpecFloat.spec_float :=
  SpecFloat.binary_normalize 53 1024 z 0 false.

Definition number_of_binary64 (f : SpecFloat.spec_float) : number :=
  match f with
  | SpecFloat.S754_zero _ => Fin 0
  | SpecFloat.S754_infinity s => if s then NegInf else PosInf
  | SpecFloat.S754_nan => NaN
  | SpecFloat.S754_finite s m e =>
      Fin (Qred ((if s then -1 else 1) * inject_Z (Z.pos m) * 2 ^ e)%Q)
  end.

(** The arithmetic of [buildProjectionSegment] and of the [timeToIdeal]
    block on two integer readings, in the Standard Library's binary64:
    the rate and, when it is negative, the time to the target and the
    hourly rate. *)
Definition binary64_projection (mp cp mc cc : Z)
  : number * option (number * number) :=
  let sub := SpecFloat.SFsub 53 1024 in
  let div := SpecFloat.SFdiv 53 1024 in
  let mul := SpecFloat.SFmul 53 1024 in
  let rate :=
    div (sub (binary64_of_Z cc) (binary64_of_Z cp))
        (sub (binary64_of_Z mc) (binary64_of_Z mp)) in
  (number_of_binary64 rate,
   if (number_of_binary64 rate <? 0)%js
   then Some (number_of_binary64
                (div (sub (binary64_of_Z 550) (binary64_of_Z cc)) rate),
              number_of_binary64 (mul (SpecFloat.SFopp rate) (binary64_of_Z 60)))
   else None).

(** The same quantities in the arithmetic of [number]. *)
Definition number_projection (mp cp mc cc : Z)
  : number * option (number * number) :=
  let previous := reading "" mp cp in
  let latest := reading "" mc cc in
  (rate previous latest,
   if (rate previous latest <? 0)%js
   then Some (minutesToTarget previous latest, (- rate previous latest * 60)%js)
   else None).

(** Readings to compare the two on: [n] of them, drawn by a linear
    congruential generator from the minutes of a day and concentrations
    up to 5000 ppm. *)
Fixpoint sample_readings (n : nat) (seed : Z) : list (Z * Z * Z * Z) :=
  match n with
  | O => []
  | S n' =>
      let s1 := (seed * 1103515245 + 12345) mod 2147483648 in
      let s2 := (s1 * 1103515245 + 12345) mod 2147483648 in
      let s3 := (s2 * 1103515245 + 12345) mod 2147483648 in
      let s4 := (s3 * 1103515245 + 12345) mod 2147483648 in
      (s1 / 65536 mod 1440, 300 + s2 / 65536 mod 4700,
       s3 / 65536 mod 1440, 300 + s4 / 65536 mod 4700)
      :: sample_readings n' s4
  end.

(** The unit roundoff of binary64, [2^-53]: the largest relative change
    rounding to nearest makes. *)
Definition unit_roundoff : Q := 1 # 9007199254740992.

(** * Properties *)

(** ** The model at work *)

Example timePattern_examples :
  map (test timePattern) ["23:59"; "00:00"; "9:30"; "24:00"; "12:60"; "1:5"; "012:30"; "12:30 "; ""]
  = [true; true; true; false; false; false; false; false; false].
Proof. reflexivity. Qed.

Example split_examples :
  split ":" "23:50" = ["23"; "50"] /\ split ":" "" = [""] /\
  split ":" "a::b" = ["a"; ""; "b"].
Proof. repeat split. Qed.

Example parseInt_examples :
  map parseInt ["1000"; "  -12px"; "0x1F"; "1e3"; "abc"; ".5"; "-"]
  = [ofZ 1000; ofZ (-12); ofZ 31; ofZ 1; NaN; NaN; NaN].
Proof. reflexivity. Qed.

Example Math_round_examples :
  map Math_round [Fin (5 # 2); Fin (-5 # 2); Fin (1 # 4); Fin (-3 # 4); PosInf; NaN]
  = [ofZ 3; ofZ (-2); ofZ 0; ofZ (-1); PosInf; NaN].
Proof. reflexivity. Qed.

Example division_examples :
  (ofZ (-200) / ofZ 10)%js = (-20) /\ (ofZ 0 / ofZ 0)%js = NaN /\
  (ofZ (-100) / ofZ 0)%js = NegInf /\ (ofZ (-250) / NegInf)%js = 0 /\
  (NaN >=? 0)%js = false /\ (NaN <? 0)%js = false.
Proof. repeat split. Qed.

Example session_example :
  run [TypeTime "23:50"; TypeCO2 "1000"; ClickAdd;
       TypeTime "00:10"; TypeCO2 "800"; ClickAdd] =
  {| measuredPoints :=
       [ {| time := "23:50"; minutes := 0; co2 := 1000; type := measured |};
         {| time := "00:10"; minutes := 20; co2 := 800; type := measured |} ];
     projectedPoints :=
       [ {| time := undefined; minutes := 20; co2 := 800; type := projected |};
         {| time := undefined; minutes := 45; co2 := 550; type := projected |} ];
     currentTime := ""; currentCO2 := ""; alerts := [] |}.
Proof. reflexivity. Qed.

Example rejected_example :
  run [TypeTime "25:00"; TypeCO2 "1000"; ClickAdd] =
  {| measuredPoints := []; projectedPoints := [];
     currentTime := "25:00"; currentCO2 := "1000";
     alerts := ["Please enter time in HH:MM format"] |}.
Proof. reflexivity. Qed.

Example Draft_example :
  map (fun p : ProjectedPoint => (minutes p, co2 p))
      (Draft.buildProjectionSegment
         [ {| time := "12:00"; minutes := 0; co2 := 1000; type := measured |};
           {| time := "12:10"; minutes := 10; co2 := 800; type := measured |} ])
  = [ (ofZ 15, ofZ 700); (ofZ 20, ofZ 600); (ofZ 25, ofZ 500); (ofZ 30, ofZ 400) ].
Proof. reflexivity. Qed.

(** Quotients are rounded as binary64 rounds them: -14/3 has no finite
    binary expansion, and (550 - 585) / (-14/3) comes out just below
    7.5, so that the projection from 599 ppm to 585 ppm in three minutes
    ends 7 minutes, not 8, after the latest reading. *)
Example rounding_examples :
  (ofZ (-14) / ofZ 3)%js = Fin (-5254199565265579 # 1125899906842624) /\
  (ofZ (-35) / (ofZ (-14) / ofZ 3))%js
    = Fin (8444249301319679 # 1125899906842624) /\
  (ofZ 1 / ofZ 3 * ofZ 3)%js = ofZ 1 /\
  buildProjectionSegment [reading "12:00" 0 599; reading "12:03" 3 585]
    = [ projectedAt 3 585; projectedAt 10 550 ] /\
  timeToIdeal_currentRate [reading "12:00" 0 599; reading "12:03" 3 585]
    = (Some (ofZ 7), Some (ofZ 280)) /\
  buildProjectionSegment [reading "12:00" 0 697; reading "12:03" 3 683]
    = [ projectedAt 3 683; projectedAt 31 550 ].
Proof. repeat split; vm_compute; reflexivity. Qed.

(** [round64] against the Standard Library's specification of IEEE 754
    arithmetic: on sampled pairs of readings, and on some chosen ones,
    the rate, the time to the target and the hourly rate are the same
    numbers. *)
Example round64_is_binary64 :
  map (fun '(mp, cp, mc, cc) => binary64_projection mp cp mc cc)
      (sample_readings 250 1)
  = map (fun '(mp, cp, mc, cc) => number_projection mp cp mc cc)
        (sample_readings 250 1) /\
  map (fun '(mp, cp, mc, cc) => binary64_projection mp cp mc cc)
      [ (0, 599, 3, 585); (0, 697, 3, 683); (0, 1000, 10, 800);
        (0, 555, 1, 551); (20, 900, 5, 1100); (7, 800, 7, 700);
        (7, 800, 7, 800); (0, 1200, 1439, 1199);
        (0, 9007199254740991, 7, 3); (0, 0, 9007199254740991, -1) ]
  = map (fun '(mp, cp, mc, cc) => number_projection mp cp mc cc)
      [ (0, 599, 3, 585); (0, 697, 3, 683); (0, 1000, 10, 800);
        (0, 555, 1, 551); (20, 900, 5, 1100); (7, 800, 7, 700);
        (7, 800, 7, 800); (0, 1200, 1439, 1199);
        (0, 9007199254740991, 7, 3); (0, 0, 9007199254740991, -1) ].
Proof. split; vm_compute; reflexivity. Qed.

(** ** Comparisons of rationals *)

Lemma Qltb_lt (x y : Q) : Qltb x y = true <-> (x < y)%Q.
Proof.
  unfold Qltb. rewrite Qlt_alt. destruct (x ?= y)%Q; split; congruence.
Qed.

Lemma Qleb_le (x y : Q) : Qleb x y = true <-> (x <= y)%Q.
Proof.
  unfold Qleb. rewrite Qle_alt. destruct (x ?= y)%Q; split; congruence.
Qed.

Lemma Qeqb_eq (x y : Q) : Qeqb x y = true <-> (x == y)%Q.
Proof.
  unfold Qeqb. rewrite Qeq_alt. destruct (x ?= y)%Q; split; congruence.
Qed.

Lemma Qltb_Qleb (x y : Q) : Qltb x y = negb (Qleb y x).
Proof.
  unfold Qltb, Qleb. rewrite <- (Qcompare_antisym x y).
  destruct (x ?= y)%Q; reflexivity.
Qed.

Lemma Qred_inject_Z (z : Z) : Qred (inject_Z z) = inject_Z z.
Proof.
  unfold inject_Z, Qred.
  pose proof (Z.ggcd_correct_divisors z 1) as D.
  pose proof (Z.ggcd_gcd z 1) as G.
  destruct (Z.ggcd z 1) as [g [a b]]. simpl in *.
  rewrite Z.gcd_1_r in G. subst g. destruct D as [Dz D1].
  rewrite Z.mul_1_l in Dz, D1. subst a b. reflexivity.
Qed.

Lemma Qred_eq_inject_Z (q : Q) (z : Z) : (q == inject_Z z)%Q -> Qred q = inject_Z z.
Proof.
  intros E. rewrite (Qred_complete _ _ E). apply Qred_inject_Z.
Qed.

(** ** Rounding *)

Lemma round64_comp (x y : Q) : (x == y)%Q -> round64 x = round64 y.
Proof. intros E. unfold round64. rewrite (Qred_complete x y E). reflexivity. Qed.

Lemma nearest_even_comp (x y : Q) : (x == y)%Q -> nearest_even x = nearest_even y.
Proof.
  intros E. unfold nearest_even. rewrite (Qfloor_comp x y E).
  rewrite (Qcompare_comp (x - inject_Z (Qfloor y))%Q (y - inject_Z (Qfloor y))%Q
             ltac:(rewrite E; reflexivity) (1 # 2)%Q (1 # 2)%Q ltac:(reflexivity)).
  reflexivity.
Qed.

Lemma nearest_even_floor (x : Q) : Qfloor x <= nearest_even x.
Proof.
  unfold nearest_even. destruct (_ ?= _)%Q; [ destruct (Z.even _) | | ]; lia.
Qed.

Lemma nearest_even_Z (z : Z) : nearest_even (inject_Z z) = z.
Proof.
  unfold nearest_even. rewrite Qfloor_Z.
  replace (inject_Z z - inject_Z z ?= 1 # 2)%Q with Lt; [ reflexivity | ].
  symmetry. apply Qlt_alt.
  setoid_replace (inject_Z z - inject_Z z)%Q with 0%Q by ring. reflexivity.
Qed.

Lemma Qpower2_pos (e : Z) : (0 < 2 ^ e)%Q.
Proof. apply Qpower_0_lt. reflexivity. Qed.

Lemma Qdiv_le_compat (a b c d : Q) :
  (0 <= a)%Q -> (a <= c)%Q -> (0 < d)%Q -> (d <= b)%Q -> (a / b <= c / d)%Q.
Proof.
  intros Ha Hac Hd Hdb.
  assert (Hb : (0 < b)%Q) by (eapply Qlt_le_trans; eassumption).
  apply Qle_shift_div_l; [ exact Hd | ].
  unfold Qdiv. rewrite <- Qmult_assoc, (Qmult_comm (/ b)), Qmult_assoc.
  apply Qle_shift_div_r; [ exact Hb | ].
  apply Qle_trans with (a * b)%Q.
  - rewrite !(Qmult_comm a). apply Qmult_le_compat_r; assumption.
  - apply Qmult_le_compat_r; [ assumption | apply Qlt_le_weak; assumption ].
Qed.

(** The power of two of its binade is at most a positive rational. *)
Lemma binade_le (x : Q) : (0 < x)%Q -> (2 ^ binade x <= x)%Q.
Proof.
  intros Hx. unfold binade.
  destruct (Qle_bool _ x) eqn:T; [ apply Qle_bool_iff; exact T | ].
  destruct x as [n d]. cbn [Qnum Qden].
  assert (Hn : 0 < n) by (unfold Qlt in Hx; simpl in Hx; lia).
  pose proof (Z.log2_spec n Hn) as [Ln _].
  pose proof (Z.log2_spec (Z.pos d) ltac:(lia)) as [_ Ud].
  pose proof (Z.log2_nonneg n) as An.
  pose proof (Z.log2_nonneg (Z.pos d)) as Ad.
  set (a := Z.log2 n) in *. set (b := Z.log2 (Z.pos d)) in *.
  replace (a - b - 1) with (a + - (b + 1)) by lia.
  rewrite Qpower_plus by discriminate. rewrite Qpower_opp.
  rewrite (Qmake_Qdiv n d).
  change (2 ^ a * / 2 ^ (b + 1))%Q with (2 ^ a / 2 ^ (b + 1))%Q.
  change 2%Q with (inject_Z 2).
  rewrite <- !Zpower_Qpower by lia.
  apply Qdiv_le_compat.
  - rewrite <- (Zle_Qle 0). lia.
  - rewrite <- Zle_Qle. exact Ln.
  - rewrite <- (Zlt_Qlt 0). lia.
  - rewrite <- Zle_Qle. lia.
Qed.

Lemma Qdiv_lt_compat (a b c d : Q) :
  (0 <= a)%Q -> (a < c)%Q -> (0 < d)%Q -> (d <= b)%Q -> (a / b < c / d)%Q.
Proof.
  intros Ha Hac Hd Hdb.
  assert (Hb : (0 < b)%Q) by (eapply Qlt_le_trans; eassumption).
  apply Qle_lt_trans with (a / d)%Q.
  - apply Qdiv_le_compat; try assumption. apply Qle_refl.
  - apply Qlt_shift_div_l; [ exact Hd | ].
    unfold Qdiv. rewrite <- Qmult_assoc, (Qmult_comm (/ d)), Qmult_inv_r, Qmult_1_r.
    + exact Hac.
    + intros E. rewrite E in Hd. discriminate.
Qed.

(** [binade] is what its name says. *)
Lemma binade_spec (x : Q) :
  (0 < x)%Q -> (2 ^ binade x <= x)%Q /\ (x < 2 ^ (binade x + 1))%Q.
Proof.
  intros Hx. split; [ apply binade_le; exact Hx | ].
  unfold binade.
  destruct (Qle_bool _ x) eqn:T.
  - destruct x as [n d]. cbn [Qnum Qden].
    assert (Hn : 0 < n) by (unfold Qlt in Hx; simpl in Hx; lia).
    pose proof (Z.log2_spec n Hn) as [_ Un].
    pose proof (Z.log2_spec (Z.pos d) ltac:(lia)) as [Ld _].
    pose proof (Z.log2_nonneg n) as An.
    pose proof (Z.log2_nonneg (Z.pos d)) as Ad.
    set (a := Z.log2 n) in *. set (b := Z.log2 (Z.pos d)) in *.
    replace (a - b + 1) with ((a + 1) + - b) by lia.
    rewrite Qpower_plus by discriminate. rewrite Qpower_opp.
    rewrite (Qmake_Qdiv n d).
    change (2 ^ (a + 1) * / 2 ^ b)%Q with (2 ^ (a + 1) / 2 ^ b)%Q.
    change 2%Q with (inject_Z 2).
    rewrite <- !Zpower_Qpower by lia.
    apply Qdiv_lt_compat.
    + rewrite <- (Zle_Qle 0). lia.
    + rewrite <- Zlt_Qlt. replace (a + 1) with (Z.succ a) by lia. exact Un.
    + rewrite <- (Zlt_Qlt 0). lia.
    + rewrite <- Zle_Qle. exact Ld.
  - set (e := Z.log2 (Qnum x) - Z.log2 (Z.pos (Qden x))) in *.
    replace (e - 1 + 1) with e by lia.
    apply Qnot_le_lt. intros L. apply Qle_bool_iff in L. congruence.
Qed.

Lemma nearest_even_near (x : Q) :
  (Qabs (inject_Z (nearest_even x) - x) <= 1 # 2)%Q.
Proof.
  pose proof (Qfloor_le x) as L. pose proof (Qlt_floor x) as U.
  rewrite inject_Z_plus in U. change (inject_Z 1) with 1%Q in U.
  apply Qabs_Qle_condition. unfold nearest_even.
  destruct (x - inject_Z (Qfloor x) ?= 1 # 2)%Q eqn:C.
  - apply Qeq_alt in C. destruct (Z.even (Qfloor x));
      rewrite ?inject_Z_plus; change (inject_Z 1) with 1%Q; split; lra.
  - apply Qlt_alt in C. split; lra.
  - apply Qgt_alt in C. rewrite inject_Z_plus. change (inject_Z 1) with 1%Q.
    split; lra.
Qed.

(** The significand has 53 bits (or is 2^53, the first value of the next
    binade), and the rounded value is within half a unit in the last
    place of the exact one. *)
Lemma round_pos_spec (x : Q) :
  (0 < x)%Q ->
  let e := binade x - 52 in
  let m := nearest_even (x / 2 ^ e) in
  (round_pos x == inject_Z m * 2 ^ e)%Q /\
  2 ^ 52 <= m <= 2 ^ 53 /\
  (Qabs (round_pos x - x) <= (1 # 2) * 2 ^ e)%Q.
Proof.
  intros Hx e m. split; [ reflexivity | ].
  destruct (binade_spec x Hx) as [Lo Hi].
  pose proof (Qpower2_pos e) as Pe.
  assert (NZ : ~ (2 ^ e == 0)%Q) by (intros E; rewrite E in Pe; discriminate).
  assert (Y1 : (inject_Z (2 ^ 52) <= x / 2 ^ e)%Q).
  { apply Qle_shift_div_l; [ exact Pe | ].
    rewrite (Zpower_Qpower 2 52) by lia. change (inject_Z 2) with 2%Q.
    rewrite <- Qpower_plus by discriminate.
    replace (52 + e) with (binade x) by (unfold e; lia). exact Lo. }
  assert (Y2 : (x / 2 ^ e < inject_Z (2 ^ 53))%Q).
  { apply Qlt_shift_div_r; [ exact Pe | ].
    rewrite (Zpower_Qpower 2 53) by lia. change (inject_Z 2) with 2%Q.
    rewrite <- Qpower_plus by discriminate.
    replace (53 + e) with (binade x + 1) by (unfold e; lia). exact Hi. }
  pose proof (nearest_even_near (x / 2 ^ e)) as Near. fold m in Near.
  split.
  - apply Qabs_Qle_condition in Near. destruct Near as [N1 N2].
    split.
    + pose proof (Qfloor_resp_le _ _ Y1) as F. rewrite Qfloor_Z in F.
      pose proof (nearest_even_floor (x / 2 ^ e)) as G. fold m in G. lia.
    + assert (F : Qfloor (x / 2 ^ e) < 2 ^ 53).
      { rewrite Zlt_Qlt. eapply Qle_lt_trans; [ apply Qfloor_le | exact Y2 ]. }
      assert (G : m <= Qfloor (x / 2 ^ e) + 1).
      { unfold m, nearest_even. destruct (_ ?= _)%Q; [ destruct (Z.even _) | | ]; lia. }
      lia.
  - unfold round_pos. fold e. fold m.
    setoid_replace (inject_Z m * 2 ^ e - x)%Q
      with ((inject_Z m - x / 2 ^ e) * 2 ^ e)%Q by (field; exact NZ).
    rewrite Qabs_Qmult, (Qabs_pos (2 ^ e)) by (apply Qlt_le_weak; exact Pe).
    apply Qmult_le_compat_r; [ exact Near | apply Qlt_le_weak; exact Pe ].
Qed.

Lemma round_pos_positive (x : Q) : (0 < x)%Q -> (0 < round_pos x)%Q.
Proof.
  intros Hx. unfold round_pos.
  set (e := binade x - 52).
  assert (One : (1 <= x / 2 ^ e)%Q).
  { apply Qle_shift_div_l; [ apply Qpower2_pos | ]. rewrite Qmult_1_l.
    apply Qle_trans with (2 ^ binade x)%Q; [ | apply binade_le; exact Hx ].
    apply Qpower_le_compat_l; [ unfold e; lia | discriminate ]. }
  pose proof (Qfloor_resp_le _ _ One) as F. change (Qfloor 1) with 1 in F.
  pose proof (nearest_even_floor (x / 2 ^ e)) as N.
  apply Qmult_lt_0_compat; [ | apply Qpower2_pos ].
  rewrite <- (Zlt_Qlt 0). lia.
Qed.

Lemma Qnum_Qred_pos (x : Q) : (0 < x)%Q -> exists p, Qnum (Qred x) = Z.pos p.
Proof.
  intros H. rewrite <- (Qred_correct x) in H.
  unfold Qlt in H. simpl in H. destruct (Qnum (Qred x)) as [ | p | p ]; try lia.
  exists p. reflexivity.
Qed.

Lemma Qnum_Qred_neg (x : Q) : (x < 0)%Q -> exists p, Qnum (Qred x) = Z.neg p.
Proof.
  intros H. rewrite <- (Qred_correct x) in H.
  unfold Qlt in H. simpl in H. destruct (Qnum (Qred x)) as [ | p | p ]; try lia.
  exists p. reflexivity.
Qed.

Lemma round64_pos (x : Q) : (0 < x)%Q -> (0 < round64 x)%Q.
Proof.
  intros H. unfold round64. destruct (Qnum_Qred_pos x H) as (p & E). rewrite E.
  rewrite Qred_correct. apply round_pos_positive. rewrite Qred_correct. exact H.
Qed.

Lemma round64_neg (x : Q) : (x < 0)%Q -> (round64 x < 0)%Q.
Proof.
  intros H. unfold round64. destruct (Qnum_Qred_neg x H) as (p & E). rewrite E.
  rewrite Qred_correct.
  assert (P : (0 < round_pos (- Qred x))%Q).
  { apply round_pos_positive. rewrite Qred_correct.
    apply (Qplus_lt_l _ _ x). ring_simplify. exact H. }
  apply (Qplus_lt_l _ _ (round_pos (- Qred x))). ring_simplify. exact P.
Qed.

Lemma round64_zero (x : Q) : (x == 0)%Q -> round64 x = 0%Q.
Proof.
  intros H. unfold round64. rewrite (Qred_complete x 0 H). reflexivity.
Qed.

(** Rounding keeps the sign: no quantity is rounded to or across zero. *)
Lemma round64_compare (x : Q) : (round64 x ?= 0)%Q = (x ?= 0)%Q.
Proof.
  destruct (x ?= 0)%Q eqn:C.
  - apply Qeq_alt in C. rewrite (round64_zero x C). reflexivity.
  - apply Qlt_alt in C. apply Qlt_alt. apply round64_neg. exact C.
  - apply Qgt_alt in C. apply Qgt_alt. apply round64_pos. exact C.
Qed.

Lemma round64_0_Qltb (x : Q) : Qltb 0 (round64 x) = Qltb 0 x.
Proof.
  unfold Qltb. rewrite <- !(Qcompare_antisym _ 0), round64_compare. reflexivity.
Qed.

Lemma round64_0_Qleb (x : Q) : Qleb 0 (round64 x) = Qleb 0 x.
Proof.
  unfold Qleb. rewrite <- !(Qcompare_antisym _ 0), round64_compare. reflexivity.
Qed.

(** An integer of at most 53 bits is not changed by rounding. *)
Lemma round_pos_Z (k : Z) :
  0 < k < 2 ^ 53 -> (round_pos (inject_Z k) == inject_Z k)%Q.
Proof.
  intros [Pos Small].
  pose proof (Z.log2_spec k Pos) as [Lo Hi].
  pose proof (Z.log2_nonneg k) as A.
  assert (A53 : Z.log2 k < 53) by (apply Z.log2_lt_pow2; lia).
  assert (B : binade (inject_Z k) = Z.log2 k).
  { unfold binade. cbn [Qnum Qden inject_Z]. change (Z.log2 1) with 0.
    rewrite Z.sub_0_r.
    assert (T : Qle_bool (2 ^ Z.log2 k) (inject_Z k) = true).
    { apply Qle_bool_iff. change 2%Q with (inject_Z 2).
      rewrite <- Zpower_Qpower by lia. rewrite <- Zle_Qle. exact Lo. }
    rewrite T. reflexivity. }
  unfold round_pos. rewrite B.
  set (a := Z.log2 k) in *.
  assert (E : (inject_Z k / 2 ^ (a - 52) == inject_Z (k * 2 ^ (52 - a)))%Q).
  { replace (a - 52) with (- (52 - a)) by lia. rewrite Qpower_opp.
    unfold Qdiv. rewrite Qinv_involutive.
    rewrite inject_Z_mult. change 2%Q with (inject_Z 2).
    rewrite <- Zpower_Qpower by lia. reflexivity. }
  rewrite (nearest_even_comp _ _ E), nearest_even_Z.
  rewrite inject_Z_mult. change (inject_Z 2) with 2%Q.
  rewrite (Zpower_Qpower 2 (52 - a)) by lia. change (inject_Z 2) with 2%Q.
  rewrite <- Qmult_assoc, <- Qpower_plus by discriminate.
  replace (52 - a + (a - 52)) with 0 by lia.
  change (2 ^ 0)%Q with 1%Q. ring.
Qed.

Lemma round64_Z (k : Z) : Z.abs k < 2 ^ 53 -> round64 (inject_Z k) = inject_Z k.
Proof.
  intros H. unfold round64. rewrite Qred_inject_Z.
  destruct k as [ | p | p ]; cbn [Qnum inject_Z].
  - reflexivity.
  - apply Qred_eq_inject_Z. apply round_pos_Z. lia.
  - apply Qred_eq_inject_Z.
    change (- (Z.neg p # 1))%Q with (inject_Z (Z.pos p)).
    pose proof (round_pos_Z (Z.pos p) ltac:(lia)) as R.
    rewrite R. reflexivity.
Qed.

Lemma round64_eq_Z (x : Q) (k : Z) :
  (x == inject_Z k)%Q -> Z.abs k < 2 ^ 53 -> round64 x = inject_Z k.
Proof. intros E H. rewrite (round64_comp _ _ E). apply round64_Z. exact H. Qed.

(** ** Arithmetic of [number] on integers

    Sums, differences and products of integers are exact as long as the
    result has at most 53 bits. *)

Lemma sub_ofZ (a b : Z) :
  Z.abs (a - b) < 2 ^ 53 -> (ofZ a - ofZ b)%js = ofZ (a - b).
Proof.
  intros H. unfold ofZ, sub. f_equal. apply round64_eq_Z; [ | exact H ].
  unfold Qminus. rewrite <- inject_Z_opp, <- inject_Z_plus. reflexivity.
Qed.

Lemma add_ofZ (a b : Z) :
  Z.abs (a + b) < 2 ^ 53 -> (ofZ a + ofZ b)%js = ofZ (a + b).
Proof.
  intros H. unfold ofZ, add. f_equal. apply round64_eq_Z; [ | exact H ].
  rewrite <- inject_Z_plus. reflexivity.
Qed.

Lemma mul_ofZ (a b : Z) :
  Z.abs (a * b) < 2 ^ 53 -> (ofZ a * ofZ b)%js = ofZ (a * b).
Proof.
  intros H. unfold ofZ, mul. f_equal. apply round64_eq_Z; [ | exact H ].
  rewrite <- inject_Z_mult. reflexivity.
Qed.

Lemma ofZ_inj (a b : Z) : ofZ a = ofZ b -> a = b.
Proof. intros H. injection H as H. exact H. Qed.

(** Whatever the size of its operands, a difference compares with zero
    as the first operand compares with the second. *)
Lemma Qminus_compare (x y : Q) : (x - y ?= 0)%Q = (x ?= y)%Q.
Proof.
  unfold Qcompare, Qminus, Qplus, Qopp. cbn [Qnum Qden].
  rewrite Z.mul_0_l, Z.mul_1_r.
  rewrite (Z.compare_sub (Qnum x * QDen y)).
  f_equal. ring.
Qed.

Lemma sub_compare (x y : Q) : (round64 (x - y) ?= 0)%Q = (x ?= y)%Q.
Proof. rewrite round64_compare. apply Qminus_compare. Qed.

Lemma sub_eq_0 (x y : Q) : (Fin x - Fin y === 0)%js = (Fin x === Fin y)%js.
Proof.
  unfold sub, strict_eq, ofZ, Qeqb. change (inject_Z 0) with 0%Q.
  rewrite sub_compare. reflexivity.
Qed.

Lemma sub_lt_0 (x y : Q) : (Fin x - Fin y <? 0)%js = (Fin x <? Fin y)%js.
Proof.
  unfold sub, lt, ofZ, Qltb. change (inject_Z 0) with 0%Q.
  rewrite sub_compare. reflexivity.
Qed.

Lemma strict_eq_ofZ (a b : Z) : (ofZ a === ofZ b)%js = (a =? b).
Proof.
  unfold ofZ, strict_eq. destruct (Z.eqb_spec a b) as [E | N].
  - subst. apply Qeqb_eq. reflexivity.
  - destruct (Qeqb (inject_Z a) (inject_Z b)) eqn:Q; [ | reflexivity ].
    apply Qeqb_eq in Q. rewrite inject_Z_injective in Q. contradiction.
Qed.

Lemma le_ofZ (a b : Z) : (ofZ a <=? ofZ b)%js = (a <=? b).
Proof.
  unfold ofZ, le. destruct (Z.leb_spec a b) as [L | L].
  - apply Qleb_le. rewrite <- Zle_Qle. exact L.
  - destruct (Qleb (inject_Z a) (inject_Z b)) eqn:Q; [ | reflexivity ].
    apply Qleb_le in Q. rewrite <- Zle_Qle in Q. lia.
Qed.

Lemma lt_ofZ (a b : Z) : (ofZ a <? ofZ b)%js = (a <? b).
Proof.
  unfold ofZ, lt. rewrite Qltb_Qleb.
  change (Qleb (inject_Z b) (inject_Z a)) with (ofZ b <=? ofZ a)%js.
  rewrite le_ofZ. rewrite Z.ltb_antisym. reflexivity.
Qed.

(** [Math.round x <= 0] exactly when [x < 1/2]. *)
Lemma Math_round_le_0 (x : Q) :
  (Math_round (Fin x) <=? 0)%js = (Fin x <? half)%js.
Proof.
  unfold Math_round, half. rewrite le_ofZ. unfold lt.
  pose proof (Qfloor_le (x + (1 # 2))) as L.
  pose proof (Qlt_floor (x + (1 # 2))) as U.
  destruct (Z.leb_spec (Qfloor (x + (1 # 2))) 0) as [H | H].
  - symmetry. apply Qltb_lt.
    assert (U' : (x + (1 # 2) < 1)%Q).
    { eapply Qlt_le_trans; [ exact U | ].
      change 1%Q with (inject_Z 1). rewrite <- Zle_Qle. lia. }
    apply (Qplus_lt_l _ _ (1 # 2)). eapply Qlt_le_trans; [ exact U' | ].
    unfold Qle; simpl; lia.
  - symmetry. destruct (Qltb x (1 # 2)) eqn:Q; [ | reflexivity ].
    apply Qltb_lt in Q.
    assert (L' : (1 <= x + (1 # 2))%Q).
    { eapply Qle_trans; [ | exact L ].
      change 1%Q with (inject_Z 1). rewrite <- Zle_Qle. lia. }
    apply (Qplus_lt_l _ _ (1 # 2)) in Q.
    pose proof (Qle_lt_trans _ _ _ L' Q) as C.
    unfold Qlt in C; simpl in C; lia.
Qed.

(** ** [buildProjectionSegment] reads the last two measurements *)

Lemma slice_last_app {A : Type} (older recent : list A) :
  slice_last (List.length recent) (older ++ recent) = recent.
Proof.
  unfold slice_last. rewrite length_app.
  replace (List.length older + List.length recent - List.length recent)%nat
    with (List.length older + 0)%nat by lia.
  rewrite skipn_app, Nat.add_0_r, skipn_all.
  replace (List.length older - List.length older)%nat with 0%nat by lia.
  reflexivity.
Qed.

(** A list of at least two elements ends with its [slice(-2)]. *)
Lemma slice_last_two_split {A : Type} (l : list A) :
  (2 <= List.length l)%nat ->
  exists older p c, l = older ++ [p; c] /\ slice_last 2 l = [p; c].
Proof.
  intros H. unfold slice_last.
  pose proof (firstn_skipn (List.length l - 2) l) as E.
  pose proof (length_skipn (List.length l - 2) l) as L.
  destruct (skipn (List.length l - 2) l) as [ | p [ | c [ | x rest ] ] ] eqn:S;
    simpl in L; try lia.
  exists (firstn (List.length l - 2) l), p, c. split; [ symmetry; exact E | reflexivity ].
Qed.

Lemma buildProjectionSegment_pair (p c : MeasuredPoint) :
  buildProjectionSegment [p; c] =
  if (minutes c - minutes p === 0)%js then []
  else if (rate p c >=? 0)%js then []
  else if (Math_round (minutesToTarget p c) <=? 0)%js then []
  else [ projectedAt (minutes c) (co2 c);
         projectedAt (minutes c + Math_round (minutesToTarget p c))%js 550 ].
Proof. reflexivity. Qed.

Lemma buildProjectionSegment_slice (l : list MeasuredPoint) :
  buildProjectionSegment l = buildProjectionSegment (slice_last 2 l).
Proof.
  destruct (Nat.ltb_spec (List.length l) 2) as [Short | Long].
  - unfold buildProjectionSegment at 1.
    destruct (Nat.ltb_spec (List.length l) 2) as [ _ | Long ]; [ | lia ].
    unfold slice_last. replace (List.length l - 2)%nat with 0%nat by lia.
    simpl. unfold buildProjectionSegment.
    destruct (Nat.ltb_spec (List.length l) 2) as [ _ | Long ]; [ reflexivity | lia ].
  - destruct (slice_last_two_split l Long) as (older & p & c & E & S).
    rewrite S. unfold buildProjectionSegment at 1.
    destruct (Nat.ltb_spec (List.length l) 2) as [ Short | _ ]; [ lia | ].
    rewrite S. reflexivity.
Qed.

Lemma buildProjectionSegment_app (older : list MeasuredPoint) (p c : MeasuredPoint) :
  buildProjectionSegment (older ++ [p; c]) = buildProjectionSegment [p; c].
Proof.
  rewrite buildProjectionSegment_slice.
  pose proof (slice_last_app older [p; c]) as E.
  change (List.length [p; c]) with 2%nat in E. rewrite E. reflexivity.
Qed.

(** At different minutes the rate is a finite number. *)
Lemma rate_Fin (p c : MeasuredPoint) (mp cp mc cc : Q) :
  minutes p = Fin mp -> co2 p = Fin cp -> minutes c = Fin mc -> co2 c = Fin cc ->
  (minutes c === minutes p)%js = false ->
  rate p c = Fin (round64 (round64 (cc - cp) / round64 (mc - mp))).
Proof.
  intros Hmp Hcp Hmc Hcc Diff. unfold rate.
  rewrite Hmp, Hmc in Diff. rewrite <- sub_eq_0 in Diff.
  rewrite Hmp, Hcp, Hmc, Hcc. unfold sub in *. unfold div.
  unfold strict_eq, ofZ in Diff. change (inject_Z 0) with 0%Q in Diff.
  rewrite Diff. reflexivity.
Qed.

(** Dividing by a negative rate gives a finite number. *)
Lemma minutesToTarget_Fin (p c : MeasuredPoint) (cc r : Q) :
  co2 c = Fin cc -> rate p c = Fin r -> (r < 0)%Q ->
  minutesToTarget p c = Fin (round64 (round64 (550 - cc) / r)).
Proof.
  intros Hcc Er Hr. unfold minutesToTarget. rewrite Er, Hcc.
  unfold sub, div, ofZ. change (inject_Z 550) with 550%Q.
  destruct (Qeqb r 0) eqn:Z0; [ | reflexivity ].
  apply Qeqb_eq in Z0. rewrite Z0 in Hr. exfalso. exact (Qlt_irrefl _ Hr).
Qed.

Section IntegerReadings.

Variables p c : MeasuredPoint.
Hypothesis Ip : integral p.
Hypothesis Ic : integral c.

Lemma minutes_diff_zero :
  (minutes c - minutes p === 0)%js = (minutes c === minutes p)%js.
Proof.
  pose proof Ip as (mp & cp & Hmp & Hcp). pose proof Ic as (mc & cc & Hmc & Hcc).
  rewrite Hmp, Hmc. apply sub_eq_0.
Qed.

Lemma rate_finite :
  (minutes c === minutes p)%js = false ->
  exists r, rate p c = Fin r.
Proof.
  pose proof Ip as (mp & cp & Hmp & Hcp). pose proof Ic as (mc & cc & Hmc & Hcc).
  intros Diff. eexists. exact (rate_Fin p c _ _ _ _ Hmp Hcp Hmc Hcc Diff).
Qed.

(** At different minutes, a rate that compares below zero is a finite
    negative rational, and so is the time to the target. *)
Lemma rate_negative_finite :
  (minutes c === minutes p)%js = false ->
  (rate p c <? 0)%js = true ->
  exists r x, rate p c = Fin r /\ (r < 0)%Q /\ minutesToTarget p c = Fin x.
Proof.
  intros Diff Neg. destruct (rate_finite Diff) as (r & Er).
  pose proof Ic as (mc & cc & Hmc & Hcc).
  assert (Hr : (r < 0)%Q) by (rewrite Er in Neg; apply Qltb_lt; exact Neg).
  exists r. eexists. split; [ exact Er | ]. split; [ exact Hr | ].
  exact (minutesToTarget_Fin p c _ r Hcc Er Hr).
Qed.

End IntegerReadings.

Lemma ge_0_Fin (r : Q) : (Fin r >=? 0)%js = negb (Fin r <? 0)%js.
Proof.
  unfold ge, le, lt, ofZ. rewrite Qltb_Qleb, negb_involutive. reflexivity.
Qed.

Lemma lt_half_Fin (x : Q) : (Fin x <? half)%js = negb (half <=? Fin x)%js.
Proof. unfold le, lt, half. apply Qltb_Qleb. Qed.

(** [Math.round] of at least a half is a positive integer. *)
Lemma Math_round_positive (x : Q) :
  (half <=? Fin x)%js = true ->
  exists k : Z, 1 <= k /\ Math_round (Fin x) = ofZ k.
Proof.
  intros H. exists (Qfloor (x + (1 # 2))). split; [ | reflexivity ].
  unfold le, half in H. apply Qleb_le in H.
  assert (One : (1 <= x + (1 # 2))%Q).
  { setoid_replace 1%Q with ((1 # 2) + (1 # 2))%Q by reflexivity.
    apply Qplus_le_l. exact H. }
  apply Qfloor_resp_le in One. exact One.
Qed.

(** ** The projected segment *)

(** C1 (as amended): on integer readings taken at different minutes,
    whose rate (the binary64 quotient the code computes) is negative and
    whose time to the target (the binary64 quotient again) is at least
    half a minute, so that [Math.round] makes a positive whole number
    [k] of it, [buildProjectionSegment] returns exactly two points: the
    latest reading, and 550 ppm at [latest.minutes + k]. *)
Theorem buildProjection_two_points :
  forall (older : list MeasuredPoint) (previous latest : MeasuredPoint),
    integral previous -> integral latest ->
    (minutes latest === minutes previous)%js = false ->
    (rate previous latest <? 0)%js = true ->
    (half <=? minutesToTarget previous latest)%js = true ->
    exists k : Z,
      1 <= k /\
      Math_round (minutesToTarget previous latest) = ofZ k /\
      buildProjectionSegment (older ++ [previous; latest]) =
        [ projectedAt (minutes latest) (co2 latest);
          projectedAt (minutes latest + ofZ k)%js 550 ].
Proof.
  intros older p c Ip Ic Diff Neg Half.
  rewrite buildProjectionSegment_app, buildProjectionSegment_pair.
  rewrite (minutes_diff_zero p c Ip Ic), Diff.
  destruct (rate_negative_finite p c Ip Ic Diff Neg) as (r & x & Er & Hr & Ex).
  rewrite Er in Neg |- *. rewrite ge_0_Fin, Neg. cbn [negb].
  rewrite Ex in Half |- *. rewrite Math_round_le_0, lt_half_Fin, Half. cbn [negb].
  destruct (Math_round_positive x Half) as (k & Hk & Ek).
  exists k. rewrite Ek. repeat split. exact Hk.
Qed.

Lemma buildProjection_two_points_witness :
  exists k : Z,
    1 <= k /\
    Math_round (minutesToTarget (reading "12:00" 0 599) (reading "12:03" 3 585)) = ofZ k /\
    buildProjectionSegment ([] ++ [reading "12:00" 0 599; reading "12:03" 3 585]) =
      [ projectedAt (ofZ 3) (ofZ 585); projectedAt (ofZ 3 + ofZ k)%js 550 ].
Proof.
  apply (buildProjection_two_points []
           (reading "12:00" 0 599) (reading "12:03" 3 585)).
  - exists 0, 599. split; reflexivity.
  - exists 3, 585. split; reflexivity.
  - reflexivity.
  - vm_compute. reflexivity.
  - vm_compute. reflexivity.
Defined.

(** C1 as stated fails: from 555 ppm to 551 ppm in one minute the rate is
    -4 ppm/min and the target is a quarter of a minute away, which is
    positive, yet no point is produced.  And where a segment is
    produced, its end is [latest.minutes + round(minutesToTarget)], which
    is not always [round(latest.minutes + minutesToTarget)]: from 599 ppm
    to 585 ppm in three minutes the time to the target is the binary64
    number just below 7.5, the segment ends at minute 10, and
    [round(3 + minutesToTarget)] is 11. *)
Lemma buildProjection_two_points_counterexample :
  (let previous := reading "10:00" 0 555 in
   let latest := reading "10:01" 1 551 in
   (minutes latest === minutes previous)%js = false /\
   rate previous latest = (-4) /\
   minutesToTarget previous latest = Fin (1 # 4) /\
   (0 <? minutesToTarget previous latest)%js = true /\
   buildProjectionSegment [previous; latest] = [] /\
   buildProjectionSegment [previous; latest] <>
     [ projectedAt (minutes latest) (co2 latest);
       projectedAt
         (Math_round (minutes latest + minutesToTarget previous latest)%js) 550 ]) /\
  (let previous := reading "12:00" 0 599 in
   let latest := reading "12:03" 3 585 in
   (rate previous latest <? 0)%js = true /\
   (0 <? minutesToTarget previous latest)%js = true /\
   (minutesToTarget previous latest <? Fin (15 # 2))%js = true /\
   buildProjectionSegment [previous; latest] =
     [ projectedAt 3 585; projectedAt 10 550 ] /\
   Math_round (minutes latest + minutesToTarget previous latest)%js = 11 /\
   buildProjectionSegment [previous; latest] <>
     [ projectedAt (minutes latest) (co2 latest);
       projectedAt
         (Math_round (minutes latest + minutesToTarget previous latest)%js) 550 ]).
Proof.
  cbv zeta. repeat split; try (vm_compute; reflexivity); vm_compute; discriminate.
Qed.

(** C2 (as amended): for the readings (0 min, 1000 ppm) and (10 min,
    800 ppm) the rate is -20 ppm/min, the target is 12.5 minutes away,
    the end minute is round(22.5) = 23, and the projection is
    (10, 800), (23, 550). *)
Theorem buildProjection_example :
  let previous := reading "12:00" 0 1000 in
  let latest := reading "12:10" 10 800 in
  rate previous latest = (-20) /\
  minutesToTarget previous latest = Fin (25 # 2) /\
  (minutes latest + minutesToTarget previous latest)%js = Fin (45 # 2) /\
  Math_round (minutes latest + minutesToTarget previous latest)%js = 23 /\
  buildProjectionSegment [previous; latest] =
    [ projectedAt 10 800; projectedAt 23 550 ].
Proof. cbv zeta. repeat split; reflexivity. Qed.

(** C2 as stated fails: the time to the target is not 22.5 minutes and
    the projection does not end at minute 33. *)
Lemma buildProjection_example_counterexample :
  let previous := reading "12:00" 0 1000 in
  let latest := reading "12:10" 10 800 in
  minutesToTarget previous latest <> Fin (45 # 2) /\
  Math_round (minutes latest + minutesToTarget previous latest)%js <> 33 /\
  buildProjectionSegment [previous; latest] <>
    [ projectedAt 10 800; projectedAt 33 550 ].
Proof. cbv zeta. repeat split; vm_compute; discriminate. Qed.

(** C3 (as amended): on integer readings, [buildProjectionSegment]
    returns the empty sequence exactly when the two readings share their
    minute, or the rate is not negative, or the time to the target is
    below half a minute (it rounds to zero or less). *)
Theorem buildProjection_empty_iff :
  forall (older : list MeasuredPoint) (previous latest : MeasuredPoint),
    integral previous -> integral latest ->
    (buildProjectionSegment (older ++ [previous; latest]) = [] <->
     (minutes latest === minutes previous)%js = true \/
     (rate previous latest >=? 0)%js = true \/
     (minutesToTarget previous latest <? half)%js = true).
Proof.
  intros older p c Ip Ic.
  rewrite buildProjectionSegment_app, buildProjectionSegment_pair.
  rewrite (minutes_diff_zero p c Ip Ic).
  destruct (minutes c === minutes p)%js eqn:Diff.
  { split; auto. }
  destruct (rate_finite p c Ip Ic Diff) as (r & Er).
  destruct (rate p c >=? 0)%js eqn:Ge.
  { split; auto. }
  assert (Neg : (rate p c <? 0)%js = true).
  { rewrite Er in Ge |- *. rewrite ge_0_Fin in Ge.
    destruct (Fin r <? 0)%js; [ reflexivity | discriminate ]. }
  destruct (rate_negative_finite p c Ip Ic Diff Neg) as (r' & x & _ & _ & Ex).
  rewrite Ex, Math_round_le_0.
  destruct (Fin x <? half)%js.
  - split; auto.
  - split; [ discriminate | ].
    intros [ H | [ H | H ] ]; discriminate.
Qed.

Lemma buildProjection_empty_iff_witness :
  buildProjectionSegment ([] ++ [reading "09:00" 0 900; reading "09:10" 10 950]) = [].
Proof.
  apply (buildProjection_empty_iff []
           (reading "09:00" 0 900) (reading "09:10" 10 950)).
  - exists 0, 900. split; reflexivity.
  - exists 10, 950. split; reflexivity.
  - right. left. reflexivity.
Defined.

(** C3 as stated fails in the "only if" direction: from 560 ppm to
    552 ppm in one minute the result is empty although the minutes
    differ, the rate is negative and the time to the target is positive. *)
Lemma buildProjection_empty_iff_counterexample :
  let previous := reading "10:00" 0 560 in
  let latest := reading "10:01" 1 552 in
  buildProjectionSegment [previous; latest] = [] /\
  ~ ((minutes latest === minutes previous)%js = true \/
     (rate previous latest >=? 0)%js = true \/
     (minutesToTarget previous latest <=? 0)%js = true).
Proof.
  cbv zeta. split; [ reflexivity | ].
  intros [ H | [ H | H ] ]; vm_compute in H; discriminate.
Qed.

(** ** Status classification *)

(** C7: [getCO2Status] is a total function of the concentration with
    thresholds inclusive on the lower side: at most 550 is Ideal, above
    550 up to 800 is Good, above 800 up to 1000 is Concerning, above 1000
    is Poor; in particular at 550, 551, 1000 and 1001. *)
Theorem getCO2Status_thresholds :
  forall c : number,
    ((c <=? 550)%js = true -> text (getCO2Status c) = "Ideal") /\
    ((550 <? c)%js = true -> (c <=? 800)%js = true ->
       text (getCO2Status c) = "Good") /\
    ((800 <? c)%js = true -> (c <=? 1000)%js = true ->
       text (getCO2Status c) = "Concerning") /\
    ((c >? 1000)%js = true -> text (getCO2Status c) = "Poor") /\
    text (getCO2Status 550) = "Ideal" /\
    text (getCO2Status 551) = "Good" /\
    text (getCO2Status 1000) = "Concerning" /\
    text (getCO2Status 1001) = "Poor".
Proof.
  intros c.
  assert (Below : forall a b : Z, b <= a -> (a <? c)%js = true -> (c <=? b)%js = false).
  { intros a b Hab Lt. destruct c as [ q | | | ]; try reflexivity; try discriminate.
    unfold lt, le, ofZ in *. apply Qltb_lt in Lt.
    destruct (Qleb q (inject_Z b)) eqn:Le; [ | reflexivity ].
    apply Qleb_le in Le. exfalso.
    assert (C : (inject_Z a < inject_Z b)%Q) by (eapply Qlt_le_trans; eassumption).
    rewrite <- Zlt_Qlt in C. lia. }
  repeat split; try reflexivity.
  - intros H. unfold getCO2Status. rewrite H. reflexivity.
  - intros L U. unfold getCO2Status.
    rewrite (Below 550 550), U by (lia || assumption). reflexivity.
  - intros L U. unfold getCO2Status.
    rewrite (Below 800 550), (Below 800 800), U by (lia || assumption). reflexivity.
  - intros L. unfold gt in L. unfold getCO2Status.
    rewrite (Below 1000 550), (Below 1000 800), (Below 1000 1000)
      by (lia || assumption).
    reflexivity.
Qed.

Lemma getCO2Status_thresholds_witness :
  text (getCO2Status 700) = "Good" /\ text (getCO2Status 2000) = "Poor".
Proof.
  pose proof (getCO2Status_thresholds 700) as (_ & Good & _).
  pose proof (getCO2Status_thresholds 2000) as (_ & _ & _ & Poor & _).
  split; [ apply Good | apply Poor ]; reflexivity.
Defined.

(** ** Time to the target *)

Lemma latestMeasured_app (older : list MeasuredPoint) (c : MeasuredPoint) :
  latestMeasured (older ++ [c]) = Some c.
Proof.
  unfold latestMeasured. rewrite length_app. cbn [List.length].
  destruct (Nat.ltb_spec 0 (List.length older + 1)) as [ _ | H ]; [ | lia ].
  rewrite nth_error_app2 by lia.
  replace (List.length older + 1 - 1 - List.length older)%nat with 0%nat by lia.
  reflexivity.
Qed.

Lemma timeToIdeal_currentRate_short (ms : list MeasuredPoint) :
  (List.length ms < 2)%nat -> timeToIdeal_currentRate ms = (None, None).
Proof.
  intros H. unfold timeToIdeal_currentRate.
  destruct (latestMeasured ms); [ | reflexivity ].
  destruct (Nat.leb_spec 2 (List.length ms)); [ lia | reflexivity ].
Qed.

Lemma timeToIdeal_currentRate_app (older : list MeasuredPoint) (p c : MeasuredPoint) :
  timeToIdeal_currentRate (older ++ [p; c]) =
  if (co2 c >? 550)%js then
    if (rate p c <? 0)%js
    then (Some (Math_round (minutesToTarget p c)), Some (- rate p c * 60)%js)
    else (None, None)
  else (None, None).
Proof.
  unfold timeToIdeal_currentRate.
  change (older ++ [p; c]) with (older ++ [p] ++ [c]).
  rewrite app_assoc, latestMeasured_app, <- app_assoc.
  rewrite length_app. cbn [List.length app].
  destruct (Nat.leb_spec 2 (List.length older + 2)) as [ _ | H ]; [ | lia ].
  rewrite nth_error_app2 by lia.
  replace (List.length older + 2 - 2 - List.length older)%nat with 0%nat by lia.
  reflexivity.
Qed.

Lemma Qcompare_inject_Z (a b : Z) : (inject_Z a ?= inject_Z b)%Q = (a ?= b).
Proof. unfold Qcompare. cbn [Qnum Qden inject_Z]. rewrite !Z.mul_1_r. reflexivity. Qed.

(** The sign of a difference of integers, whatever their size. *)
Lemma sub_Z_eq_0 (a b : Z) :
  Qeqb (round64 (inject_Z a - inject_Z b)) 0 = (a =? b).
Proof.
  unfold Qeqb. rewrite sub_compare, Qcompare_inject_Z.
  destruct (Z.compare_spec a b), (Z.eqb_spec a b); lia || reflexivity.
Qed.

Lemma sub_Z_gt_0 (a b : Z) :
  Qltb 0 (round64 (inject_Z a - inject_Z b)) = (b <? a).
Proof.
  unfold Qltb. rewrite <- Qcompare_antisym, sub_compare, Qcompare_inject_Z.
  destruct (Z.compare_spec a b), (Z.ltb_spec b a); lia || reflexivity.
Qed.

(** The rate of two integer readings, by cases. *)
Lemma rate_integral (p c : MeasuredPoint) (mp cp mc cc : Z) :
  minutes p = mp -> co2 p = cp -> minutes c = mc -> co2 c = cc ->
  rate p c =
  if mc =? mp then
    if cc =? cp then NaN else if cp <? cc then PosInf else NegInf
  else Fin (round64 (round64 (inject_Z cc - inject_Z cp)
                     / round64 (inject_Z mc - inject_Z mp))).
Proof.
  intros Hmp Hcp Hmc Hcc.
  unfold rate. rewrite Hmp, Hcp, Hmc, Hcc.
  unfold sub, div, ofZ.
  rewrite !sub_Z_eq_0, sub_Z_gt_0. reflexivity.
Qed.

Lemma minutesToTarget_integral (p c : MeasuredPoint) (cc : Z) (r : Q) :
  co2 c = cc -> rate p c = Fin r -> (r < 0)%Q ->
  minutesToTarget p c = Fin (round64 (round64 (550 - inject_Z cc) / r)).
Proof. intros Hcc. apply minutesToTarget_Fin. exact Hcc. Qed.

(** Dividing a non-negative quantity by a negative rate is not positive. *)
Lemma Qdiv_nonneg_neg (a r : Q) : (0 <= a)%Q -> (r < 0)%Q -> (a / r <= 0)%Q.
Proof.
  intros Ha Hr. destruct a as [an ad], r as [[ | rn | rn ] rd];
    unfold Qle, Qlt, Qdiv, Qinv, Qmult in *; simpl in *; try lia.
Qed.

(** The time to the target at a negative rate is positive only from
    above the target. *)
Lemma minutesToTarget_positive (cc : Z) (r : Q) :
  (r < 0)%Q ->
  (0 < round64 (round64 (550 - inject_Z cc) / r))%Q ->
  550 < cc.
Proof.
  intros Hr Pos.
  destruct (Z.ltb_spec 550 cc) as [ | Le ]; [ assumption | exfalso ].
  assert (A : (0 <= round64 (550 - inject_Z cc))%Q).
  { apply Qleb_le. rewrite round64_0_Qleb. apply Qleb_le.
    change 550%Q with (inject_Z 550). unfold Qminus.
    rewrite <- inject_Z_opp, <- inject_Z_plus.
    change 0%Q with (inject_Z 0). rewrite <- Zle_Qle. lia. }
  pose proof (Qdiv_nonneg_neg _ _ A Hr) as B.
  apply Qltb_lt in Pos. rewrite round64_0_Qltb in Pos. apply Qltb_lt in Pos.
  exact (Qlt_irrefl _ (Qlt_le_trans _ _ _ Pos B)).
Qed.

(** A projection is only ever drawn from above the target. *)
Lemma projection_above_target (p c : MeasuredPoint) (cc : Z) (r : Q) :
  co2 c = cc -> rate p c = Fin r -> (r < 0)%Q ->
  (Math_round (minutesToTarget p c) <=? 0)%js = false ->
  (co2 c >? 550)%js = true.
Proof.
  intros Hcc Er Hr Pos.
  rewrite (minutesToTarget_integral p c cc r Hcc Er Hr), Math_round_le_0 in Pos.
  rewrite Hcc. unfold gt. rewrite lt_ofZ. apply Z.ltb_lt.
  apply (minutesToTarget_positive cc r Hr).
  unfold lt, half in Pos. rewrite Qltb_Qleb in Pos.
  apply negb_false_iff, Qleb_le in Pos.
  eapply Qlt_le_trans; [ | exact Pos ]. reflexivity.
Qed.

(** A comparison [a > b] that fails has [a <= b], unless [a] is NaN. *)
Lemma gt_false (a : number) (b : Z) :
  (a >? b)%js = false -> a = NaN \/ (a <=? b)%js = true.
Proof.
  destruct a as [ x | | | ]; unfold gt, lt, le, ofZ; intros H.
  - right. rewrite Qltb_Qleb in H. apply negb_false_iff in H. exact H.
  - discriminate.
  - right. reflexivity.
  - left. reflexivity.
Qed.

Lemma gt_true (a : number) (b : Z) :
  (a >? b)%js = true -> (a <=? b)%js = false.
Proof.
  destruct a as [ x | | | ]; unfold gt, lt, le, ofZ; intros H;
    try discriminate; try reflexivity.
  rewrite Qltb_Qleb in H. apply negb_true_iff in H. exact H.
Qed.

(** A rate computed from a concentration that is NaN is NaN. *)
Lemma rate_NaN (p c : MeasuredPoint) : co2 c = NaN -> rate p c = NaN.
Proof.
  intros H. unfold rate. rewrite H. cbn [sub].
  destruct (minutes c - minutes p)%js; reflexivity.
Qed.

(** A number fails [a < 0] exactly when [a >= 0] holds or it is NaN. *)
Lemma not_lt_0 (a : number) :
  (a <? 0)%js = false <-> (a >=? 0)%js = true \/ a = NaN.
Proof.
  destruct a as [ x | | | ].
  - rewrite ge_0_Fin. destruct (Fin x <? 0)%js; cbn [negb]; split; auto.
    intros [ H | H ]; discriminate.
  - split; auto.
  - split; [ discriminate | ]. intros [ H | H ]; discriminate.
  - split; auto.
Qed.

(** C6: the time-to-target block yields [null] for fewer than two
    measurements; for two or more it yields [null] exactly when the
    latest concentration is at most 550 or the rate is not decreasing,
    that is, the test [slope < 0] fails: the rate is at least 0, or
    there is none (NaN, as for two equal readings in one minute);
    otherwise the minutes are [round((550 - latest.co2) / rate)] and the
    hourly rate is [-rate * 60], in the binary64 arithmetic of the code;
    and on integer readings, whenever a projection is drawn, it ends
    that many minutes after the latest reading. *)
Theorem timeToIdeal_null_iff :
  (forall ms : list MeasuredPoint,
     (List.length ms < 2)%nat -> timeToIdeal_currentRate ms = (None, None)) /\
  (forall (older : list MeasuredPoint) (previous latest : MeasuredPoint),
     let ms := older ++ [previous; latest] in
     (timeToIdeal_currentRate ms = (None, None) <->
        (co2 latest <=? 550)%js = true \/
        (rate previous latest <? 0)%js = false) /\
     ((rate previous latest <? 0)%js = false <->
        (rate previous latest >=? 0)%js = true \/ rate previous latest = NaN) /\
     (timeToIdeal_currentRate ms <> (None, None) ->
        timeToIdeal_currentRate ms =
          (Some (Math_round (minutesToTarget previous latest)),
           Some (- rate previous latest * 60)%js)) /\
     (integral previous -> integral latest ->
      forall a b : ProjectedPoint,
        buildProjectionSegment ms = [a; b] ->
        timeToIdeal ms = Some (Math_round (minutesToTarget previous latest)) /\
        minutes b =
          (minutes latest + Math_round (minutesToTarget previous latest))%js)).
Proof.
  split; [ exact timeToIdeal_currentRate_short | ].
  intros older p c ms. subst ms.
  unfold timeToIdeal. rewrite timeToIdeal_currentRate_app.
  split; [ | split; [ apply not_lt_0 | split ] ].
  - destruct (co2 c >? 550)%js eqn:Gt.
    + rewrite (gt_true _ _ Gt).
      destruct (rate p c <? 0)%js; split; auto; try discriminate.
      intros [ H | H ]; discriminate.
    + split; [ intros _ | reflexivity ].
      destruct (gt_false _ _ Gt) as [ N | Le ]; [ right | left; exact Le ].
      rewrite (rate_NaN p c N). reflexivity.
  - destruct (co2 c >? 550)%js; [ | congruence ].
    destruct (rate p c <? 0)%js; congruence.
  - intros Ip Ic a b.
    pose proof Ip as (mp & cp & Hmp & Hcp). pose proof Ic as (mc & cc & Hmc & Hcc).
    rewrite buildProjectionSegment_app, buildProjectionSegment_pair.
    rewrite (minutes_diff_zero p c Ip Ic).
    destruct (minutes c === minutes p)%js eqn:Diff; [ discriminate | ].
    destruct (rate_finite p c Ip Ic Diff) as (r & Er).
    rewrite Er in *. rewrite ge_0_Fin.
    destruct (Fin r <? 0)%js eqn:Neg; cbn [negb]; [ | discriminate ].
    destruct (Math_round (minutesToTarget p c) <=? 0)%js eqn:Pos; [ discriminate | ].
    intros E. injection E as _ Eb. subst b.
    assert (Hr : (r < 0)%Q) by (apply Qltb_lt; exact Neg).
    rewrite (projection_above_target p c cc r Hcc Er Hr Pos).
    split; reflexivity.
Qed.

Lemma timeToIdeal_null_iff_witness :
  timeToIdeal_currentRate
    ([] ++ [reading "12:00" 0 599; reading "12:03" 3 585]) =
    (Some (ofZ 7), Some (Fin (280 # 1))) /\
  timeToIdeal ([] ++ [reading "12:00" 0 599; reading "12:03" 3 585]) = Some (ofZ 7).
Proof.
  pose proof (proj2 timeToIdeal_null_iff []
                (reading "12:00" 0 599) (reading "12:03" 3 585)) as T.
  cbv zeta in T.
  destruct T as (_ & _ & Val & Agree).
  split.
  - rewrite Val; [ vm_compute; reflexivity | vm_compute; discriminate ].
  - rewrite (proj1 (Agree
               (ex_intro _ 0 (ex_intro _ 599 (conj eq_refl eq_refl)))
               (ex_intro _ 3 (ex_intro _ 585 (conj eq_refl eq_refl)))
               (projectedAt 3 585) (projectedAt 10 550) ltac:(vm_compute; reflexivity))).
    vm_compute. reflexivity.
Defined.

(** ** Wall-clock strings *)

Lemma in_range_bounds (lo hi c : ascii) :
  in_range lo hi c = true <-> code lo <= code c <= code hi.
Proof. unfold in_range. rewrite andb_true_iff, !Z.leb_le. reflexivity. Qed.

Lemma code_inj (a b : ascii) : code a = code b -> a = b.
Proof.
  unfold code. intros E. apply N2Z.inj in E.
  rewrite <- (ascii_N_embedding a), <- (ascii_N_embedding b), E. reflexivity.
Qed.

Lemma eqb_code (a b : ascii) : code a <> code b -> Ascii.eqb a b = false.
Proof.
  intros N. apply Ascii.eqb_neq. intros E. apply N. rewrite E. reflexivity.
Qed.

Lemma rmatch_Cls (lo hi : ascii) (s : string) (k : string -> bool) :
  rmatch (Cls lo hi) s k = true ->
  exists a s', s = String a s' /\ code lo <= code a <= code hi /\ k s' = true.
Proof.
  destruct s as [ | a s' ]; cbn [rmatch]; [ discriminate | ].
  destruct (in_range lo hi a) eqn:R; [ | discriminate ].
  apply in_range_bounds in R. intros K. exists a, s'. auto.
Qed.

Lemma rmatch_Chr (c : ascii) (s : string) (k : string -> bool) :
  rmatch (Chr c) s k = true ->
  exists s', s = String c s' /\ k s' = true.
Proof.
  destruct s as [ | a s' ]; cbn [rmatch]; [ discriminate | ].
  destruct (Ascii.eqb_spec a c) as [ E | ]; [ | discriminate ].
  subst. intros K. exists s'. auto.
Qed.

Lemma rmatch_Seq (r1 r2 : regex) (s : string) (k : string -> bool) :
  rmatch (Seq r1 r2) s k = rmatch r1 s (fun s' => rmatch r2 s' k).
Proof. reflexivity. Qed.

Lemma rmatch_Alt (r1 r2 : regex) (s : string) (k : string -> bool) :
  rmatch (Alt r1 r2) s k = true <-> rmatch r1 s k = true \/ rmatch r2 s k = true.
Proof. cbn [rmatch]. apply orb_true_iff. Qed.

Lemma rmatch_Opt (r : regex) (s : string) (k : string -> bool) :
  rmatch (Opt r) s k = true <-> rmatch r s k = true \/ k s = true.
Proof. cbn [rmatch]. apply orb_true_iff. Qed.

Lemma rmatch_end (s : string) :
  match s with EmptyString => true | _ => false end = true -> s = EmptyString.
Proof. destruct s; [ reflexivity | discriminate ]. Qed.

Ltac invert_match :=
  repeat match goal with
  | H : rmatch (Cls _ _) _ _ = true |- _ =>
      apply rmatch_Cls in H; destruct H as (? & ? & ? & ? & H); subst; cbv beta in H
  | H : rmatch (Chr _) _ _ = true |- _ =>
      apply rmatch_Chr in H; destruct H as (? & ? & H); subst; cbv beta in H
  | H : rmatch (Seq _ _) _ _ = true |- _ => rewrite rmatch_Seq in H
  | H : rmatch (Alt _ _) _ _ = true |- _ =>
      apply rmatch_Alt in H; destruct H as [ H | H ]
  | H : rmatch (Opt _) _ _ = true |- _ =>
      apply rmatch_Opt in H; destruct H as [ H | H ]
  | H : match ?s with EmptyString => true | String _ _ => false end = true |- _ =>
      apply rmatch_end in H; subst
  end.

Ltac codes :=
  change (code "0") with 48 in *; change (code "1") with 49 in *;
  change (code "2") with 50 in *; change (code "3") with 51 in *;
  change (code "5") with 53 in *; change (code "9") with 57 in *;
  change (code ":") with 58 in *.

Lemma timePattern_shape (s : string) :
  test timePattern s = true -> exists h m, TimeShape s h m.
Proof.
  unfold test, timePattern. intros H. invert_match.
  - eexists. eexists. apply shape_two; codes; lia.
  - eexists. eexists. apply shape_one; codes; lia.
  - eexists. eexists. apply shape_two; codes; lia.
Qed.

Lemma TimeShape_range (s : string) (h m : Z) :
  TimeShape s h m -> 0 <= h <= 23 /\ 0 <= m <= 59.
Proof. intros []; codes; lia. Qed.

Lemma TimeShape_accepted (s : string) (h m : Z) :
  TimeShape s h m -> test timePattern s = true.
Proof.
  intros [ h1 h2 m1 m2 H1 H2 H12 M1 M2 | h2 m1 m2 H2 M1 M2 ];
    unfold test, timePattern; cbn [rmatch].
  - assert (C : code h1 <= code "1" \/ h1 = "2"%char).
    { destruct (Z.eq_dec (code h1) (code "2")) as [ E | N ].
      - right. apply code_inj. exact E.
      - left. codes. lia. }
    destruct C as [ C | C ].
    + replace (in_range "0" "1" h1) with true
        by (symmetry; apply in_range_bounds; codes; lia).
      replace (in_range "0" "9" h2) with true
        by (symmetry; apply in_range_bounds; codes; lia).
      rewrite Ascii.eqb_refl.
      replace (in_range "0" "5" m1) with true
        by (symmetry; apply in_range_bounds; codes; lia).
      replace (in_range "0" "9" m2) with true
        by (symmetry; apply in_range_bounds; codes; lia).
      reflexivity.
    + subst h1. specialize (H12 eq_refl).
      replace (in_range "0" "3" h2) with true
        by (symmetry; apply in_range_bounds; codes; lia).
      rewrite !Ascii.eqb_refl.
      replace (in_range "0" "5" m1) with true
        by (symmetry; apply in_range_bounds; codes; lia).
      replace (in_range "0" "9" m2) with true
        by (symmetry; apply in_range_bounds; codes; lia).
      apply orb_true_r.
  - replace (in_range "0" "9" h2) with true
      by (symmetry; apply in_range_bounds; codes; lia).
    rewrite Ascii.eqb_refl.
    replace (in_range "0" "5" m1) with true
      by (symmetry; apply in_range_bounds; codes; lia).
    replace (in_range "0" "9" m2) with true
      by (symmetry; apply in_range_bounds; codes; lia).
    destruct (in_range "0" "1" h2); cbn.
    + destruct (in_range "0" "9" ":"); reflexivity.
    + reflexivity.
Qed.

Lemma is_digit_code (c : ascii) :
  48 <= code c <= 57 -> is_digit c = true /\ Ascii.eqb c ":" = false.
Proof.
  intros H. split.
  - apply in_range_bounds. codes. lia.
  - apply eqb_code. codes. lia.
Qed.

Ltac digit_facts c :=
  let D := fresh "D" in
  let E := fresh "E" in
  assert (is_digit c = true /\ Ascii.eqb c ":" = false) as [D E]
    by (apply is_digit_code; codes; lia).

(** [split] and [Number] recover the hours and minutes of an accepted string. *)
Lemma TimeShape_totalMinutes (s : string) (h m : Z) :
  TimeShape s h m -> totalMinutesOf s = (h * 60 + m).
Proof.
  intros [ h1 h2 m1 m2 H1 H2 H12 M1 M2 | h2 m1 m2 H2 M1 M2 ].
  - digit_facts h1. digit_facts h2. digit_facts m1. digit_facts m2.
    unfold totalMinutesOf. cbn [split]. rewrite E, E0, E1, E2, Ascii.eqb_refl.
    cbn [map item nth]. unfold Number. cbn [decimal_value].
    rewrite D, D0, D1, D2. rewrite mul_ofZ, add_ofZ by (codes; lia). f_equal; lia.
  - digit_facts h2. digit_facts m1. digit_facts m2.
    unfold totalMinutesOf. cbn [split]. rewrite E, E0, E1, Ascii.eqb_refl.
    cbn [map item nth]. unfold Number. cbn [decimal_value].
    rewrite D, D0, D1. rewrite mul_ofZ, add_ofZ by (codes; lia). f_equal; lia.
Qed.

Lemma timePattern_totalMinutes (s : string) :
  test timePattern s = true ->
  exists h m : Z, 0 <= h <= 23 /\ 0 <= m <= 59 /\ totalMinutesOf s = (h * 60 + m).
Proof.
  intros H. destruct (timePattern_shape s H) as (h & m & Sh).
  exists h, m. pose proof (TimeShape_range _ _ _ Sh) as [Rh Rm].
  split; [ exact Rh | ]. split; [ exact Rm | ]. exact (TimeShape_totalMinutes _ _ _ Sh).
Qed.

(** Every string of the strict two-digit form is accepted. *)
Lemma strictTimePattern_accepted (s : string) :
  test strictTimePattern s = true -> test timePattern s = true.
Proof.
  unfold test at 1, strictTimePattern. intros H. invert_match.
  - eapply TimeShape_accepted. apply shape_two; codes; lia.
  - eapply TimeShape_accepted. apply shape_two; codes; lia.
Qed.

(** ** Elapsed minutes *)

Lemma elapsedMinutesOf_cons (t : string) (first : MeasuredPoint)
      (rest : list MeasuredPoint) (this origin : Z) :
  0 <= this <= 1439 -> 0 <= origin <= 1439 ->
  totalMinutesOf t = this -> totalMinutesOf (time first) = origin ->
  elapsedMinutesOf t (first :: rest) =
    (if this - origin <? 0 then this - origin + 1440 else this - origin).
Proof.
  intros Rt Ro Et Eo. unfold elapsedMinutesOf.
  rewrite Et, Eo, sub_ofZ, lt_ofZ by lia.
  destruct (this - origin <? 0); [ | reflexivity ].
  rewrite add_ofZ by lia. reflexivity.
Qed.

(** The elapsed minutes of an accepted string against well-formed
    measurements are an integer of a single day. *)
Lemma elapsedMinutesOf_range (t : string) (points : list MeasuredPoint) :
  test timePattern t = true ->
  Forall wellFormed points ->
  exists e : Z, elapsedMinutesOf t points = e /\ 0 <= e <= 1439.
Proof.
  intros Ht Hp. destruct points as [ | first rest ].
  - exists 0. split; [ reflexivity | lia ].
  - apply Forall_inv in Hp. destruct Hp as [Hf _].
    destruct (timePattern_totalMinutes t Ht) as (h & m & Rh & Rm & Et).
    destruct (timePattern_totalMinutes _ Hf) as (h0 & m0 & Rh0 & Rm0 & Eo).
    rewrite (elapsedMinutesOf_cons t first rest (h * 60 + m) (h0 * 60 + m0)
               ltac:(lia) ltac:(lia) Et Eo).
    destruct (Z.ltb_spec (h * 60 + m - (h0 * 60 + m0)) 0);
      eexists; (split; [ reflexivity | lia ]).
Qed.

(** ** The event handlers *)

Lemma addDataPoint_accepted (st : State) :
  accepted st = true ->
  addDataPoint st =
    {| measuredPoints := measuredPoints st ++ [newPointOf st];
       projectedPoints :=
         match measuredPoints st with
         | [] => projectedPoints st
         | _ :: _ => buildProjectionSegment (measuredPoints st ++ [newPointOf st])
         end;
       currentTime := "";
       currentCO2 := "";
       alerts := alerts st |}.
Proof.
  unfold accepted. rewrite !andb_true_iff. intros [[Ht Hc] Hp].
  unfold addDataPoint. rewrite Ht, Hc, Hp. cbn [negb orb].
  fold (newPointOf st). rewrite length_app. cbn [List.length].
  destruct (measuredPoints st) as [ | first rest ]; cbn [List.length].
  - reflexivity.
  - destruct (Nat.leb_spec 2 (S (List.length rest) + 1)); [ reflexivity | lia ].
Qed.

Lemma addDataPoint_rejected (st : State) :
  accepted st = false ->
  addDataPoint st = st \/
  addDataPoint st = alert "Please enter time in HH:MM format" st.
Proof.
  unfold accepted, addDataPoint.
  destruct (truthy (currentTime st)); [ | auto ].
  destruct (truthy (currentCO2 st)); [ | auto ].
  destruct (test timePattern (currentTime st)); [ discriminate | auto ].
Qed.

Lemma slice_init_app {A : Type} (init : list A) (last : A) :
  slice_init (init ++ [last]) = init.
Proof.
  unfold slice_init. rewrite length_app. cbn [List.length].
  replace (List.length init + 1 - 1)%nat with (List.length init + 0)%nat by lia.
  rewrite firstn_app_2. cbn [firstn]. apply app_nil_r.
Qed.

Lemma projectionOf_build (points : list MeasuredPoint) :
  projectionOf points = buildProjectionSegment points.
Proof.
  unfold projectionOf, buildProjectionSegment.
  destruct (Nat.leb_spec 2 (List.length points)),
           (Nat.ltb_spec (List.length points) 2); try lia; reflexivity.
Qed.

Lemma removeLastPoint_app (st : State) (init : list MeasuredPoint) (last : MeasuredPoint) :
  measuredPoints st = init ++ [last] ->
  removeLastPoint st =
    {| measuredPoints := init;
       projectedPoints := projectionOf init;
       currentTime := currentTime st;
       currentCO2 := currentCO2 st;
       alerts := alerts st |}.
Proof.
  intros E. unfold removeLastPoint. rewrite E, slice_init_app, length_app.
  cbn [List.length].
  destruct (Nat.eqb_spec (List.length init + 1) 0); [ lia | ].
  unfold projectionOf. destruct (2 <=? List.length init)%nat; reflexivity.
Qed.

Lemma invariant_initial : invariant initialState.
Proof. repeat split. constructor. Qed.

Lemma invariant_addDataPoint (st : State) :
  invariant st -> invariant (addDataPoint st).
Proof.
  intros (WF & Origin & Proj).
  destruct (accepted st) eqn:Acc.
  - rewrite (addDataPoint_accepted st Acc).
    unfold accepted in Acc. rewrite !andb_true_iff in Acc.
    destruct Acc as [[_ _] Ht].
    destruct (elapsedMinutesOf_range _ _ Ht WF) as (e & Ee & Re).
    unfold invariant; cbn [measuredPoints projectedPoints].
    split; [ | split ].
    + apply Forall_app. split; [ exact WF | ].
      constructor; [ | constructor ].
      split; [ exact Ht | ]. exists e. split; assumption.
    + destruct (measuredPoints st) eqn:M; [ | exact Origin ].
      cbn. rewrite M. reflexivity.
    + destruct (measuredPoints st) as [ | first rest ] eqn:M.
      * rewrite Proj. reflexivity.
      * rewrite projectionOf_build. reflexivity.
  - destruct (addDataPoint_rejected st Acc) as [ E | E ]; rewrite E;
      repeat split; assumption.
Qed.

Lemma invariant_clearData (st : State) : invariant (clearData st).
Proof. repeat split. constructor. Qed.

Lemma invariant_removeLastPoint (st : State) :
  invariant st -> invariant (removeLastPoint st).
Proof.
  intros (WF & Origin & Proj).
  destruct (measuredPoints st) as [ | first rest ] eqn:M.
  - unfold removeLastPoint. rewrite M. cbn. unfold invariant.
    rewrite M. repeat split; [ constructor | exact Proj ].
  - destruct (exists_last (l := first :: rest)) as (init & last & E);
      [ discriminate | ].
    rewrite <- M in E. rewrite (removeLastPoint_app st init last E).
    rewrite M in E. rewrite E in WF.
    apply Forall_app in WF. destruct WF as [WF _].
    unfold invariant; cbn [measuredPoints projectedPoints].
    split; [ exact WF | ]. split; [ | reflexivity ].
    destruct init as [ | a init ]; [ exact I | ].
    injection E as E _. subst a. exact Origin.
Qed.

Lemma invariant_step (st : State) (e : Event) :
  invariant st -> invariant (step st e).
Proof.
  intros Inv. destruct e; cbn [step].
  - exact Inv.
  - exact Inv.
  - apply invariant_addDataPoint. exact Inv.
  - apply invariant_clearData.
  - apply invariant_removeLastPoint. exact Inv.
Qed.

Lemma invariant_run_from (events : list Event) (st : State) :
  invariant st -> invariant (fold_left step events st).
Proof.
  revert st. induction events as [ | e events IH ]; intros st Inv; cbn [fold_left].
  - exact Inv.
  - apply IH, invariant_step, Inv.
Qed.

Lemma invariant_run (events : list Event) : invariant (run events).
Proof. apply invariant_run_from, invariant_initial. Qed.

(** C4: for every accepted wall-clock string the elapsed minutes are 0
    when no measurement is stored, and otherwise the difference between
    its minutes since midnight and those of the first measurement, plus
    1440 when that difference is negative; this holds against the
    measurements of every state the component reaches; with origin
    23:50, the string 00:10 gives 20, also through [addDataPoint]. *)
Theorem elapsedMinutes_normalize :
  (forall t : string,
     test timePattern t = true ->
     elapsedMinutesOf t [] = 0 /\
     (forall (first : MeasuredPoint) (rest : list MeasuredPoint),
        test timePattern (time first) = true ->
        exists this origin : Z,
          totalMinutesOf t = this /\ 0 <= this <= 1439 /\
          totalMinutesOf (time first) = origin /\ 0 <= origin <= 1439 /\
          elapsedMinutesOf t (first :: rest) =
            (if this - origin <? 0 then this - origin + 1440 else this - origin))) /\
  (forall (events : list Event) (t : string)
          (first : MeasuredPoint) (rest : list MeasuredPoint),
     test timePattern t = true ->
     measuredPoints (run events) = first :: rest ->
     exists this origin : Z,
       totalMinutesOf t = this /\ totalMinutesOf (time first) = origin /\
       elapsedMinutesOf t (measuredPoints (run events)) =
         (if this - origin <? 0 then this - origin + 1440 else this - origin)) /\
  elapsedMinutesOf "00:10" [reading "23:50" 0 1000] = 20 /\
  map (fun p => minutes p)
      (measuredPoints
         (run [TypeTime "23:50"; TypeCO2 "1000"; ClickAdd;
               TypeTime "00:10"; TypeCO2 "800"; ClickAdd])) = [ofZ 0; ofZ 20].
Proof.
  split; [ | split; [ | split; reflexivity ] ].
  - intros t Ht. split; [ reflexivity | ].
    intros first rest Hf.
    destruct (timePattern_totalMinutes t Ht) as (h & m & Rh & Rm & Et).
    destruct (timePattern_totalMinutes _ Hf) as (h0 & m0 & Rh0 & Rm0 & Eo).
    exists (h * 60 + m), (h0 * 60 + m0).
    split; [ exact Et | ]. split; [ lia | ].
    split; [ exact Eo | ]. split; [ lia | ].
    apply elapsedMinutesOf_cons; assumption || lia.
  - intros events t first rest Ht E.
    destruct (invariant_run events) as (WF & _ & _).
    rewrite E in WF |- *. apply Forall_inv in WF. destruct WF as [Hf _].
    destruct (timePattern_totalMinutes t Ht) as (h & m & Rh & Rm & Et).
    destruct (timePattern_totalMinutes _ Hf) as (h0 & m0 & Rh0 & Rm0 & Eo).
    exists (h * 60 + m), (h0 * 60 + m0).
    split; [ exact Et | ]. split; [ exact Eo | ].
    apply elapsedMinutesOf_cons; assumption || lia.
Qed.

Lemma elapsedMinutes_normalize_witness :
  elapsedMinutesOf "07:05" [] = 0 /\
  elapsedMinutesOf "07:05" [reading "06:50" 0 900] = 15.
Proof.
  pose proof (proj1 elapsedMinutes_normalize "07:05" eq_refl) as [Origin Later].
  split; [ exact Origin | ].
  destruct (Later (reading "06:50" 0 900) [] eq_refl)
    as (this & origin & Et & _ & Eo & _ & E).
  rewrite E.
  assert (Ht : this = 425)
    by (apply ofZ_inj; rewrite <- Et; vm_compute; reflexivity).
  assert (Ho : origin = 410)
    by (apply ofZ_inj; rewrite <- Eo; vm_compute; reflexivity).
  subst. reflexivity.
Defined.

(** C9: after any sequence of typing, submissions (accepted or not),
    clearing and removal, every stored measurement has integer elapsed
    minutes between 0 and 1439, and the first one, if any, is at 0. *)
Theorem elapsedMinutes_invariant :
  forall events : list Event,
    Forall (fun p : MeasuredPoint =>
              exists m : Z, minutes p = m /\ 0 <= m <= 1439)
           (measuredPoints (run events)) /\
    firstIsOrigin (measuredPoints (run events)) /\
    (forall (first : MeasuredPoint) (rest : list MeasuredPoint),
       measuredPoints (run events) = first :: rest -> minutes first = 0).
Proof.
  intros events. destruct (invariant_run events) as (WF & Origin & _).
  split; [ | split ].
  - eapply Forall_impl; [ | exact WF ]. intros p [_ H]. exact H.
  - exact Origin.
  - intros first rest E. rewrite E in Origin. exact Origin.
Qed.

Lemma elapsedMinutes_invariant_witness :
  minutes (reading "23:50" 0 1000) = 0.
Proof.
  apply (proj2 (proj2 (elapsedMinutes_invariant
                         [TypeTime "23:50"; TypeCO2 "1000"; ClickAdd;
                          TypeTime "00:10"; TypeCO2 "800"; ClickAdd]))
               (reading "23:50" 0 1000)
               [ {| time := "00:10"; minutes := 20; co2 := 800; type := measured |} ]).
  reflexivity.
Defined.

(** C10: [removeLastPoint] on a non-empty sequence removes exactly the
    last measurement, keeps the earlier ones, and stores the projection
    rebuilt from what remains (empty when fewer than two remain); on an
    empty sequence it changes nothing. *)
Theorem removeLastPoint_spec :
  forall st : State,
    (measuredPoints st = [] -> removeLastPoint st = st) /\
    (forall (init : list MeasuredPoint) (last : MeasuredPoint),
       measuredPoints st = init ++ [last] ->
       measuredPoints (removeLastPoint st) = init /\
       projectedPoints (removeLastPoint st) = buildProjectionSegment init /\
       ((List.length init < 2)%nat -> projectedPoints (removeLastPoint st) = []) /\
       currentTime (removeLastPoint st) = currentTime st /\
       currentCO2 (removeLastPoint st) = currentCO2 st /\
       alerts (removeLastPoint st) = alerts st).
Proof.
  intros st. split.
  - intros E. unfold removeLastPoint. rewrite E. reflexivity.
  - intros init last E. rewrite (removeLastPoint_app st init last E).
    cbn [measuredPoints projectedPoints currentTime currentCO2 alerts].
    split; [ reflexivity | ]. split; [ apply projectionOf_build | ].
    split; [ | repeat split ].
    intros Short. unfold projectionOf.
    destruct (Nat.leb_spec 2 (List.length init)); [ lia | reflexivity ].
Qed.

Lemma removeLastPoint_spec_witness :
  let st := {| measuredPoints :=
                 [reading "12:00" 0 1000; reading "12:10" 10 800;
                  reading "12:20" 20 700];
               projectedPoints := [projectedAt 20 700; projectedAt 35 550];
               currentTime := ""; currentCO2 := ""; alerts := [] |} in
  measuredPoints (removeLastPoint st) =
    [reading "12:00" 0 1000; reading "12:10" 10 800] /\
  projectedPoints (removeLastPoint st) =
    buildProjectionSegment [reading "12:00" 0 1000; reading "12:10" 10 800].
Proof.
  cbv zeta.
  destruct (proj2 (removeLastPoint_spec
                     {| measuredPoints :=
                          [reading "12:00" 0 1000; reading "12:10" 10 800;
                           reading "12:20" 20 700];
                        projectedPoints := [projectedAt 20 700; projectedAt 35 550];
                        currentTime := ""; currentCO2 := ""; alerts := [] |})
                  [reading "12:00" 0 1000; reading "12:10" 10 800]
                  (reading "12:20" 20 700) eq_refl) as (M & P & _).
  split; [ exact M | exact P ].
Defined.

(** The five-minute series of the earlier draft reads the last two
    measurements only, too. *)
Lemma Draft_buildProjectionSegment_slice (l : list MeasuredPoint) :
  Draft.buildProjectionSegment l = Draft.buildProjectionSegment (slice_last 2 l).
Proof.
  destruct (Nat.ltb_spec (List.length l) 2) as [Short | Long].
  - unfold Draft.buildProjectionSegment at 1.
    destruct (Nat.ltb_spec (List.length l) 2) as [ _ | Long ]; [ | lia ].
    unfold slice_last. replace (List.length l - 2)%nat with 0%nat by lia.
    cbn [skipn]. unfold Draft.buildProjectionSegment.
    destruct (Nat.ltb_spec (List.length l) 2) as [ _ | Long ]; [ reflexivity | lia ].
  - destruct (slice_last_two_split l Long) as (older & p & c & E & S).
    rewrite S. unfold Draft.buildProjectionSegment at 1.
    destruct (Nat.ltb_spec (List.length l) 2) as [ Short | _ ]; [ lia | ].
    rewrite S. reflexivity.
Qed.

(** C8: the projection depends on the two most recent measurements
    only: two sequences of at least two measurements with the same last
    two elements have the same projection; and in every state the
    component reaches, the stored projection is the one built from the
    last two stored measurements (empty with fewer than two), whatever
    was stored before. *)
Theorem projection_depends_on_last_two :
  (forall l1 l2 : list MeasuredPoint,
     (2 <= List.length l1)%nat -> (2 <= List.length l2)%nat ->
     slice_last 2 l1 = slice_last 2 l2 ->
     buildProjectionSegment l1 = buildProjectionSegment l2) /\
  (forall (older1 older2 : list MeasuredPoint) (previous latest : MeasuredPoint),
     buildProjectionSegment (older1 ++ [previous; latest]) =
     buildProjectionSegment (older2 ++ [previous; latest])) /\
  (forall events : list Event,
     projectedPoints (run events) =
     buildProjectionSegment (slice_last 2 (measuredPoints (run events)))) /\
  (forall (st : State) (stored : list ProjectedPoint),
     accepted st = true -> measuredPoints st <> [] ->
     projectedPoints (addDataPoint (setProjectedPoints stored st)) =
     buildProjectionSegment
       (slice_last 2 (measuredPoints (addDataPoint st)))) /\
  (forall (st : State) (stored : list ProjectedPoint),
     measuredPoints st <> [] ->
     projectedPoints (removeLastPoint (setProjectedPoints stored st)) =
     buildProjectionSegment
       (slice_last 2 (measuredPoints (removeLastPoint st)))).
Proof.
  split; [ | split; [ | split; [ | split ] ] ].
  - intros l1 l2 _ _ E.
    rewrite (buildProjectionSegment_slice l1), (buildProjectionSegment_slice l2), E.
    reflexivity.
  - intros older1 older2 p c. rewrite !buildProjectionSegment_app. reflexivity.
  - intros events. destruct (invariant_run events) as (_ & _ & Proj).
    rewrite Proj, projectionOf_build. apply buildProjectionSegment_slice.
  - intros st stored Acc NE.
    rewrite <- buildProjectionSegment_slice.
    assert (Acc' : accepted (setProjectedPoints stored st) = true) by exact Acc.
    rewrite (addDataPoint_accepted _ Acc'), (addDataPoint_accepted _ Acc).
    cbn [measuredPoints projectedPoints setProjectedPoints].
    destruct (measuredPoints st) eqn:M; [ contradiction | ].
    unfold newPointOf. cbn [measuredPoints currentTime currentCO2 setProjectedPoints].
    rewrite M. reflexivity.
  - intros st stored NE.
    rewrite <- buildProjectionSegment_slice.
    destruct (measuredPoints st) as [ | first rest ] eqn:M; [ contradiction | ].
    destruct (exists_last (l := first :: rest)) as (init & last & E);
      [ discriminate | ].
    rewrite <- M in E.
    rewrite (removeLastPoint_app st init last E).
    rewrite (removeLastPoint_app (setProjectedPoints stored st) init last E).
    cbn [measuredPoints projectedPoints]. apply projectionOf_build.
Qed.

Lemma projection_depends_on_last_two_witness :
  buildProjectionSegment
    [reading "11:00" 0 1400; reading "12:00" 60 1000; reading "12:10" 70 800] =
  buildProjectionSegment
    [reading "12:00" 60 1000; reading "12:10" 70 800].
Proof.
  apply (proj1 projection_depends_on_last_two).
  - cbn. lia.
  - cbn. lia.
  - reflexivity.
Defined.

(** * Further properties of the component *)

(** ** The shape of the projection *)

Lemma buildProjectionSegment_length (l : list MeasuredPoint) :
  List.length (buildProjectionSegment l) = 0%nat \/
  List.length (buildProjectionSegment l) = 2%nat.
Proof.
  rewrite buildProjectionSegment_slice.
  destruct (Nat.ltb_spec (List.length l) 2) as [Short | Long].
  - left. unfold buildProjectionSegment, slice_last.
    replace (List.length l - 2)%nat with 0%nat by lia. cbn [skipn].
    destruct (Nat.ltb_spec (List.length l) 2); [ reflexivity | lia ].
  - destruct (slice_last_two_split l Long) as (older & p & c & _ & S).
    rewrite S, buildProjectionSegment_pair.
    destruct (_ === _)%js; [ left; reflexivity | ].
    destruct (_ >=? _)%js; [ left; reflexivity | ].
    destruct (_ <=? _)%js; [ left; reflexivity | right; reflexivity ].
Qed.

(** The projection the component stores is empty or has exactly two
    points, so [validProjections] never filters anything out. *)
Theorem stored_projection_is_valid :
  forall events : list Event,
    (List.length (projectedPoints (run events)) = 0%nat \/
     List.length (projectedPoints (run events)) = 2%nat) /\
    validProjections (projectedPoints (run events)) = projectedPoints (run events).
Proof.
  intros events. destruct (invariant_run events) as (_ & _ & Proj).
  rewrite Proj, projectionOf_build. unfold validProjections.
  destruct (buildProjectionSegment_length (measuredPoints (run events))) as [ E | E ].
  - split; [ left; exact E | ].
    rewrite E. cbn. destruct (buildProjectionSegment _); [ reflexivity | discriminate ].
  - split; [ right; exact E | ]. rewrite E. reflexivity.
Qed.

(** ** Concentrations that are not numbers *)



(** A concentration that [parseInt] could not read slips through every
    guard of [buildProjectionSegment]: when the two latest readings are
    at different integer minutes, each concentration is an integer or
    NaN and at least one is NaN, the result is not empty but a segment
    ending at minute NaN, while the time-to-target block yields [null]. *)
Theorem buildProjection_NaN_concentration :
  forall (older : list MeasuredPoint) (p c : MeasuredPoint) (mp mc : Z),
    minutes p = mp -> minutes c = mc -> mp <> mc ->
    integerOrNaN (co2 p) -> integerOrNaN (co2 c) ->
    co2 p = NaN \/ co2 c = NaN ->
    buildProjectionSegment (older ++ [p; c]) =
      [ projectedAt mc (co2 c); projectedAt NaN 550 ] /\
    timeToIdeal_currentRate (older ++ [p; c]) = (None, None).
Proof.
  intros older p c mp mc Hmp Hmc NE Np Nc Some_NaN.
  rewrite buildProjectionSegment_app, buildProjectionSegment_pair.
  rewrite timeToIdeal_currentRate_app.
  assert (Diff : (minutes c - minutes p === 0)%js = false).
  { rewrite Hmp, Hmc. unfold ofZ at 1 2. rewrite sub_eq_0.
    change ((ofZ mc === ofZ mp)%js = false).
    rewrite strict_eq_ofZ. apply Z.eqb_neq. lia. }
  assert (R : rate p c = NaN).
  { destruct Nc as [ Ec | (cc & Ec) ]; [ apply rate_NaN; exact Ec | ].
    destruct Some_NaN as [ Ep | Ep ]; [ | rewrite Ec in Ep; discriminate ].
    unfold rate. rewrite Ec, Ep. cbn [sub ofZ].
    destruct (minutes c - minutes p)%js; reflexivity. }
  assert (M : minutesToTarget p c = NaN).
  { unfold minutesToTarget. rewrite R. destruct (550 - co2 c)%js; reflexivity. }
  rewrite Diff, R, M. cbn [ge le lt Math_round ofZ].
  split.
  - rewrite Hmc. reflexivity.
  - destruct (co2 c >? 550)%js; reflexivity.
Qed.

Lemma buildProjection_NaN_concentration_witness :
  buildProjectionSegment
    ([] ++ [ reading "12:00" 0 800;
             {| time := "12:10"; minutes := 10; co2 := NaN; type := measured |} ]) =
    [ projectedAt 10 NaN; projectedAt NaN 550 ].
Proof.
  apply (buildProjection_NaN_concentration []
           (reading "12:00" 0 800)
           {| time := "12:10"; minutes := 10; co2 := NaN; type := measured |}
           0 10 eq_refl eq_refl).
  - discriminate.
  - right. exists 800. reflexivity.
  - left. reflexivity.
  - right. reflexivity.
Defined.

(** ** Clearing and undoing *)

(** [clearData] empties both sequences and leaves the two input fields
    alone; the next accepted submission then starts a new session: it is
    the only measurement, at elapsed minute 0, with no projection. *)
Theorem clearData_then_addDataPoint :
  forall st : State,
    measuredPoints (clearData st) = [] /\
    projectedPoints (clearData st) = [] /\
    currentTime (clearData st) = currentTime st /\
    currentCO2 (clearData st) = currentCO2 st /\
    (accepted st = true ->
     measuredPoints (addDataPoint (clearData st)) =
       [ {| time := currentTime st; minutes := 0;
            co2 := parseInt (currentCO2 st); type := measured |} ] /\
     projectedPoints (addDataPoint (clearData st)) = []).
Proof.
  intros st. repeat split.
  - assert (Acc : accepted (clearData st) = true) by exact H.
    rewrite (addDataPoint_accepted _ Acc). reflexivity.
  - assert (Acc : accepted (clearData st) = true) by exact H.
    rewrite (addDataPoint_accepted _ Acc). reflexivity.
Qed.

Lemma clearData_then_addDataPoint_witness :
  let st := {| measuredPoints := [reading "08:00" 0 900; reading "08:30" 30 700];
               projectedPoints := [projectedAt 30 700; projectedAt 53 550];
               currentTime := "21:15"; currentCO2 := "1200"; alerts := [] |} in
  measuredPoints (addDataPoint (clearData st)) = [reading "21:15" 0 1200] /\
  projectedPoints (addDataPoint (clearData st)) = [].
Proof.
  cbv zeta.
  exact (proj2 (proj2 (proj2 (proj2
           (clearData_then_addDataPoint
              {| measuredPoints := [reading "08:00" 0 900; reading "08:30" 30 700];
                 projectedPoints := [projectedAt 30 700; projectedAt 53 550];
                 currentTime := "21:15"; currentCO2 := "1200"; alerts := [] |}))))
           eq_refl).
Defined.

(** [removeLastPoint] undoes an accepted [addDataPoint]: in every state
    the component reaches, adding a measurement and removing the last
    one gives back the measurements and the projection there were. *)
Theorem removeLastPoint_undoes_addDataPoint :
  forall events : list Event,
    accepted (run events) = true ->
    measuredPoints (removeLastPoint (addDataPoint (run events))) =
      measuredPoints (run events) /\
    projectedPoints (removeLastPoint (addDataPoint (run events))) =
      projectedPoints (run events).
Proof.
  intros events Acc. destruct (invariant_run events) as (_ & _ & Proj).
  set (st := run events) in *.
  assert (E : measuredPoints (addDataPoint st) = measuredPoints st ++ [newPointOf st]).
  { rewrite (addDataPoint_accepted st Acc). reflexivity. }
  rewrite (removeLastPoint_app _ _ _ E). cbn [measuredPoints projectedPoints].
  split; [ reflexivity | symmetry; exact Proj ].
Qed.

Lemma removeLastPoint_undoes_addDataPoint_witness :
  let st := run [TypeTime "23:50"; TypeCO2 "1000"; ClickAdd;
                 TypeTime "00:10"; TypeCO2 "800"; ClickAdd;
                 TypeTime "00:20"; TypeCO2 "900"] in
  measuredPoints (removeLastPoint (addDataPoint st)) = measuredPoints st /\
  projectedPoints (removeLastPoint (addDataPoint st)) = projectedPoints st.
Proof.
  cbv zeta.
  apply (removeLastPoint_undoes_addDataPoint
           [TypeTime "23:50"; TypeCO2 "1000"; ClickAdd;
            TypeTime "00:10"; TypeCO2 "800"; ClickAdd;
            TypeTime "00:20"; TypeCO2 "900"]).
  reflexivity.
Defined.

(** ** Elapsed minutes against the wall clock *)

Lemma anchored_run_from (events : list Event) (st : State) :
  invariant st -> anchored (measuredPoints st) ->
  anchored (measuredPoints (fold_left step events st)).
Proof.
  revert st. induction events as [ | e events IH ]; intros st Inv Anc;
    cbn [fold_left]; [ exact Anc | ].
  apply IH; [ apply invariant_step, Inv | ].
  destruct e; cbn [step]; try exact Anc.
  - destruct (accepted st) eqn:Acc.
    + rewrite (addDataPoint_accepted st Acc). cbn [measuredPoints].
      unfold accepted in Acc. rewrite !andb_true_iff in Acc.
      destruct Acc as [[_ _] Ht].
      destruct (timePattern_totalMinutes _ Ht) as (h & m & Rh & Rm & Et).
      unfold anchored in *.
      destruct (measuredPoints st) as [ | first rest ] eqn:M.
      * constructor; [ | constructor ]. cbn [app].
        unfold newPointOf. rewrite M. cbn [time minutes elapsedMinutesOf].
        rewrite Et, sub_ofZ, lt_ofZ by lia.
        replace (h * 60 + m - (h * 60 + m)) with 0 by lia. reflexivity.
      * apply Forall_app. split; [ exact Anc | ].
        constructor; [ | constructor ].
        unfold newPointOf. rewrite M. reflexivity.
    + destruct (addDataPoint_rejected st Acc) as [ E | E ]; rewrite E; exact Anc.
  - constructor.
  - destruct (measuredPoints st) as [ | first rest ] eqn:M.
    + unfold removeLastPoint. rewrite M. cbn. rewrite M. constructor.
    + destruct (exists_last (l := first :: rest)) as (init & last & E);
        [ discriminate | ].
      pose proof E as E'. rewrite <- M in E'.
      rewrite (removeLastPoint_app st init last E'). cbn [measuredPoints].
      unfold anchored in *. rewrite E in Anc.
      apply Forall_app in Anc. destruct Anc as [Anc _].
      destruct init as [ | a init ]; [ constructor | exact Anc ].
Qed.

Lemma stored_minutes (events : list Event) (p : MeasuredPoint) :
  In p (measuredPoints (run events)) ->
  exists (first : MeasuredPoint) (rest : list MeasuredPoint) (tp tf : Z),
    measuredPoints (run events) = first :: rest /\
    0 <= tp <= 1439 /\ 0 <= tf <= 1439 /\
    totalMinutesOf (time p) = tp /\ totalMinutesOf (time first) = tf /\
    minutes p = ofZ ((tp - tf) mod 1440).
Proof.
  intros Hin.
  destruct (invariant_run events) as (WF & _ & _).
  pose proof (anchored_run_from events initialState invariant_initial
                (Forall_nil _)) as Anc.
  fold (run events) in Anc. unfold anchored in Anc.
  destruct (measuredPoints (run events)) as [ | first rest ] eqn:M;
    [ contradiction | ].
  rewrite Forall_forall in WF, Anc.
  destruct (WF p Hin) as [Hp _]. destruct (WF first (or_introl eq_refl)) as [Hf _].
  destruct (timePattern_totalMinutes _ Hp) as (h & m & Rh & Rm & Et).
  destruct (timePattern_totalMinutes _ Hf) as (h0 & m0 & Rh0 & Rm0 & Eo).
  exists first, rest, (h * 60 + m), (h0 * 60 + m0).
  split; [ reflexivity | ]. split; [ lia | ]. split; [ lia | ].
  split; [ exact Et | ]. split; [ exact Eo | ].
  rewrite (Anc p Hin), (elapsedMinutesOf_cons _ first rest (h * 60 + m) (h0 * 60 + m0)
                            ltac:(lia) ltac:(lia) Et Eo).
  destruct (Z.ltb_spec (h * 60 + m - (h0 * 60 + m0)) 0); f_equal;
    Z.div_mod_to_equations; lia.
Qed.

(** In every state the component reaches, each stored measurement's
    elapsed minutes are the difference between its wall-clock minutes
    and those of the first stored measurement, modulo 1440. *)
Theorem elapsedMinutes_modulo_day :
  forall (events : list Event) (p : MeasuredPoint),
    In p (measuredPoints (run events)) ->
    exists (first : MeasuredPoint) (rest : list MeasuredPoint) (tp tf : Z),
      measuredPoints (run events) = first :: rest /\
      totalMinutesOf (time p) = tp /\ totalMinutesOf (time first) = tf /\
      minutes p = ofZ ((tp - tf) mod 1440).
Proof.
  intros events p Hin.
  destruct (stored_minutes events p Hin)
    as (first & rest & tp & tf & M & _ & _ & Et & Eo & E).
  exists first, rest, tp, tf. auto.
Qed.

Lemma elapsedMinutes_modulo_day_witness :
  exists (first : MeasuredPoint) (rest : list MeasuredPoint) (tp tf : Z),
    measuredPoints (run [TypeTime "23:50"; TypeCO2 "1000"; ClickAdd;
                         TypeTime "00:10"; TypeCO2 "800"; ClickAdd])
      = first :: rest /\
    totalMinutesOf "00:10" = tp /\ totalMinutesOf (time first) = tf /\
    ofZ 20 = ofZ ((tp - tf) mod 1440).
Proof.
  apply (elapsedMinutes_modulo_day
           [TypeTime "23:50"; TypeCO2 "1000"; ClickAdd;
            TypeTime "00:10"; TypeCO2 "800"; ClickAdd]
           {| time := "00:10"; minutes := 20; co2 := 800; type := measured |}).
  right. left. reflexivity.
Defined.

(** ** The panel and the projection *)

Lemma Qdiv_neg_neg (a r : Q) : (a < 0)%Q -> (r < 0)%Q -> (0 < a / r)%Q.
Proof.
  intros Ha Hr. destruct a as [an ad], r as [[ | rn | rn ] rd];
    unfold Qle, Qlt, Qdiv, Qinv, Qmult in *; simpl in *; try lia.
Qed.

Lemma Math_round_nonneg (x : Q) : (0 < x)%Q -> 0 <= Qfloor (x + (1 # 2)).
Proof.
  intros Hx.
  assert (L : (inject_Z 0 <= x + (1 # 2))%Q).
  { change (inject_Z 0) with 0%Q. apply Qlt_le_weak.
    eapply Qlt_le_trans; [ exact Hx | ].
    rewrite <- (Qplus_0_r x) at 1. apply Qplus_le_r. discriminate. }
  apply Qfloor_resp_le in L. rewrite Qfloor_Z in L. exact L.
Qed.

Lemma projection_timeToIdeal_link :
  forall (older : list MeasuredPoint) (p c : MeasuredPoint),
    integral p -> integral c ->
    (minutes c === minutes p)%js = false ->
    (forall t : number,
       timeToIdeal (older ++ [p; c]) = Some t -> (0 <? t)%js = true ->
       buildProjectionSegment (older ++ [p; c]) =
         [ projectedAt (minutes c) (co2 c);
           projectedAt (minutes c + t)%js 550 ]) /\
    (buildProjectionSegment (older ++ [p; c]) = [] <->
     timeToIdeal (older ++ [p; c]) = None \/
     timeToIdeal (older ++ [p; c]) = Some (ofZ 0)) /\
    (forall t : number,
       timeToIdeal (older ++ [p; c]) = Some t -> exists k : Z, t = ofZ k /\ 0 <= k).
Proof.
  intros older p c Ip Ic Diff.
  unfold timeToIdeal. rewrite timeToIdeal_currentRate_app.
  rewrite buildProjectionSegment_app, buildProjectionSegment_pair.
  rewrite (minutes_diff_zero p c Ip Ic), Diff.
  destruct (rate_finite p c Ip Ic Diff) as (r & Er).
  pose proof Ic as (mc & cc & Hmc & Hcc).
  assert (Ge : (rate p c >=? 0)%js = negb (rate p c <? 0)%js)
    by (rewrite Er; apply ge_0_Fin).
  rewrite Ge.
  destruct (rate p c <? 0)%js eqn:Neg; cbn [negb].
  2: { split; [ | split ].
       - intros t H. destruct (co2 c >? 550)%js; discriminate.
       - split; [ intros _; left | reflexivity ].
         destruct (co2 c >? 550)%js; reflexivity.
       - intros t H. destruct (co2 c >? 550)%js; discriminate. }
  assert (Hr : (r < 0)%Q) by (rewrite Er in Neg; apply Qltb_lt; exact Neg).
  pose proof (minutesToTarget_integral p c cc r Hcc Er Hr) as Ex.
  destruct (co2 c >? 550)%js eqn:Above; cbn [fst].
  - assert (NonNeg : 0 <= Qfloor (round64 (round64 (550 - inject_Z cc) / r) + (1 # 2))).
    { apply Math_round_nonneg, round64_pos.
      apply Qdiv_neg_neg; [ | exact Hr ]. apply round64_neg.
      rewrite Hcc in Above. unfold gt in Above. rewrite lt_ofZ in Above.
      apply Z.ltb_lt in Above.
      change 550%Q with (inject_Z 550). unfold Qminus.
      rewrite <- inject_Z_opp, <- inject_Z_plus.
      change 0%Q with (inject_Z 0). rewrite <- Zlt_Qlt. lia. }
    rewrite Ex in *. unfold Math_round in *. rewrite le_ofZ.
    set (k := Qfloor (round64 (round64 (550 - inject_Z cc) / r) + (1 # 2))) in *.
    split; [ | split ].
    + intros t E Pos. injection E as E. subst t.
      rewrite lt_ofZ in Pos. apply Z.ltb_lt in Pos.
      destruct (Z.leb_spec k 0); [ lia | reflexivity ].
    + destruct (Z.leb_spec k 0) as [ Le | Gt ].
      * split; [ intros _; right | reflexivity ].
        replace k with 0 by lia. reflexivity.
      * split; [ discriminate | ].
        intros [ H | H ]; [ discriminate | ].
        injection H as H. lia.
    + intros t E. injection E as E. subst t. exists k. split; [ reflexivity | exact NonNeg ].
  - assert (Le : (Math_round (minutesToTarget p c) <=? 0)%js = true).
    { destruct (Math_round (minutesToTarget p c) <=? 0)%js eqn:Pos; [ reflexivity | ].
      rewrite (projection_above_target p c cc r Hcc Er Hr Pos) in Above.
      discriminate. }
    rewrite Le. split; [ | split ].
    + intros t H. discriminate.
    + split; [ intros _; left | ]; reflexivity.
    + intros t H. discriminate.
Qed.

(** For integer readings at different minutes the projection and the
    time-to-target block agree: a positive [timeToIdeal] is the length
    of the projected segment, and the projection is empty exactly when
    [timeToIdeal] is [null] or 0. *)
Theorem projection_iff_timeToIdeal_positive :
  forall (older : list MeasuredPoint) (p c : MeasuredPoint),
    integral p -> integral c ->
    (minutes c === minutes p)%js = false ->
    (forall t : number,
       timeToIdeal (older ++ [p; c]) = Some t -> (0 <? t)%js = true ->
       buildProjectionSegment (older ++ [p; c]) =
         [ projectedAt (minutes c) (co2 c);
           projectedAt (minutes c + t)%js 550 ]) /\
    (buildProjectionSegment (older ++ [p; c]) = [] <->
     timeToIdeal (older ++ [p; c]) = None \/
     timeToIdeal (older ++ [p; c]) = Some (ofZ 0)).
Proof.
  intros older p c Ip Ic Diff.
  destruct (projection_timeToIdeal_link older p c Ip Ic Diff) as (Pos & Empty & _).
  split; assumption.
Qed.

Lemma projection_iff_timeToIdeal_positive_witness :
  buildProjectionSegment ([] ++ [reading "12:00" 0 1000; reading "12:10" 10 800]) =
    [ projectedAt 10 800; projectedAt (ofZ 10 + ofZ 13)%js 550 ].
Proof.
  apply (proj1 (projection_iff_timeToIdeal_positive []
                  (reading "12:00" 0 1000) (reading "12:10" 10 800)
                  (ex_intro _ 0 (ex_intro _ 1000 (conj eq_refl eq_refl)))
                  (ex_intro _ 10 (ex_intro _ 800 (conj eq_refl eq_refl)))
                  eq_refl)
               (ofZ 13)); reflexivity.
Defined.

(** ** The projection in integer arithmetic *)

Lemma Qopp_twice (q : Q) : (- - q)%Q = q.
Proof. destruct q as [n d]. unfold Qopp. cbn [Qnum Qden]. rewrite Z.opp_involutive. reflexivity. Qed.

Lemma round64_of_pos (y : Q) : (0 < y)%Q -> (round64 y == round_pos (Qred y))%Q.
Proof.
  intros H. unfold round64. destruct (Qnum_Qred_pos y H) as (p & E). rewrite E.
  apply Qred_correct.
Qed.

Lemma round64_of_neg (y : Q) : (y < 0)%Q -> (round64 y == - round_pos (Qred (- y)))%Q.
Proof.
  intros H. unfold round64. destruct (Qnum_Qred_neg y H) as (p & E). rewrite E.
  rewrite Qred_correct, Qred_opp. reflexivity.
Qed.

(** Rounding commutes with negation. *)
Lemma round64_opp (y : Q) : (round64 (- y) == - round64 y)%Q.
Proof.
  destruct (Q_dec y 0) as [ [ Neg | Pos ] | Zero ].
  - assert (P : (0 < - y)%Q) by lra.
    rewrite (round64_of_pos _ P), (round64_of_neg _ Neg). lra.
  - assert (N : (- y < 0)%Q) by lra.
    rewrite (round64_of_neg _ N), (round64_of_pos _ Pos), Qopp_twice. reflexivity.
  - rewrite (round64_zero y Zero), (round64_zero (- y)) by lra. reflexivity.
Qed.

(** Rounding changes a positive value by at most the unit roundoff,
    2^-53, of it. *)
Lemma round64_relative (y : Q) :
  (0 < y)%Q ->
  ((1 - unit_roundoff) * y <= round64 y)%Q /\
  (round64 y <= (1 + unit_roundoff) * y)%Q.
Proof.
  intros H. rewrite (round64_of_pos y H).
  assert (H' : (0 < Qred y)%Q) by (rewrite Qred_correct; exact H).
  destruct (round_pos_spec (Qred y) H') as (_ & _ & Near).
  destruct (binade_spec (Qred y) H') as [Lo _].
  set (b := binade (Qred y)) in *.
  assert (U : ((1 # 2) * 2 ^ (b - 52) == unit_roundoff * 2 ^ b)%Q).
  { replace (b - 52) with (b + -52) by lia.
    rewrite Qpower_plus by discriminate.
    assert (C : ((1 # 2) * 2 ^ (-52) == unit_roundoff)%Q) by reflexivity.
    rewrite <- C. ring. }
  apply Qabs_Qle_condition in Near. destruct Near as [N1 N2].
  pose proof (Qred_correct y) as R.
  pose proof (Qpower2_pos b) as Pb.
  assert (Ue : (0 < unit_roundoff)%Q) by reflexivity.
  assert (M : (unit_roundoff * 2 ^ b <= unit_roundoff * y)%Q).
  { rewrite !(Qmult_comm unit_roundoff). apply Qmult_le_compat_r; lra. }
  split; lra.
Qed.

Section QuotientError.

Local Open Scope Q_scope.

(** Two roundings in a row, of the divisor and of the quotient, change
    the quotient by at most three unit roundoffs of it. *)
Lemma quotient_error (a rho rho' e x q' : Q) :
  0 < a -> 0 < rho -> 0 < rho' ->
  e * rho == a -> x * rho' == a ->
  (1 - unit_roundoff) * rho <= rho' -> rho' <= (1 + unit_roundoff) * rho ->
  (1 - unit_roundoff) * x <= q' -> q' <= (1 + unit_roundoff) * x ->
  (1 - 3 * unit_roundoff) * e <= q' /\ q' <= (1 + 3 * unit_roundoff) * e.
Proof.
  intros Ha Hr Hr' He Hx L1 U1 L2 U2.
  unfold unit_roundoff in *.
  assert (Pe : 0 < e) by nra.
  assert (Px : 0 < x) by nra.
  assert (X1 : x * (1 - (1 # 9007199254740992)) <= e) by nra.
  assert (X2 : e <= x * (1 + (1 # 9007199254740992))) by nra.
  split; nra.
Qed.

End QuotientError.

Lemma Qfloor_between (y : Q) (n : Z) :
  (inject_Z n <= y)%Q -> (y < inject_Z n + 1)%Q -> Qfloor y = n.
Proof.
  intros L U.
  pose proof (Qfloor_le y) as L1. pose proof (Qlt_floor y) as U1.
  assert (A : (inject_Z n < inject_Z (Qfloor y + 1))%Q) by lra.
  assert (B : (inject_Z (Qfloor y) < inject_Z (n + 1))%Q).
  { rewrite (inject_Z_plus n). change (inject_Z 1) with 1%Q. lra. }
  rewrite <- Zlt_Qlt in A, B. lia.
Qed.

(** Off the ties, rounding a perturbed quotient gives the integer that
    rounding the exact one gives. *)
Lemma round_stable (e q' : Q) (N D : Z) :
  D <> 0 -> N mod D <> 0 ->
  ((e + (1 # 2)) * inject_Z D == inject_Z N)%Q ->
  (0 <= e)%Q ->
  ((1 - 3 * unit_roundoff) * e <= q')%Q -> (q' <= (1 + 3 * unit_roundoff) * e)%Q ->
  (3 * unit_roundoff * e * inject_Z (Z.abs D) < 1)%Q ->
  Qfloor (q' + (1 # 2)) = N / D.
Proof.
  intros HD Tie Mid Pe L U Small.
  pose proof (Z.div_mod N D HD) as DM.
  set (n := N / D) in *. set (m := N mod D) in *.
  assert (DMq : (inject_Z N == inject_Z D * inject_Z n + inject_Z m)%Q).
  { rewrite <- inject_Z_mult, <- inject_Z_plus, DM. reflexivity. }
  unfold unit_roundoff in *.
  apply Qfloor_between.
  - destruct (Z.lt_total D 0) as [ Neg | [ Zero | Pos ] ]; [ | contradiction | ].
    + pose proof (Z.mod_neg_bound N D Neg) as B. fold m in B.
      assert (Bq : (inject_Z D + 1 <= inject_Z m)%Q /\ (inject_Z m <= -1)%Q).
      { split.
        - change 1%Q with (inject_Z 1). rewrite <- inject_Z_plus, <- Zle_Qle. lia.
        - change (-1)%Q with (inject_Z (-1)). rewrite <- Zle_Qle. lia. }
      assert (Dq : (inject_Z D < 0)%Q) by (change 0%Q with (inject_Z 0); rewrite <- Zlt_Qlt; lia).
      rewrite Z.abs_neq in Small by lia. rewrite inject_Z_opp in Small.
      nra.
    + pose proof (Z.mod_pos_bound N D Pos) as B. fold m in B.
      assert (Bq : (1 <= inject_Z m)%Q /\ (inject_Z m <= inject_Z D - 1)%Q).
      { split.
        - change 1%Q with (inject_Z 1). rewrite <- Zle_Qle. lia.
        - change 1%Q with (inject_Z 1). unfold Qminus.
          rewrite <- inject_Z_opp, <- inject_Z_plus, <- Zle_Qle. lia. }
      assert (Dq : (0 < inject_Z D)%Q) by (change 0%Q with (inject_Z 0); rewrite <- Zlt_Qlt; lia).
      rewrite Z.abs_eq in Small by lia.
      nra.
  - destruct (Z.lt_total D 0) as [ Neg | [ Zero | Pos ] ]; [ | contradiction | ].
    + pose proof (Z.mod_neg_bound N D Neg) as B. fold m in B.
      assert (Bq : (inject_Z D + 1 <= inject_Z m)%Q /\ (inject_Z m <= -1)%Q).
      { split.
        - change 1%Q with (inject_Z 1). rewrite <- inject_Z_plus, <- Zle_Qle. lia.
        - change (-1)%Q with (inject_Z (-1)). rewrite <- Zle_Qle. lia. }
      assert (Dq : (inject_Z D < 0)%Q) by (change 0%Q with (inject_Z 0); rewrite <- Zlt_Qlt; lia).
      rewrite Z.abs_neq in Small by lia. rewrite inject_Z_opp in Small.
      nra.
    + pose proof (Z.mod_pos_bound N D Pos) as B. fold m in B.
      assert (Bq : (1 <= inject_Z m)%Q /\ (inject_Z m <= inject_Z D - 1)%Q).
      { split.
        - change 1%Q with (inject_Z 1). rewrite <- Zle_Qle. lia.
        - change 1%Q with (inject_Z 1). unfold Qminus.
          rewrite <- inject_Z_opp, <- inject_Z_plus, <- Zle_Qle. lia. }
      assert (Dq : (0 < inject_Z D)%Q) by (change 0%Q with (inject_Z 0); rewrite <- Zlt_Qlt; lia).
      rewrite Z.abs_eq in Small by lia.
      nra.
Qed.

Lemma inject_Z_lt_0 (z : Z) : (inject_Z z < 0)%Q <-> z < 0.
Proof. change 0%Q with (inject_Z 0). rewrite <- Zlt_Qlt. reflexivity. Qed.

Lemma inject_Z_gt_0 (z : Z) : (0 < inject_Z z)%Q <-> 0 < z.
Proof. change 0%Q with (inject_Z 0). rewrite <- Zlt_Qlt. reflexivity. Qed.

Lemma Qdiv_sign_neg (n d : Q) :
  ((n < 0 /\ 0 < d) \/ (0 < n /\ d < 0))%Q -> (n / d < 0)%Q.
Proof.
  intros [ [Hn Hd] | [Hn Hd] ].
  - apply Qlt_shift_div_r; [ exact Hd | lra ].
  - setoid_replace (n / d)%Q with ((- n) / (- d))%Q
      by (field; intros E; rewrite E in Hd; discriminate).
    apply Qlt_shift_div_r; lra.
Qed.

Lemma Math_round_quotient (A dt dc : Z) :
  dt * dc < 0 -> A < 0 -> 6 * Z.abs (A * dt) < 2 ^ 53 ->
  (2 * A * dt + dc) mod (2 * dc) <> 0 ->
  Qfloor (round64 (inject_Z A / round64 (inject_Z dc / inject_Z dt)) + (1 # 2))
  = (2 * A * dt + dc) / (2 * dc).
Proof.
  intros Sign HA Small Tie.
  set (aq := inject_Z A). set (tq := inject_Z dt). set (cq := inject_Z dc).
  assert (Aq : (aq < 0)%Q) by (apply inject_Z_lt_0; exact HA).
  assert (Signs : ((cq < 0 /\ 0 < tq) \/ (0 < cq /\ tq < 0))%Q).
  { unfold cq, tq. rewrite !inject_Z_lt_0, !inject_Z_gt_0.
    destruct (Z.lt_total dc 0) as [ N | [ Z0 | P ] ].
    - left. split; [ exact N | nia ].
    - subst dc. lia.
    - right. split; [ exact P | nia ]. }
  assert (Tq : ~ (tq == 0)%Q) by (intros E; destruct Signs as [ [_ H] | [_ H] ]; rewrite E in H; discriminate).
  assert (Cq : ~ (cq == 0)%Q) by (intros E; destruct Signs as [ [H _] | [H _] ]; rewrite E in H; discriminate).
  set (r := (cq / tq)%Q).
  assert (Hr : (r < 0)%Q) by (apply Qdiv_sign_neg; exact Signs).
  set (r' := round64 r).
  assert (Hr' : (r' < 0)%Q) by (apply round64_neg; exact Hr).
  assert (Rho : (0 < - r)%Q) by lra.
  destruct (round64_relative (- r) Rho) as [L1 U1].
  rewrite round64_opp in L1, U1. fold r' in L1, U1.
  set (x := (aq / r')%Q).
  assert (Hx : (0 < x)%Q) by (apply Qdiv_neg_neg; assumption).
  destruct (round64_relative x Hx) as [L2 U2].
  set (q' := round64 x) in *.
  set (e := (aq / r)%Q).
  assert (He : (0 < e)%Q) by (apply Qdiv_neg_neg; assumption).
  assert (NZr : ~ (r == 0)%Q) by (intros E; rewrite E in Hr; discriminate).
  assert (NZr' : ~ (r' == 0)%Q) by (intros E; rewrite E in Hr'; discriminate).
  assert (E1 : (e * - r == - aq)%Q) by (unfold e; field; exact NZr).
  assert (E2 : (x * - r' == - aq)%Q) by (unfold x; field; exact NZr').
  destruct (quotient_error (- aq) (- r) (- r') e x q') as [L U]; try assumption; try lra.
  assert (Ec : (e * cq == aq * tq)%Q) by (unfold e, r; field; split; assumption).
  apply round_stable with (e := e).
  - nia.
  - exact Tie.
  - rewrite inject_Z_plus, !inject_Z_mult. fold aq tq cq.
    change (inject_Z 2) with 2%Q.
    setoid_replace ((e + (1 # 2)) * (2 * cq))%Q with (2 * (e * cq) + cq)%Q by ring.
    rewrite Ec. ring.
  - lra.
  - exact L.
  - exact U.
  - unfold unit_roundoff.
    assert (S : (6 * inject_Z (Z.abs (A * dt)) < inject_Z (2 ^ 53))%Q).
    { change 6%Q with (inject_Z 6). rewrite <- inject_Z_mult, <- Zlt_Qlt. exact Small. }
    change (inject_Z (2 ^ 53)) with (9007199254740992 # 1)%Q in S.
    destruct Signs as [ [Hc Ht] | [Hc Ht] ].
    + unfold cq in Hc. apply (proj1 (inject_Z_lt_0 dc)) in Hc.
      unfold tq in Ht. apply (proj1 (inject_Z_gt_0 dt)) in Ht.
      rewrite (Z.abs_neq (2 * dc)) by lia.
      rewrite (Z.abs_neq (A * dt)) in S by nia.
      rewrite inject_Z_opp, inject_Z_mult in S. rewrite inject_Z_opp, inject_Z_mult.
      change (inject_Z A) with aq in S. change (inject_Z dt) with tq in S.
      change (inject_Z dc) with cq. change (inject_Z 2) with 2%Q. nra.
    + unfold cq in Hc. apply (proj1 (inject_Z_gt_0 dc)) in Hc.
      unfold tq in Ht. apply (proj1 (inject_Z_lt_0 dt)) in Ht.
      rewrite (Z.abs_eq (2 * dc)) by lia.
      rewrite (Z.abs_eq (A * dt)) in S by nia.
      rewrite inject_Z_mult in S. rewrite inject_Z_mult.
      change (inject_Z A) with aq in S. change (inject_Z dt) with tq in S.
      change (inject_Z dc) with cq. change (inject_Z 2) with 2%Q. nra.
Qed.

Lemma sub_inject_Z (a b : Z) :
  Z.abs (a - b) < 2 ^ 53 -> round64 (inject_Z a - inject_Z b) = inject_Z (a - b).
Proof.
  intros H. apply round64_eq_Z; [ | exact H ].
  unfold Qminus. rewrite <- inject_Z_opp, <- inject_Z_plus. reflexivity.
Qed.

Lemma Qdiv_Z_lt_0 (n d : Z) :
  d <> 0 -> ((inject_Z n / inject_Z d < 0)%Q <-> d * n < 0).
Proof.
  intros Hd. destruct d as [ | d | d ]; [ contradiction | | ];
    unfold Qlt, Qdiv, Qinv, Qmult, inject_Z; cbn [Qnum Qden];
    rewrite ?Pos.mul_1_l; nia.
Qed.

(** Off the ties, the projection is the one integer arithmetic gives.
    For readings within a day ([minutes] from 0 to 1439) and
    concentrations up to a billion in size, write [dt] and [dc] for the
    differences of [minutes] and of [co2] between the two latest
    readings and [N] for [2 * (550 - latest.co2) * dt + dc].  The exact
    quotient [(550 - latest.co2) / (dc / dt)] lies halfway between two
    integers exactly when [2 * dc] divides [N]; in every other case the
    two binary64 divisions and [Math.round] give [N / (2 * dc)], the
    division rounding down, and a segment is produced exactly when
    [dt * dc < 0] and that integer is at least 1, ending at minute
    [latest.minutes + N / (2 * dc)]. *)
Theorem buildProjection_integer_form :
  forall (older : list MeasuredPoint) (p c : MeasuredPoint) (mp cp mc cc : Z),
    minutes p = mp -> co2 p = cp -> minutes c = mc -> co2 c = cc ->
    0 <= mp <= 1439 -> 0 <= mc <= 1439 ->
    Z.abs cp <= 10 ^ 9 -> Z.abs cc <= 10 ^ 9 ->
    let dt := mc - mp in
    let dc := cc - cp in
    let N := 2 * (550 - cc) * dt + dc in
    N mod (2 * dc) <> 0 ->
    buildProjectionSegment (older ++ [p; c]) =
      if (dt * dc <? 0) && (1 <=? N / (2 * dc))
      then [ projectedAt mc cc; projectedAt (ofZ (mc + N / (2 * dc))) 550 ]
      else [].
Proof.
  intros older p c mp cp mc cc Hmp Hcp Hmc Hcc Rmp Rmc Rcp Rcc dt dc N.
  assert (Ip : integral p) by (exists mp, cp; auto).
  assert (Ic : integral c) by (exists mc, cc; auto).
  rewrite buildProjectionSegment_app, buildProjectionSegment_pair.
  rewrite (minutes_diff_zero p c Ip Ic), Hmp, Hmc, strict_eq_ofZ.
  destruct (Z.eqb_spec mc mp) as [ Same | Diff ].
  { intros _. replace dt with 0 by (unfold dt; lia). reflexivity. }
  assert (Hdt : dt <> 0) by (unfold dt; lia).
  pose proof (rate_integral p c mp cp mc cc Hmp Hcp Hmc Hcc) as Er.
  destruct (Z.eqb_spec mc mp) as [ Same | _ ]; [ contradiction | ].
  rewrite (sub_inject_Z cc cp), (sub_inject_Z mc mp) in Er by lia. fold dt dc in Er.
  set (r' := round64 (inject_Z dc / inject_Z dt)) in *.
  rewrite Er, ge_0_Fin.
  assert (Neg : (Fin r' <? 0)%js = (dt * dc <? 0)).
  { unfold lt, ofZ. change (inject_Z 0) with 0%Q.
    destruct (Z.ltb_spec (dt * dc) 0) as [ L | G ].
    - apply Qltb_lt, round64_neg. apply (proj2 (Qdiv_Z_lt_0 dc dt Hdt)). exact L.
    - destruct (Qltb r' 0) eqn:Q; [ exfalso | reflexivity ].
      apply Qltb_lt in Q.
      assert (C : (inject_Z dc / inject_Z dt < 0)%Q).
      { destruct (Qlt_le_dec (inject_Z dc / inject_Z dt) 0) as [ | Ge ]; [ assumption | ].
        exfalso. apply Qle_lteq in Ge. destruct Ge as [ Pos | Zero ].
        - pose proof (round64_pos _ Pos) as P. fold r' in P. lra.
        - symmetry in Zero. pose proof (round64_zero _ Zero) as Z0. fold r' in Z0.
          rewrite Z0 in Q. discriminate. }
      apply (proj1 (Qdiv_Z_lt_0 dc dt Hdt)) in C. lia. }
  rewrite Neg.
  destruct (Z.ltb_spec (dt * dc) 0) as [ Sign | _ ]; cbn [negb andb];
    [ | intros _; reflexivity ].
  assert (Hr' : (r' < 0)%Q) by (apply Qltb_lt; unfold lt, ofZ in Neg; exact Neg).
  rewrite (minutesToTarget_integral p c cc r' Hcc Er Hr').
  change 550%Q with (inject_Z 550). rewrite sub_inject_Z by lia.
  set (A := 550 - cc) in *.
  destruct (Z.lt_ge_cases A 0) as [ HA | HA ].
  - (* above the target *)
    intros Tie.
    assert (B : Z.abs (A * dt) <= 1439 * (10 ^ 9 + 550))
      by (clear Tie; unfold A, dt; nia).
    assert (K : Math_round (Fin (round64 (inject_Z A / r'))) = ofZ (N / (2 * dc))).
    { unfold Math_round. f_equal. unfold r', N. fold A.
      apply Math_round_quotient; try assumption. clear Tie. lia. }
    clear Tie. rewrite K, le_ofZ.
    destruct (Z.leb_spec (N / (2 * dc)) 0) as [ Le | Gt ];
      destruct (Z.leb_spec 1 (N / (2 * dc))) as [ Ge | Lt ]; try lia; [ reflexivity | ].
    rewrite Hcc, add_ofZ; [ reflexivity | ].
    assert (B' : Z.abs (N / (2 * dc)) <= Z.abs N + 1).
    { assert (D0 : 2 * dc <> 0) by nia.
      pose proof (Z.div_mod N (2 * dc) D0) as DM.
      destruct (Z.lt_total (2 * dc) 0) as [ Dn | [ Dz | Dp ] ]; [ | contradiction | ].
      - pose proof (Z.mod_neg_bound N (2 * dc) Dn). nia.
      - pose proof (Z.mod_pos_bound N (2 * dc) Dp). nia. }
    assert (BN : Z.abs N <= 2 * (10 ^ 9 + 550) * 1439 + 2 * 10 ^ 9) by (unfold N, A, dt, dc in *; nia).
    lia.
  - (* at or below the target: the quotient is not positive *)
    intros _.
    assert (Le : (Math_round (Fin (round64 (inject_Z A / r'))) <=? 0)%js = true).
    { rewrite Math_round_le_0. unfold lt, half. apply Qltb_lt.
      assert (X : (inject_Z A / r' <= 0)%Q).
      { apply Qdiv_nonneg_neg; [ | exact Hr' ].
        change 0%Q with (inject_Z 0). rewrite <- Zle_Qle. exact HA. }
      apply Qle_lteq in X. destruct X as [ Xn | Xz ].
      - pose proof (round64_neg _ Xn). lra.
      - rewrite (round64_zero _ Xz). reflexivity. }
    rewrite Le.
    destruct (Z.leb_spec 1 (N / (2 * dc))) as [ Ge | _ ]; [ exfalso | reflexivity ].
    assert (D0 : 2 * dc <> 0) by nia.
    pose proof (Z.div_mod N (2 * dc) D0) as DM.
    destruct (Z.lt_total (2 * dc) 0) as [ Dn | [ Dz | Dp ] ]; [ | contradiction | ].
    + pose proof (Z.mod_neg_bound N (2 * dc) Dn). unfold N in *. nia.
    + pose proof (Z.mod_pos_bound N (2 * dc) Dp). unfold N in *. nia.
Qed.

Lemma buildProjection_integer_form_witness :
  buildProjectionSegment ([] ++ [reading "12:00" 0 1000; reading "12:10" 10 790]) =
    [ projectedAt 10 790; projectedAt 21 550 ].
Proof.
  apply (buildProjection_integer_form []
           (reading "12:00" 0 1000) (reading "12:10" 10 790) 0 1000 10 790);
    try reflexivity; try lia.
  vm_compute. discriminate.
Defined.

(** ** Classification is monotone *)

(** [getCO2Status] never ranks a lower concentration as more severe
    than a higher one; NaN is classified "Poor". *)
Theorem getCO2Status_monotone :
  (forall a b : number,
     (a <=? b)%js = true ->
     (severity (getCO2Status a) <= severity (getCO2Status b))%nat) /\
  text (getCO2Status NaN) = "Poor".
Proof.
  split; [ | reflexivity ].
  intros a b Le.
  assert (Down : forall k : Z, (b <=? k)%js = true -> (a <=? k)%js = true).
  { intros k Hk. destruct a as [ x | | | ], b as [ y | | | ];
      try discriminate; try reflexivity.
    unfold le, ofZ in *. apply Qleb_le in Le, Hk. apply Qleb_le.
    eapply Qle_trans; eassumption. }
  unfold getCO2Status.
  destruct (b <=? 550)%js eqn:B1.
  { rewrite (Down 550 B1). cbn. lia. }
  destruct (b <=? 800)%js eqn:B2.
  { rewrite (Down 800 B2). destruct (a <=? 550)%js; cbn; lia. }
  destruct (b <=? 1000)%js eqn:B3.
  { rewrite (Down 1000 B3).
    destruct (a <=? 550)%js; [ cbn; lia | ]. destruct (a <=? 800)%js; cbn; lia. }
  destruct (a <=? 550)%js; [ cbn; lia | ].
  destruct (a <=? 800)%js; [ cbn; lia | ].
  destruct (a <=? 1000)%js; cbn; lia.
Qed.

Lemma getCO2Status_monotone_witness :
  (severity (getCO2Status 700%Z) <= severity (getCO2Status 900%Z))%nat.
Proof.
  apply (proj1 getCO2Status_monotone 700 900). reflexivity.
Defined.

(** ** Printing the time *)

Example formatting_examples :
  map decimal [0; 7; 23; -5] = ["0"; "7"; "23"; "-5"] /\
  map (padStart 2 "0") ["7"; "23"; ""; "123"] = ["07"; "23"; "00"; "123"] /\
  padStart 5 "ab" "x" = "ababx" /\
  map (fun a => rem a 60) [ofZ 125; ofZ (-125); ofZ 60; NaN] =
    [ofZ 5; ofZ (-5); ofZ 0; NaN] /\
  map toString [ofZ 23; ofZ (-5); NaN; Fin (1 # 2)] =
    [Some "23"; Some "-5"; Some "NaN"; None].
Proof. repeat split. Qed.

Lemma In_range (z n : Z) :
  0 <= z < n -> In z (map Z.of_nat (seq 0 (Z.to_nat n))).
Proof.
  intros H. apply in_map_iff. exists (Z.to_nat z). split; [ lia | ].
  apply in_seq. lia.
Qed.

Lemma padStart_decimal (z : Z) :
  0 <= z <= 99 -> padStart 2 "0" (decimal z) = twoDigits z.
Proof.
  intros H.
  assert (All : forallb (fun z => String.eqb (padStart 2 "0" (decimal z)) (twoDigits z))
                        (map Z.of_nat (seq 0 (Z.to_nat 100))) = true)
    by (vm_compute; reflexivity).
  rewrite forallb_forall in All. apply String.eqb_eq, All, In_range. lia.
Qed.

Lemma code_digitChar (d : Z) : 0 <= d <= 9 -> code (digitChar d) = 48 + d.
Proof.
  intros H.
  assert (All : forallb (fun d => code (digitChar d) =? 48 + d)
                        (map Z.of_nat (seq 0 (Z.to_nat 10))) = true)
    by (vm_compute; reflexivity).
  rewrite forallb_forall in All. apply Z.eqb_eq, All, In_range. lia.
Qed.

(** A two-digit hour up to 23 and a two-digit minute up to 59 make a
    string of the strict form that reads back as that time. *)
Lemma twoDigits_time (h m : Z) :
  0 <= h <= 23 -> 0 <= m <= 59 ->
  test strictTimePattern (twoDigits h ++ ":" ++ twoDigits m)%string = true /\
  test timePattern (twoDigits h ++ ":" ++ twoDigits m)%string = true /\
  totalMinutesOf (twoDigits h ++ ":" ++ twoDigits m)%string = h * 60 + m.
Proof.
  intros Hh Hm.
  assert (Q1 : 0 <= h / 10 <= 9) by (Z.div_mod_to_equations; lia).
  assert (Q2 : 0 <= h mod 10 <= 9) by (Z.div_mod_to_equations; lia).
  assert (Q3 : 0 <= m / 10 <= 9) by (Z.div_mod_to_equations; lia).
  assert (Q4 : 0 <= m mod 10 <= 9) by (Z.div_mod_to_equations; lia).
  pose proof (code_digitChar _ Q1) as C1. pose proof (code_digitChar _ Q2) as C2.
  pose proof (code_digitChar _ Q3) as C3. pose proof (code_digitChar _ Q4) as C4.
  assert (Sh : TimeShape (twoDigits h ++ ":" ++ twoDigits m)%string
                 (10 * (code (digitChar (h / 10)) - 48)
                  + (code (digitChar (h mod 10)) - 48))
                 (10 * (code (digitChar (m / 10)) - 48)
                  + (code (digitChar (m mod 10)) - 48))).
  { unfold twoDigits. cbn [append].
    apply shape_two; codes; rewrite ?C1, ?C2, ?C3, ?C4;
      Z.div_mod_to_equations; lia. }
  split; [ | split ].
  - unfold twoDigits, test, strictTimePattern. cbn [append rmatch].
    replace (in_range "0" "5" (digitChar (m / 10))) with true
      by (symmetry; apply in_range_bounds; codes; rewrite C3;
          Z.div_mod_to_equations; lia).
    replace (in_range "0" "9" (digitChar (m mod 10))) with true
      by (symmetry; apply in_range_bounds; codes; lia).
    replace (in_range "0" "9" (digitChar (h mod 10))) with true
      by (symmetry; apply in_range_bounds; codes; lia).
    rewrite Ascii.eqb_refl.
    destruct (Z.eq_dec (h / 10) 2) as [ E | NE ].
    + rewrite E. change (digitChar 2) with "2"%char. rewrite Ascii.eqb_refl.
      replace (in_range "0" "3" (digitChar (h mod 10))) with true
        by (symmetry; apply in_range_bounds; codes; rewrite C2;
            Z.div_mod_to_equations; lia).
      apply orb_true_r.
    + replace (in_range "0" "1" (digitChar (h / 10))) with true
        by (symmetry; apply in_range_bounds; codes; rewrite C1;
            Z.div_mod_to_equations; lia).
      reflexivity.
  - exact (TimeShape_accepted _ _ _ Sh).
  - rewrite (TimeShape_totalMinutes _ _ _ Sh). f_equal.
    rewrite C1, C2, C3, C4. Z.div_mod_to_equations. lia.
Qed.

(** The "Now" button: for a clock reading within a day the time field
    receives a string of the strict HH:MM form that reads back as that
    hour and minute, so a submission with it and a non-empty
    concentration is accepted. *)
Theorem setCurrentTimeToNow_accepted :
  forall (now : Date) (st : State),
    0 <= getHours now <= 23 -> 0 <= getMinutes now <= 59 ->
    test strictTimePattern (currentTime (setCurrentTimeToNow now st)) = true /\
    totalMinutesOf (currentTime (setCurrentTimeToNow now st)) =
      ofZ (getHours now * 60 + getMinutes now) /\
    (currentCO2 st <> "" -> accepted (setCurrentTimeToNow now st) = true) /\
    measuredPoints (setCurrentTimeToNow now st) = measuredPoints st /\
    projectedPoints (setCurrentTimeToNow now st) = projectedPoints st.
Proof.
  intros now st Hh Hm.
  unfold setCurrentTimeToNow. cbn [currentTime setCurrentTime].
  rewrite !padStart_decimal by lia.
  destruct (twoDigits_time _ _ Hh Hm) as (Strict & Lenient & Total).
  split; [ exact Strict | ]. split; [ exact Total | ].
  split; [ | split; reflexivity ].
  intros NE. unfold accepted. cbn [currentTime currentCO2 setCurrentTime].
  rewrite Lenient. destruct (currentCO2 st); [ contradiction | ].
  reflexivity.
Qed.

Lemma setCurrentTimeToNow_accepted_witness :
  currentTime (setCurrentTimeToNow {| getHours := 7; getMinutes := 5 |} initialState)
    = "07:05" /\
  test strictTimePattern "07:05" = true.
Proof.
  split; [ reflexivity | ].
  apply (setCurrentTimeToNow_accepted {| getHours := 7; getMinutes := 5 |} initialState);
    cbn; lia.
Defined.

Lemma rem_ofZ (a b : Z) : b <> 0 -> rem (ofZ a) (ofZ b) = ofZ (Z.rem a b).
Proof.
  intros Hb. unfold rem, ofZ.
  change (Qeqb (inject_Z b) 0) with (ofZ b === ofZ 0)%js.
  rewrite strict_eq_ofZ. destruct (Z.eqb_spec b 0); [ contradiction | ].
  f_equal. apply Qred_eq_inject_Z.
  assert (T : Qtrunc (inject_Z a / inject_Z b) = Z.quot a b).
  { unfold Qtrunc, Qdiv, Qinv, Qmult, inject_Z. destruct b as [ | b | b ];
      [ contradiction | | ]; cbn [Qnum Qden]; rewrite Pos.mul_1_l.
    - rewrite Z.mul_1_r. reflexivity.
    - change (Z.neg b) with (- Z.pos b).
      rewrite Z.quot_opp_r by discriminate.
      replace (a * -1) with (- a) by lia.
      apply Z.quot_opp_l. discriminate. }
  rewrite T. unfold Qminus.
  rewrite <- inject_Z_mult, <- inject_Z_opp, <- inject_Z_plus.
  rewrite inject_Z_injective.
  pose proof (Z.quot_rem' a b). lia.
Qed.

(** The hour of a minute of two days: the binary64 quotient by 60 has
    the floor of the exact one (every case is evaluated). *)
Lemma Math_floor_div_60 (a : Z) :
  0 <= a < 2880 -> Math_floor (ofZ a / 60)%js = ofZ (a / 60).
Proof.
  intros H.
  assert (All : forallb (fun a => Qfloor (round64 (inject_Z a / 60)) =? a / 60)
                        (map Z.of_nat (seq 0 (Z.to_nat 2880))) = true)
    by (vm_compute; reflexivity).
  rewrite forallb_forall in All. specialize (All a (In_range a 2880 H)).
  apply Z.eqb_eq in All.
  unfold div, ofZ, Math_floor. change (Qeqb (inject_Z 60) 0) with false.
  cbv iota. unfold ofZ. change (inject_Z 60) with 60%Q. rewrite All. reflexivity.
Qed.

Lemma toString_ofZ (k : Z) :
  Z.abs k < 10 ^ 21 -> toString (ofZ k) = Some (decimal k).
Proof.
  intros H. unfold toString, ofZ. rewrite Qfloor_Z.
  replace (Qeqb (inject_Z k) (inject_Z k)) with true
    by (symmetry; apply Qeqb_eq; reflexivity).
  destruct (Z.ltb_spec (Z.abs k) (10 ^ 21)); [ reflexivity | lia ].
Qed.

(** [formatTime] gives back the wall clock of every stored measurement:
    in every state the component reaches, the elapsed minutes of a
    stored measurement format to a string of the strict HH:MM form that
    denotes the same time of day as the string the measurement was
    entered with; with no measurement stored the result is empty. *)
Theorem formatTime_of_stored_minutes :
  (forall (st : State) (m : number),
     measuredPoints st = [] -> formatTime st m = Some "") /\
  (forall (events : list Event) (p : MeasuredPoint),
     In p (measuredPoints (run events)) ->
     exists s : string,
       formatTime (run events) (minutes p) = Some s /\
       test strictTimePattern s = true /\
       totalMinutesOf s = totalMinutesOf (time p)).
Proof.
  split.
  { intros st m E. unfold formatTime. rewrite E. reflexivity. }
  intros events p Hin.
  destruct (stored_minutes events p Hin)
    as (first & rest & tp & tf & M & Rp & Rf & Et & Eo & E).
  unfold formatTime. rewrite M. cbn [List.length Nat.eqb].
  rewrite Eo, E, add_ofZ by (Z.div_mod_to_equations; lia).
  set (T := tf + (tp - tf) mod 1440).
  assert (RT : 0 <= T < 2880) by (unfold T; Z.div_mod_to_equations; lia).
  rewrite Math_floor_div_60, !rem_ofZ by lia.
  rewrite !Z.rem_mod_nonneg by (Z.div_mod_to_equations; lia).
  rewrite !toString_ofZ by (Z.div_mod_to_equations; lia).
  rewrite !padStart_decimal by (Z.div_mod_to_equations; lia).
  assert (Hh : 0 <= (T / 60) mod 24 <= 23) by (Z.div_mod_to_equations; lia).
  assert (Hm : 0 <= T mod 60 <= 59) by (Z.div_mod_to_equations; lia).
  destruct (twoDigits_time _ _ Hh Hm) as (Strict & _ & Total).
  eexists. split; [ reflexivity | ]. split; [ exact Strict | ].
  rewrite Total, Et. f_equal. unfold T. Z.div_mod_to_equations. lia.
Qed.

Lemma formatTime_of_stored_minutes_witness :
  exists s : string,
    formatTime (run [TypeTime "23:50"; TypeCO2 "1000"; ClickAdd;
                     TypeTime "0:10"; TypeCO2 "800"; ClickAdd]) (ofZ 20) = Some s /\
    test strictTimePattern s = true /\
    totalMinutesOf s = totalMinutesOf "0:10".
Proof.
  apply (proj2 formatTime_of_stored_minutes
           [TypeTime "23:50"; TypeCO2 "1000"; ClickAdd;
            TypeTime "0:10"; TypeCO2 "800"; ClickAdd]
           {| time := "0:10"; minutes := 20; co2 := 800; type := measured |}).
  right. left. reflexivity.
Defined.

(** ** The time field *)

Example timeInput_examples :
  map (fun v => option_map currentTime (timeInput_onChange v initialState))
      ["1830"; "183"; "18"; "18:3"; "99:99"; "1:234"; "::"; "ab1c2:3x4"; "12345"; "7:"; ""]
  = map Some
      ["18:30"; "18:3"; "18"; "18:3"; "23:59"; "01:23"; "00:"; "12:34"; "12345"; "07:"; ""].
Proof. reflexivity. Qed.

Lemma is_digit_bounds (c : ascii) : is_digit c = true <-> 48 <= code c <= 57.
Proof. unfold is_digit. rewrite in_range_bounds. codes. reflexivity. Qed.

Lemma is_digit_not_colon (c : ascii) : is_digit c = true -> Ascii.eqb c ":" = false.
Proof. intros H. apply is_digit_bounds in H. apply eqb_code. codes. lia. Qed.

Lemma keepDigitsAndColons_ok (s : string) :
  digitsAndColons (keepDigitsAndColons s) = true.
Proof.
  induction s as [ | c s IH ]; [ reflexivity | ]. cbn [keepDigitsAndColons].
  destruct (is_digit c || Ascii.eqb c ":") eqn:K; [ | exact IH ].
  cbn [digitsAndColons]. rewrite K, IH. reflexivity.
Qed.

Lemma keepDigitsAndColons_id (s : string) :
  digitsAndColons s = true -> keepDigitsAndColons s = s.
Proof.
  induction s as [ | c s IH ]; [ reflexivity | ]. cbn [digitsAndColons keepDigitsAndColons].
  rewrite andb_true_iff. intros [K H]. rewrite K, (IH H). reflexivity.
Qed.

Lemma allDigits_digitsAndColons (s : string) :
  allDigits s = true -> digitsAndColons s = true /\ includes ":" s = false.
Proof.
  induction s as [ | c s IH ]; [ split; reflexivity | ]. cbn [allDigits digitsAndColons includes].
  rewrite andb_true_iff. intros [D H]. destruct (IH H) as [IH1 IH2].
  rewrite D, IH1, IH2, (is_digit_not_colon c D). split; reflexivity.
Qed.

Lemma split_allDigits (s : string) : allDigits s = true -> split ":" s = [s].
Proof.
  induction s as [ | c s IH ]; [ reflexivity | ]. cbn [allDigits split].
  rewrite andb_true_iff. intros [D H].
  rewrite (is_digit_not_colon c D), (IH H). reflexivity.
Qed.

(** The pieces of a string of digits and colons are strings of digits;
    there are at least two of them when there is a colon, and the string
    is its own single piece when there is none. *)
Lemma split_digitsAndColons (s : string) :
  digitsAndColons s = true ->
  Forall (fun x => allDigits x = true) (split ":" s) /\
  (includes ":" s = true ->
   exists a b rest, split ":" s = a :: b :: rest) /\
  (includes ":" s = false -> allDigits s = true).
Proof.
  induction s as [ | c s IH ].
  - intros _. split; [ repeat constructor | ]. split; [ discriminate | reflexivity ].
  - cbn [digitsAndColons split includes allDigits]. rewrite andb_true_iff.
    intros [K H]. destruct (IH H) as (All & Two & None).
    destruct (Ascii.eqb_spec c ":") as [ E | NE ].
    + split; [ constructor; [ reflexivity | exact All ] | ].
      split; [ | discriminate ]. intros _.
      destruct (split ":" s) as [ | b rest ] eqn:S.
      * destruct s; cbn in S; try discriminate.
        destruct (Ascii.eqb a ":"); [ discriminate | ].
        destruct (split ":" s); discriminate.
      * exists EmptyString, b, rest. reflexivity.
    + rewrite orb_false_r in K. cbn [orb].
      destruct (split ":" s) as [ | a rest ] eqn:S.
      * split; [ repeat constructor; cbn; rewrite K; reflexivity | ].
        split.
        -- intros I. destruct (Two I) as (? & ? & ? & ?). discriminate.
        -- intros I. rewrite K, (None I). reflexivity.
      * inversion All as [ | ? ? Ha Hrest ]; subst.
        split; [ constructor; [ cbn; rewrite K, Ha; reflexivity | exact Hrest ] | ].
        split.
        -- intros I. destruct (Two I) as (a' & b & rest' & E). injection E as -> ->.
           exists (String c a'), b, rest'. reflexivity.
        -- intros I. rewrite K, (None I). reflexivity.
Qed.

(** On a non-empty string of digits [parseInt] and [Number] agree. *)
Lemma radix_digit_10 (c : ascii) :
  is_digit c = true -> radix_digit 10 c = Some (code c - 48).
Proof.
  intros D. apply is_digit_bounds in D. unfold radix_digit.
  destruct (Z.leb_spec 48 (code c)); [ | lia ].
  destruct (Z.leb_spec (code c) 57); [ | lia ]. cbn [andb].
  destruct (Z.ltb_spec (code c - 48) 10); [ reflexivity | lia ].
Qed.

Lemma radix_prefix_decimal (s : string) (a : Z) :
  allDigits s = true ->
  radix_prefix 10 (Some a) s = decimal_value a s.
Proof.
  revert a. induction s as [ | c s IH ]; intros a; [ reflexivity | ].
  cbn [allDigits radix_prefix decimal_value]. rewrite andb_true_iff. intros [D H].
  rewrite (radix_digit_10 c D), D. apply IH, H.
Qed.

Lemma decimal_value_nonneg (s : string) (a : Z) :
  allDigits s = true -> 0 <= a ->
  exists v, decimal_value a s = Some v /\ 0 <= v.
Proof.
  revert a. induction s as [ | c s IH ]; intros a.
  - intros _ Ha. exists a. split; [ reflexivity | exact Ha ].
  - cbn [allDigits decimal_value]. rewrite andb_true_iff. intros [D H] Ha.
    rewrite D. apply IH; [ exact H | ]. apply is_digit_bounds in D. lia.
Qed.

Lemma digit_first_cases (c : ascii) :
  is_digit c = true ->
  is_white_space c = false /\ c <> "-"%char /\ c <> "+"%char /\
  c <> "x"%char /\ c <> "X"%char.
Proof.
  intros D. apply is_digit_bounds in D.
  assert (N : forall k : ascii, code c <> code k -> c <> k)
    by (intros k Hk E; apply Hk; rewrite E; reflexivity).
  split; [ | repeat split; apply N;
               [ change (code "-") with 45 | change (code "+") with 43
               | change (code "x") with 120 | change (code "X") with 88 ]; lia ].
  unfold is_white_space. cbv zeta.
  destruct (Z.leb_spec 9 (code c)), (Z.leb_spec (code c) 13),
           (Z.eqb_spec (code c) 32), (Z.eqb_spec (code c) 160);
    try reflexivity; lia.
Qed.

Lemma parseInt_digits (s : string) :
  allDigits s = true -> s <> "" ->
  parseInt s = Number s /\ exists v, Number s = ofZ v /\ 0 <= v.
Proof.
  intros All NE. destruct s as [ | c s ]; [ contradiction | ].
  pose proof All as All'. cbn [allDigits] in All'. apply andb_true_iff in All'.
  destruct All' as [D H].
  destruct (digit_first_cases c D) as (WS & NM & NP & _).
  assert (P : parseInt (String c s) =
              match radix_prefix 10 None (String c s) with
              | None => NaN
              | Some v => ofZ v
              end).
  { unfold parseInt. cbn [trim_start]. rewrite WS.
    assert (Sign : (match String c s with
                    | String "-" rest => (true, rest)
                    | String "+" rest => (false, rest)
                    | _ => (false, String c s)
                    end) = (false, String c s)).
    { destruct c as [[] [] [] [] [] [] [] []]; try reflexivity;
        (exfalso; (apply NM; reflexivity) || (apply NP; reflexivity)). }
    rewrite Sign.
    assert (Prefix : (match String c s with
                      | String "0" (String "x" rest) => (16, rest)
                      | String "0" (String "X" rest) => (16, rest)
                      | _ => (10, String c s)
                      end) = (10, String c s)).
    { destruct s as [ | c2 s2 ].
      - destruct c as [[] [] [] [] [] [] [] []]; reflexivity.
      - cbn [allDigits] in H. apply andb_true_iff in H. destruct H as [D2 _].
        destruct (digit_first_cases c2 D2) as (_ & _ & _ & Nx & NX).
        destruct c as [[] [] [] [] [] [] [] []]; try reflexivity;
          destruct c2 as [[] [] [] [] [] [] [] []]; try reflexivity;
          (exfalso; (apply Nx; reflexivity) || (apply NX; reflexivity)). }
    rewrite Prefix. reflexivity. }
  assert (R : radix_prefix 10 None (String c s) = decimal_value 0 (String c s)).
  { cbn [radix_prefix decimal_value]. rewrite (radix_digit_10 c D), D.
    apply radix_prefix_decimal, H. }
  destruct (decimal_value_nonneg (String c s) 0 All) as (v & Ev & Hv); [ lia | ].
  rewrite P, R. unfold Number. rewrite Ev.
  split; [ reflexivity | ]. exists v. split; [ reflexivity | exact Hv ].
Qed.

Lemma gt_ofZ (a b : Z) : (ofZ a >? ofZ b)%js = (b <? a).
Proof. unfold gt. apply lt_ofZ. Qed.

Lemma Number_digits_1 (c : ascii) :
  is_digit c = true -> Number (String c "") = ofZ (code c - 48).
Proof. intros D. unfold Number. cbn [decimal_value]. rewrite D. reflexivity. Qed.

Lemma Number_digits_2 (c1 c2 : ascii) :
  is_digit c1 = true -> is_digit c2 = true ->
  Number (String c1 (String c2 "")) = ofZ (10 * (code c1 - 48) + (code c2 - 48)).
Proof.
  intros D1 D2. unfold Number. cbn [decimal_value]. rewrite D1, D2.
  f_equal; lia.
Qed.

(** The minutes the handler keeps. *)
Lemma validMinutes_minuteField (minutes : string) :
  allDigits minutes = true ->
  minuteField
    (if truthy minutes then
       if (parseInt (if (2 <? String.length minutes)%nat
                     then substring 0 2 minutes else minutes) >? 59)%js
       then "59"
       else if (2 <? String.length minutes)%nat
            then substring 0 2 minutes else minutes
     else "").
Proof.
  intros All.
  assert (Two : forall c1 c2 : ascii,
            is_digit c1 = true -> is_digit c2 = true ->
            minuteField
              (if (parseInt (String c1 (String c2 "")) >? 59)%js
               then "59" else String c1 (String c2 ""))).
  { intros c1 c2 D1 D2.
    destruct (parseInt_digits (String c1 (String c2 ""))) as (E & _);
      [ cbn; rewrite D1, D2; reflexivity | discriminate | ].
    rewrite E, (Number_digits_2 c1 c2 D1 D2), gt_ofZ.
    destruct (Z.ltb_spec 59 (10 * (code c1 - 48) + (code c2 - 48))).
    - split; [ reflexivity | ]. split; [ cbn; lia | ].
      exists 59. split; [ reflexivity | lia ].
    - split; [ cbn; rewrite D1, D2; reflexivity | ]. split; [ cbn; lia | ].
      eexists. split; [ apply Number_digits_2; assumption | ].
      apply is_digit_bounds in D1, D2. lia. }
  destruct minutes as [ | c1 [ | c2 [ | c3 rest ] ] ]; cbn [truthy].
  - split; [ reflexivity | ]. split; [ cbn; lia | ].
    exists 0. split; [ reflexivity | lia ].
  - cbn [allDigits] in All. rewrite andb_true_r in All.
    cbn [String.length Nat.ltb Nat.leb].
    destruct (parseInt_digits (String c1 "")) as (E & _);
      [ cbn; rewrite All; reflexivity | discriminate | ].
    rewrite E, (Number_digits_1 c1 All), gt_ofZ.
    pose proof All as B. apply is_digit_bounds in B.
    destruct (Z.ltb_spec 59 (code c1 - 48)); [ lia | ].
    split; [ cbn; rewrite All; reflexivity | ]. split; [ cbn; lia | ].
    eexists. split; [ apply Number_digits_1; assumption | lia ].
  - cbn [allDigits] in All. rewrite andb_true_r, andb_true_iff in All.
    destruct All as [D1 D2]. cbn [String.length Nat.ltb Nat.leb].
    apply Two; assumption.
  - cbn [allDigits] in All. rewrite !andb_true_iff in All.
    destruct All as (D1 & D2 & _).
    replace (2 <? String.length (String c1 (String c2 (String c3 rest))))%nat
      with true by (symmetry; apply Nat.ltb_lt; cbn; lia).
    change (substring 0 2 (String c1 (String c2 (String c3 rest))))
      with (String c1 (String c2 "")).
    apply Two; assumption.
Qed.

Lemma Math_min_ofZ (a b : Z) : Math_min (ofZ a) (ofZ b) = ofZ (Z.min a b).
Proof.
  unfold Math_min. change (Fin (inject_Z a)) with (ofZ a).
  change (Fin (inject_Z b)) with (ofZ b).
  unfold ofZ at 1 2. cbn match. fold (ofZ a) (ofZ b).
  rewrite lt_ofZ. destruct (Z.ltb_spec a b); f_equal; lia.
Qed.

Lemma orZero_ofZ (a : Z) : orZero (ofZ a) = ofZ a.
Proof.
  unfold orZero, ofZ. destruct (Qeqb (inject_Z a) 0) eqn:E; [ | reflexivity ].
  apply Qeqb_eq in E. change 0%Q with (inject_Z 0) in E.
  rewrite inject_Z_injective in E. subst. reflexivity.
Qed.

(** The hours the handler keeps: two digits, at most 23. *)
Lemma validHours_twoDigits (hours : string) :
  allDigits hours = true ->
  exists h : Z,
    0 <= h <= 23 /\
    (if truthy hours
     then option_map (padStart 2 "0")
            (toString (Math_min (orZero (parseInt hours)) 23))
     else Some "00") = Some (twoDigits h) /\
    (forall v : Z, hours <> "" -> Number hours = ofZ v -> h = Z.min v 23).
Proof.
  intros All. destruct hours as [ | c rest ] eqn:Eh.
  - exists 0. split; [ lia | ]. split; [ reflexivity | ]. intros v NE. contradiction.
  - rewrite <- Eh in *.
    destruct (parseInt_digits hours All) as (E & v & Ev & Hv);
      [ rewrite Eh; discriminate | ].
    exists (Z.min v 23). split; [ lia | ].
    split.
    + replace (truthy hours) with true by (rewrite Eh; reflexivity).
      rewrite E, Ev, orZero_ofZ, Math_min_ofZ, toString_ofZ by lia.
      cbn [option_map]. rewrite padStart_decimal by lia. reflexivity.
    + intros v' _ Ev'. rewrite Ev in Ev'. injection Ev' as Ev'. lia.
Qed.

Lemma digitChar_code (c : ascii) :
  is_digit c = true -> digitChar (code c - 48) = c.
Proof.
  intros D. apply is_digit_bounds in D. unfold digitChar.
  replace (48 + (code c - 48)) with (code c) by lia.
  unfold code. rewrite N2Z.id. apply ascii_N_embedding.
Qed.

Lemma twoDigits_allDigits (h : Z) :
  0 <= h <= 99 ->
  allDigits (twoDigits h) = true /\ Number (twoDigits h) = ofZ h.
Proof.
  intros H.
  assert (Q1 : 0 <= h / 10 <= 9) by (Z.div_mod_to_equations; lia).
  assert (Q2 : 0 <= h mod 10 <= 9) by (Z.div_mod_to_equations; lia).
  pose proof (code_digitChar _ Q1) as C1. pose proof (code_digitChar _ Q2) as C2.
  assert (D1 : is_digit (digitChar (h / 10)) = true) by (apply is_digit_bounds; lia).
  assert (D2 : is_digit (digitChar (h mod 10)) = true) by (apply is_digit_bounds; lia).
  unfold twoDigits. split.
  - cbn [allDigits]. rewrite D1, D2. reflexivity.
  - rewrite (Number_digits_2 _ _ D1 D2), C1, C2. f_equal.
    Z.div_mod_to_equations. lia.
Qed.

(** A minute field of two characters is the two digits of its value. *)
Lemma minuteField_twoDigits (mm : string) :
  minuteField mm -> String.length mm = 2%nat ->
  exists k : Z, 0 <= k <= 59 /\ mm = twoDigits k.
Proof.
  intros (All & _ & k & Ek & Rk) Len.
  destruct mm as [ | c1 [ | c2 [ | c3 rest ] ] ]; try discriminate.
  cbn [allDigits] in All. rewrite andb_true_r, andb_true_iff in All.
  destruct All as [D1 D2].
  rewrite (Number_digits_2 c1 c2 D1 D2) in Ek. apply ofZ_inj in Ek.
  exists k. split; [ exact Rk | ].
  pose proof D1 as B1. pose proof D2 as B2. apply is_digit_bounds in B1, B2.
  unfold twoDigits.
  replace (k / 10) with (code c1 - 48) by (Z.div_mod_to_equations; lia).
  replace (k mod 10) with (code c2 - 48) by (Z.div_mod_to_equations; lia).
  rewrite !digitChar_code by assumption. reflexivity.
Qed.

Lemma append_digits (a b : string) :
  digitsAndColons a = true -> digitsAndColons b = true ->
  digitsAndColons (a ++ b)%string = true.
Proof.
  intros Ha Hb. induction a as [ | c a IH ]; [ exact Hb | ].
  cbn [digitsAndColons append] in *. apply andb_true_iff in Ha.
  destruct Ha as [K Ha]. rewrite K, (IH Ha). reflexivity.
Qed.

(** What [clampTime] makes of a string with a colon. *)
Lemma clampTime_colon (value : string) :
  digitsAndColons value = true -> includes ":" value = true ->
  exists (h : Z) (mm : string),
    0 <= h <= 23 /\ minuteField mm /\
    clampTime value = Some (twoDigits h ++ ":" ++ mm)%string.
Proof.
  intros DC Inc. unfold clampTime. rewrite Inc. cbv zeta.
  destruct (split_digitsAndColons value DC) as (All & Two & _).
  destruct (Two Inc) as (a & b & rest & S). rewrite S in *.
  inversion All as [ | ? ? Ha Hrest ]; subst.
  inversion Hrest as [ | ? ? Hb _ ]; subst.
  cbn [piece nth].
  destruct (validHours_twoDigits a Ha) as (h & Rh & Eh & _).
  rewrite Eh.
  exists h. eexists. split; [ exact Rh | ].
  split; [ apply (validMinutes_minuteField b Hb) | reflexivity ].
Qed.

(** A time already of that form is left as it is. *)
Lemma clampTime_fixed (h : Z) (mm : string) :
  0 <= h <= 23 -> minuteField mm ->
  clampTime (twoDigits h ++ ":" ++ mm)%string = Some (twoDigits h ++ ":" ++ mm)%string /\
  test threeOrFourDigits (twoDigits h ++ ":" ++ mm)%string = false /\
  digitsAndColons (twoDigits h ++ ":" ++ mm)%string = true /\
  includes ":" (twoDigits h ++ ":" ++ mm)%string = true.
Proof.
  intros Rh MF. pose proof MF as (All & Len & k & Ek & Rk).
  destruct (twoDigits_allDigits h) as (HD & HN); [ lia | ].
  destruct (allDigits_digitsAndColons _ All) as (MD & MI).
  pose proof HD as HD'. unfold twoDigits in HD'. cbn [allDigits] in HD'.
  rewrite andb_true_r, andb_true_iff in HD'. destruct HD' as [D1 D2].
  assert (Split : split ":" (twoDigits h ++ ":" ++ mm)%string = [twoDigits h; mm]).
  { unfold twoDigits. cbn [append split].
    rewrite (is_digit_not_colon _ D1), (is_digit_not_colon _ D2), Ascii.eqb_refl.
    rewrite (split_allDigits mm All). reflexivity. }
  assert (Inc : includes ":" (twoDigits h ++ ":" ++ mm)%string = true).
  { unfold twoDigits. cbn [append includes]. rewrite Ascii.eqb_refl.
    rewrite !orb_true_r. reflexivity. }
  split; [ | split; [ | split; [ | exact Inc ] ] ].
  - unfold clampTime. rewrite Inc, Split. cbv zeta. cbn [piece nth].
    destruct (validHours_twoDigits (twoDigits h) HD) as (h' & _ & Eh & Hh).
    rewrite Eh. rewrite (Hh h) by (discriminate || exact HN).
    rewrite Z.min_l by lia.
    do 3 f_equal.
    destruct mm as [ | c1 [ | c2 [ | c3 rest ] ] ]; cbn [truthy].
    + reflexivity.
    + cbn [allDigits] in All. rewrite andb_true_r in All.
      cbn [String.length Nat.ltb Nat.leb].
      destruct (parseInt_digits (String c1 "")) as (E & _);
        [ cbn; rewrite All; reflexivity | discriminate | ].
      rewrite E, Ek, gt_ofZ. destruct (Z.ltb_spec 59 k); [ lia | reflexivity ].
    + cbn [String.length Nat.ltb Nat.leb].
      destruct (parseInt_digits (String c1 (String c2 "")) All) as (E & _);
        [ discriminate | ].
      rewrite E, Ek, gt_ofZ. destruct (Z.ltb_spec 59 k); [ lia | reflexivity ].
    + cbn in Len. lia.
  - unfold twoDigits, test, threeOrFourDigits. cbn [append rmatch].
    destruct (in_range "0" "9" (digitChar (h / 10))); [ | reflexivity ].
    destruct (in_range "0" "9" (digitChar (h mod 10))); reflexivity.
  - apply append_digits; [ apply allDigits_digitsAndColons, HD | ].
    cbn [append digitsAndColons]. rewrite Ascii.eqb_refl, orb_true_r. exact MD.
Qed.

Lemma insertColon_cases (value : string) :
  digitsAndColons value = true ->
  digitsAndColons (insertColon value) = true /\
  (includes ":" (insertColon value) = false ->
   insertColon value = value /\ test threeOrFourDigits value = false).
Proof.
  intros DC. unfold insertColon.
  destruct (test threeOrFourDigits value) eqn:T; [ | auto ].
  unfold test, threeOrFourDigits in T. invert_match.
  - cbn in DC |- *. rewrite !andb_true_iff in DC. destruct DC as (K1 & K2 & K3 & K4 & _).
    rewrite K1, K2, K3, K4. cbn. rewrite !orb_true_r. split; [ reflexivity | discriminate ].
  - cbn in DC |- *. rewrite !andb_true_iff in DC. destruct DC as (K1 & K2 & K3 & _).
    rewrite K1, K2, K3. cbn. rewrite !orb_true_r. split; [ reflexivity | discriminate ].
Qed.

Lemma timeInput_onChange_form :
  forall (targetValue : string) (st : State),
    exists out : string,
      timeInput_onChange targetValue st = Some (setCurrentTime out st) /\
      digitsAndColons out = true /\
      (includes ":" out = true ->
       exists (h : Z) (mm : string),
         0 <= h <= 23 /\ out = (twoDigits h ++ ":" ++ mm)%string /\
         allDigits mm = true /\ (String.length mm <= 2)%nat /\
         (String.length mm = 2%nat -> test strictTimePattern out = true)) /\
      timeInput_onChange out st = Some (setCurrentTime out st).
Proof.
  intros v st. unfold timeInput_onChange. cbv zeta.
  pose proof (keepDigitsAndColons_ok v) as DC0.
  destruct (insertColon_cases _ DC0) as (DC & NoColon).
  set (value := insertColon (keepDigitsAndColons v)) in *.
  destruct (includes ":" value) eqn:Inc.
  - destruct (clampTime_colon value DC Inc) as (h & mm & Rh & MF & E).
    destruct (clampTime_fixed h mm Rh MF) as (Fix & T & DCo & Inco).
    exists (twoDigits h ++ ":" ++ mm)%string.
    rewrite E. split; [ reflexivity | ]. split; [ exact DCo | ].
    split.
    + intros _. exists h, mm. split; [ exact Rh | ]. split; [ reflexivity | ].
      destruct MF as (All & Len & K). split; [ exact All | ]. split; [ exact Len | ].
      intros L2.
      destruct (minuteField_twoDigits mm (conj All (conj Len K)) L2) as (k & Rk & ->).
      apply twoDigits_time; assumption.
    + rewrite (keepDigitsAndColons_id _ DCo). unfold insertColon. rewrite T, Fix.
      reflexivity.
  - destruct (NoColon eq_refl) as (E & T).
    exists value. unfold clampTime at 1. rewrite Inc.
    split; [ reflexivity | ]. split; [ exact DC | ].
    split; [ intros C; discriminate | ].
    rewrite <- E in T.
    rewrite (keepDigitsAndColons_id _ DC).
    unfold insertColon. rewrite T. unfold clampTime. rewrite Inc. reflexivity.
Qed.

(** Whatever is typed into the time field, the handler stores a string
    of digits and colons; if it has a colon, it is two hour digits up to
    23, the colon and at most two minute digits, and with both minute
    digits present it is a time of the strict HH:MM form; and a value
    the handler has stored is a fixed point of it. *)
Theorem timeInput_onChange_sanitises :
  forall (targetValue : string) (st : State),
    exists out : string,
      timeInput_onChange targetValue st = Some (setCurrentTime out st) /\
      digitsAndColons out = true /\
      (includes ":" out = true ->
       exists (h : Z) (mm : string),
         0 <= h <= 23 /\ out = (twoDigits h ++ ":" ++ mm)%string /\
         allDigits mm = true /\ (String.length mm <= 2)%nat /\
         (String.length mm = 2%nat -> test strictTimePattern out = true)) /\
      timeInput_onChange out st = Some (setCurrentTime out st).
Proof. exact timeInput_onChange_form. Qed.

Lemma timeInput_onChange_sanitises_witness :
  exists out : string,
    timeInput_onChange "99:99" initialState = Some (setCurrentTime out initialState) /\
    digitsAndColons out = true /\
    (includes ":" out = true ->
     exists (h : Z) (mm : string),
       0 <= h <= 23 /\ out = (twoDigits h ++ ":" ++ mm)%string /\
       allDigits mm = true /\ (String.length mm <= 2)%nat /\
       (String.length mm = 2%nat -> test strictTimePattern out = true)) /\
    timeInput_onChange out initialState = Some (setCurrentTime out initialState).
Proof. exact (timeInput_onChange_sanitises "99:99" initialState). Defined.

(** ** Merging projections *)

Example mergeProjectionSegments_example :
  map (fun p : ProjectedPoint => (minutes p, co2 p))
      (mergeProjectionSegments
         [ projectedAt 30 700; projectedAt 10 900; projectedAt 20 800;
           projectedAt 10 950; projectedAt 5 1000 ])
  = [ (ofZ 5, ofZ 1000); (ofZ 10, ofZ 950); (ofZ 20, ofZ 800); (ofZ 30, ofZ 700) ].
Proof. reflexivity. Qed.

Lemma Qeqb_refl (x : Q) : Qeqb x x = true.
Proof. apply Qeqb_eq. reflexivity. Qed.

Lemma Qeqb_sym (x y : Q) : Qeqb x y = Qeqb y x.
Proof.
  destruct (Qeqb x y) eqn:A, (Qeqb y x) eqn:B; try reflexivity.
  - apply Qeqb_eq in A. symmetry in A. apply Qeqb_eq in A. congruence.
  - apply Qeqb_eq in B. symmetry in B. apply Qeqb_eq in B. congruence.
Qed.

Lemma sameValueZero_refl (a : number) : sameValueZero a a = true.
Proof. destruct a; cbn; try reflexivity. apply Qeqb_refl. Qed.

Lemma sameValueZero_sym (a b : number) : sameValueZero a b = sameValueZero b a.
Proof. destruct a, b; cbn; try reflexivity. apply Qeqb_sym. Qed.

Lemma sameValueZero_trans (a b c : number) :
  sameValueZero a b = true -> sameValueZero b c = true -> sameValueZero a c = true.
Proof.
  destruct a, b, c; cbn; try discriminate; try reflexivity.
  intros A B. apply Qeqb_eq in A, B. apply Qeqb_eq. rewrite A. exact B.
Qed.

Lemma sameValueZero_false_l (a b c : number) :
  sameValueZero a b = true -> sameValueZero a c = false -> sameValueZero b c = false.
Proof.
  intros A N. destruct (sameValueZero b c) eqn:B; [ | reflexivity ].
  rewrite (sameValueZero_trans a b c A B) in N. discriminate.
Qed.

(** *** The sort *)

Lemma sort_insert_In {A : Type} (compare : A -> A -> number) (x y : A) (l : list A) :
  In y (sort_insert compare x l) <-> y = x \/ In y l.
Proof.
  induction l as [ | z l IH ]; cbn [sort_insert].
  - cbn. intuition congruence.
  - destruct (compare x z <? 0)%js; cbn [In]; [ intuition congruence | ].
    rewrite IH. intuition congruence.
Qed.

Lemma sort_In_from {A : Type} (compare : A -> A -> number) (l acc : list A) (y : A) :
  In y (fold_left (fun sorted x => sort_insert compare x sorted) l acc) <->
  In y acc \/ In y l.
Proof.
  revert acc. induction l as [ | x l IH ]; intros acc; cbn [fold_left].
  - cbn. intuition.
  - rewrite IH, sort_insert_In. cbn [In]. intuition congruence.
Qed.

Lemma sort_In {A : Type} (compare : A -> A -> number) (l : list A) (y : A) :
  In y (sort compare l) <-> In y l.
Proof. unfold sort. rewrite sort_In_from. cbn. intuition. Qed.

Lemma byMinutes_finite (a b : ProjectedPoint) :
  finiteMinutes a -> finiteMinutes b ->
  (byMinutes a b <? 0)%js = (minutes a <? minutes b)%js /\
  ((minutes a <? minutes b)%js = false -> otherMinute b a -> beforeMinute b a).
Proof.
  intros (x & Ex) (y & Ey). unfold byMinutes, beforeMinute, otherMinute.
  rewrite Ex, Ey. split; [ apply sub_lt_0 | ].
  unfold lt. cbn [sameValueZero strict_eq].
  - intros L N. rewrite Qltb_Qleb in L. apply negb_false_iff, Qleb_le in L.
    apply Qltb_lt. apply Qle_lteq in L. destruct L as [ L | L ]; [ exact L | ].
    apply Qeqb_eq in L. congruence.
Qed.

Lemma beforeMinute_trans (a b c : ProjectedPoint) :
  finiteMinutes a -> finiteMinutes b -> finiteMinutes c ->
  beforeMinute a b -> beforeMinute b c -> beforeMinute a c.
Proof.
  intros (x & Ex) (y & Ey) (z & Ez). unfold beforeMinute.
  rewrite Ex, Ey, Ez. unfold lt. rewrite !Qltb_lt. apply Qlt_trans.
Qed.

Lemma sort_insert_sorted (x : ProjectedPoint) (l : list ProjectedPoint) :
  finiteMinutes x -> Forall finiteMinutes l ->
  Forall (fun y => otherMinute x y) l ->
  StronglySorted beforeMinute l ->
  StronglySorted beforeMinute (sort_insert byMinutes x l).
Proof.
  intros Fx. induction l as [ | y l IH ]; intros Fl Other Sorted; cbn [sort_insert].
  - repeat constructor.
  - inversion Fl as [ | ? ? Fy Fl' ]; subst.
    inversion Other as [ | ? ? Oy Ol ]; subst.
    inversion Sorted as [ | ? ? Sl Hy ]; subst.
    destruct (byMinutes_finite x y Fx Fy) as (Cmp & Ge). rewrite Cmp.
    destruct (minutes x <? minutes y)%js eqn:L.
    + constructor; [ exact Sorted | ].
      constructor; [ exact L | ].
      rewrite Forall_forall in Hy, Fl' |- *. intros z Hz.
      apply (beforeMinute_trans x y z);
        [ exact Fx | exact Fy | exact (Fl' z Hz) | exact L | exact (Hy z Hz) ].
    + constructor; [ apply IH; assumption | ].
      rewrite Forall_forall in Hy |- *. intros z Hz.
      apply sort_insert_In in Hz. destruct Hz as [ -> | Hz ]; [ | exact (Hy z Hz) ].
      apply Ge; [ reflexivity | ].
      unfold otherMinute in *. rewrite sameValueZero_sym. exact Oy.
Qed.

Lemma sort_sorted_from (l acc : list ProjectedPoint) :
  Forall finiteMinutes l -> Forall finiteMinutes acc ->
  StronglySorted beforeMinute acc ->
  (forall a b, In a acc -> In b l -> otherMinute b a) ->
  ForallOrdPairs otherMinute l ->
  StronglySorted beforeMinute
    (fold_left (fun sorted x => sort_insert byMinutes x sorted) l acc).
Proof.
  revert acc. induction l as [ | x l IH ]; intros acc Fl Facc Sorted Cross Pairs;
    cbn [fold_left]; [ exact Sorted | ].
  inversion Fl as [ | ? ? Fx Fl' ]; subst.
  inversion Pairs as [ | ? ? Hx Pl ]; subst.
  apply IH.
  - exact Fl'.
  - rewrite Forall_forall in Facc |- *. intros y Hy.
    apply sort_insert_In in Hy. destruct Hy as [ -> | Hy ]; auto.
  - apply sort_insert_sorted; try assumption.
    rewrite Forall_forall. intros y Hy. apply Cross; [ exact Hy | left; reflexivity ].
  - intros a b Ha Hb. apply sort_insert_In in Ha. destruct Ha as [ -> | Ha ].
    + rewrite Forall_forall in Hx. specialize (Hx b Hb).
      unfold otherMinute in *. rewrite sameValueZero_sym. exact Hx.
    + apply Cross; [ exact Ha | right; exact Hb ].
  - exact Pl.
Qed.

(** *** The map *)

Lemma Map_has_keys (m : PointMap) (key : number) :
  Map_has m key = false <->
  Forall (fun a => sameValueZero a key = false) (map fst m).
Proof.
  unfold Map_has. induction m as [ | [k v] m IH ]; cbn [existsb map fst].
  - split; [ constructor | reflexivity ].
  - rewrite orb_false_iff, IH. split.
    + intros [A B]. constructor; assumption.
    + intros H. inversion H; subst. split; assumption.
Qed.

Lemma Map_set_keys (m : PointMap) (key : number) (value : ProjectedPoint) :
  map fst (Map_set m key value) =
  if Map_has m key then map fst m else map fst m ++ [key].
Proof.
  unfold Map_has. induction m as [ | [k v] m IH ]; cbn [Map_set existsb map fst].
  - reflexivity.
  - destruct (sameValueZero k key); cbn [orb map fst]; [ reflexivity | ].
    rewrite IH. destruct (existsb _ m); reflexivity.
Qed.

Lemma Map_set_entries (m : PointMap) (key : number) (value : ProjectedPoint)
      (e : number * ProjectedPoint) :
  In e (Map_set m key value) ->
  In e m \/ (snd e = value /\ sameValueZero (fst e) key = true).
Proof.
  induction m as [ | [k v] m IH ]; cbn [Map_set].
  - intros [ <- | [] ]. right. split; [ reflexivity | apply sameValueZero_refl ].
  - destruct (sameValueZero k key) eqn:S; cbn [In].
    + intros [ <- | H ]; [ right; split; [ reflexivity | exact S ] | left; right; exact H ].
    + intros [ <- | H ]; [ left; left; reflexivity | ].
      destruct (IH H) as [ H' | H' ]; [ left; right; exact H' | right; exact H' ].
Qed.

Lemma Map_set_new (m : PointMap) (key : number) (value : ProjectedPoint) :
  exists k, In (k, value) (Map_set m key value) /\ sameValueZero k key = true.
Proof.
  induction m as [ | [k v] m IH ]; cbn [Map_set].
  - exists key. split; [ left; reflexivity | apply sameValueZero_refl ].
  - destruct (sameValueZero k key) eqn:S.
    + exists k. split; [ left; reflexivity | exact S ].
    + destruct IH as (k' & H & S'). exists k'. split; [ right; exact H | exact S' ].
Qed.

Lemma Map_set_other (m : PointMap) (key : number) (value : ProjectedPoint)
      (k : number) (v : ProjectedPoint) :
  In (k, v) m -> sameValueZero k key = false -> In (k, v) (Map_set m key value).
Proof.
  induction m as [ | [k' v'] m IH ]; cbn [Map_set In]; [ contradiction | ].
  intros [ E | H ] N.
  - injection E as -> ->. rewrite N. left. reflexivity.
  - destruct (sameValueZero k' key); [ right; exact H | right; apply IH; assumption ].
Qed.

Lemma ForallOrdPairs_snoc {A : Type} (R : A -> A -> Prop) (l : list A) (x : A) :
  ForallOrdPairs R l -> Forall (fun a => R a x) l -> ForallOrdPairs R (l ++ [x]).
Proof.
  induction l as [ | a l IH ]; intros P F; cbn [app].
  - repeat constructor.
  - inversion P; subst. inversion F; subst.
    constructor; [ | apply IH; assumption ].
    apply Forall_app. split; [ assumption | repeat constructor; assumption ].
Qed.

Lemma wellKeyed_set (m : PointMap) (value : ProjectedPoint) :
  wellKeyed m -> wellKeyed (Map_set m (minutes value) value).
Proof.
  intros [K V]. split.
  - rewrite Map_set_keys. destruct (Map_has m (minutes value)) eqn:H; [ exact K | ].
    apply ForallOrdPairs_snoc; [ exact K | ]. apply Map_has_keys. exact H.
  - rewrite Forall_forall in V |- *. intros e He.
    destruct (Map_set_entries _ _ _ _ He) as [ H | [E S] ]; [ exact (V e H) | ].
    destruct e as [k v]. cbn [fst snd] in *. subst v. exact S.
Qed.

Lemma wellKeyed_step (m : PointMap) (point : ProjectedPoint) :
  wellKeyed m -> wellKeyed (mergeStep m point).
Proof.
  intros W. unfold mergeStep.
  destruct (negb _ || _); [ apply wellKeyed_set; exact W | exact W ].
Qed.

Lemma wellKeyed_fold (l : list ProjectedPoint) (m : PointMap) :
  wellKeyed m -> wellKeyed (fold_left mergeStep l m).
Proof.
  revert m. induction l as [ | x l IH ]; intros m W; cbn [fold_left]; [ exact W | ].
  apply IH, wellKeyed_step, W.
Qed.

(** The values of a well-keyed map lie at pairwise different minutes. *)
Lemma wellKeyed_values (m : PointMap) :
  wellKeyed m -> ForallOrdPairs otherMinute (Map_values m).
Proof.
  unfold Map_values. intros [K V]. induction m as [ | [k v] m IH ]; cbn [map snd].
  - constructor.
  - cbn [map fst] in K. inversion K as [ | ? ? Hk Km ]; subst.
    inversion V as [ | ? ? Hv Vm ]; subst. cbn [fst snd] in Hv.
    constructor; [ | apply IH; assumption ].
    rewrite Forall_forall in Hk, Vm |- *. intros w Hw.
    apply in_map_iff in Hw. destruct Hw as ([k' v'] & <- & He). cbn [snd].
    specialize (Vm _ He). cbn [fst snd] in Vm.
    assert (Hk' : sameValueZero k k' = false)
      by (apply Hk, in_map_iff; exists (k', v'); split; [ reflexivity | exact He ]).
    unfold otherMinute.
    apply (sameValueZero_false_l k (minutes v) (minutes v') Hv).
    rewrite sameValueZero_sym.
    apply (sameValueZero_false_l k' (minutes v') k Vm).
    rewrite sameValueZero_sym. exact Hk'.
Qed.

Lemma mergeStep_values (m : PointMap) (point v : ProjectedPoint) :
  In v (Map_values (mergeStep m point)) -> In v (Map_values m) \/ v = point.
Proof.
  unfold mergeStep, Map_values. destruct (negb _ || _); [ | auto ].
  intros H. apply in_map_iff in H. destruct H as (e & <- & He).
  destruct (Map_set_entries _ _ _ _ He) as [ H | [E _] ]; [ | right; exact E ].
  left. apply in_map. exact H.
Qed.

Lemma Map_has_same (m : PointMap) (a b : number) :
  sameValueZero a b = true -> Map_has m a = true -> Map_has m b = true.
Proof.
  unfold Map_has. intros S H. apply existsb_exists in H. destruct H as (e & He & Se).
  apply existsb_exists. exists e. split; [ exact He | ].
  exact (sameValueZero_trans _ _ _ Se S).
Qed.

Lemma Map_has_set (m : PointMap) (key' : number) (value : ProjectedPoint) (key : number) :
  Map_has (Map_set m key' value) key = Map_has m key || sameValueZero key' key.
Proof.
  unfold Map_has. induction m as [ | [k v] m IH ]; cbn [Map_set existsb fst].
  - rewrite orb_false_r. reflexivity.
  - destruct (sameValueZero k key') eqn:S; cbn [existsb fst].
    + destruct (sameValueZero key' key) eqn:S'.
      * rewrite (sameValueZero_trans _ _ _ S S'). reflexivity.
      * rewrite orb_false_r. reflexivity.
    + rewrite IH, orb_assoc. reflexivity.
Qed.

Lemma mergeStep_has (m : PointMap) (point : ProjectedPoint) (key : number) :
  Map_has m key = true \/ sameValueZero (minutes point) key = true ->
  Map_has (mergeStep m point) key = true.
Proof.
  unfold mergeStep. intros H.
  destruct (Map_has m (minutes point)) eqn:P; cbn [negb orb].
  - assert (Hm : Map_has m key = true).
    { destruct H as [ H | H ]; [ exact H | exact (Map_has_same _ _ _ H P) ]. }
    destruct (PointType_eqb (type point) projected); [ | exact Hm ].
    rewrite Map_has_set, Hm. reflexivity.
  - rewrite Map_has_set. destruct H as [ -> | -> ]; [ reflexivity | apply orb_true_r ].
Qed.

Lemma merge_fold_values (l : list ProjectedPoint) (m : PointMap) (v : ProjectedPoint) :
  In v (Map_values (fold_left mergeStep l m)) -> In v (Map_values m) \/ In v l.
Proof.
  revert m. induction l as [ | x l IH ]; intros m; cbn [fold_left]; [ auto | ].
  intros H. destruct (IH _ H) as [ H' | H' ]; [ | right; right; exact H' ].
  destruct (mergeStep_values _ _ _ H') as [ H'' | -> ]; [ left; exact H'' | ].
  right. left. reflexivity.
Qed.

Lemma merge_fold_has (l : list ProjectedPoint) (m : PointMap) (key : number) :
  Map_has m key = true \/
  (exists p, In p l /\ sameValueZero (minutes p) key = true) ->
  Map_has (fold_left mergeStep l m) key = true.
Proof.
  revert m. induction l as [ | x l IH ]; intros m; cbn [fold_left].
  - intros [ H | (p & [] & _) ]. exact H.
  - intros H. apply IH.
    destruct H as [ H | (p & [ <- | Hp ] & S) ].
    + left. apply mergeStep_has. left. exact H.
    + left. apply mergeStep_has. right. exact S.
    + right. exists p. split; assumption.
Qed.

Lemma merge_fold_keeps (l : list ProjectedPoint) (m : PointMap)
      (k : number) (v : ProjectedPoint) :
  In (k, v) m ->
  Forall (fun q => sameValueZero k (minutes q) = false) l ->
  In (k, v) (fold_left mergeStep l m).
Proof.
  revert m. induction l as [ | x l IH ]; intros m H F; cbn [fold_left]; [ exact H | ].
  inversion F; subst. apply IH; [ | assumption ].
  unfold mergeStep. destruct (negb _ || _); [ | exact H ].
  apply Map_set_other; assumption.
Qed.

Lemma mergeProjectionSegments_fold (l : list ProjectedPoint) :
  mergeProjectionSegments l =
  sort byMinutes (Map_values (fold_left mergeStep l [])).
Proof. reflexivity. Qed.

Lemma wellKeyed_nil : wellKeyed [].
Proof. split; constructor. Qed.

Lemma merge_subset (l : list ProjectedPoint) (q : ProjectedPoint) :
  In q (mergeProjectionSegments l) -> In q l.
Proof.
  rewrite mergeProjectionSegments_fold, sort_In. intros H.
  destruct (merge_fold_values _ _ _ H) as [ [] | H' ]. exact H'.
Qed.

Lemma merge_covers (l : list ProjectedPoint) (p : ProjectedPoint) :
  In p l ->
  exists q, In q (mergeProjectionSegments l) /\
            sameValueZero (minutes q) (minutes p) = true.
Proof.
  intros Hp.
  assert (H : Map_has (fold_left mergeStep l []) (minutes p) = true).
  { apply merge_fold_has. right. exists p. split; [ exact Hp | apply sameValueZero_refl ]. }
  unfold Map_has in H. apply existsb_exists in H. destruct H as ([k v] & He & S).
  cbn [fst] in S.
  destruct (wellKeyed_fold l [] wellKeyed_nil) as [_ V].
  rewrite Forall_forall in V. specialize (V _ He). cbn [fst snd] in V.
  exists v. split.
  - rewrite mergeProjectionSegments_fold, sort_In. unfold Map_values.
    apply in_map_iff. exists (k, v). split; [ reflexivity | exact He ].
  - apply (sameValueZero_trans _ k _); [ | exact S ].
    rewrite sameValueZero_sym. exact V.
Qed.

(** [mergeProjectionSegments] keeps one point for each minute of its
    input and nothing else; a point of type projected that is the last
    of its minute is the one kept; and when all minutes are finite the
    result is in strictly increasing order of minutes. *)
Theorem mergeProjectionSegments_spec :
  forall l : list ProjectedPoint,
    (forall q, In q (mergeProjectionSegments l) -> In q l) /\
    (forall p, In p l ->
       exists q, In q (mergeProjectionSegments l) /\
                 sameValueZero (minutes q) (minutes p) = true) /\
    (forall (l1 l2 : list ProjectedPoint) (p : ProjectedPoint),
       l = l1 ++ p :: l2 -> type p = projected ->
       Forall (fun q => otherMinute p q) l2 ->
       In p (mergeProjectionSegments l)) /\
    (Forall finiteMinutes l ->
     StronglySorted beforeMinute (mergeProjectionSegments l)).
Proof.
  intros l. split; [ apply merge_subset | ]. split; [ apply merge_covers | ].
  split.
  - intros l1 l2 p -> Tp Later.
    rewrite mergeProjectionSegments_fold, sort_In, fold_left_app. cbn [fold_left].
    set (m1 := fold_left mergeStep l1 []).
    assert (Step : mergeStep m1 p = Map_set m1 (minutes p) p).
    { unfold mergeStep. rewrite Tp. cbn [PointType_eqb]. rewrite orb_true_r. reflexivity. }
    rewrite Step.
    destruct (Map_set_new m1 (minutes p) p) as (k & Hk & S).
    unfold Map_values. apply in_map_iff. exists (k, p). split; [ reflexivity | ].
    apply merge_fold_keeps; [ exact Hk | ].
    rewrite Forall_forall in Later |- *. intros q Hq.
    apply (sameValueZero_false_l (minutes p) k (minutes q)).
    + rewrite sameValueZero_sym. exact S.
    + exact (Later q Hq).
  - intros Fin. rewrite mergeProjectionSegments_fold. unfold sort.
    apply sort_sorted_from.
    + rewrite Forall_forall in Fin |- *. intros v Hv.
      destruct (merge_fold_values _ _ _ Hv) as [ [] | H ]. exact (Fin v H).
    + constructor.
    + constructor.
    + intros a b [].
    + apply wellKeyed_values, wellKeyed_fold, wellKeyed_nil.
Qed.

Lemma mergeProjectionSegments_spec_witness :
  In (projectedAt 10 950)
     (mergeProjectionSegments
        [ projectedAt 30 700; projectedAt 10 900; projectedAt 10 950; projectedAt 5 1000 ]) /\
  StronglySorted beforeMinute
     (mergeProjectionSegments
        [ projectedAt 30 700; projectedAt 10 900; projectedAt 10 950; projectedAt 5 1000 ]).
Proof.
  pose proof (mergeProjectionSegments_spec
                [ projectedAt 30 700; projectedAt 10 900; projectedAt 10 950;
                  projectedAt 5 1000 ]) as (_ & _ & Last & Sorted).
  split.
  - apply (Last [projectedAt 30 700; projectedAt 10 900] [projectedAt 5 1000]
                (projectedAt 10 950)); [ reflexivity | reflexivity | ].
    repeat constructor.
  - apply Sorted. repeat constructor; eexists; reflexivity.
Defined.

(** ** The earlier draft keeps stale projections *)

(** In the earlier draft, an accepted submission after the first stores
    the merge of the projection already stored with the new series:
    every minute that had a projected point before still has one after,
    whatever the new measurement is. *)
Theorem Draft_addDataPoint_accumulates :
  forall st : State,
    currentTime st <> "" -> currentCO2 st <> "" -> measuredPoints st <> [] ->
    projectedPoints (DraftHandlers.addDataPoint st) =
      mergeProjectionSegments
        (projectedPoints st ++
         Draft.buildProjectionSegment (measuredPoints (DraftHandlers.addDataPoint st))) /\
    (forall p, In p (projectedPoints st) ->
       exists q, In q (projectedPoints (DraftHandlers.addDataPoint st)) /\
                 sameValueZero (minutes q) (minutes p) = true) /\
    List.length (measuredPoints (DraftHandlers.addDataPoint st)) =
      S (List.length (measuredPoints st)).
Proof.
  intros st Ht Hc Hm.
  assert (E : projectedPoints (DraftHandlers.addDataPoint st) =
              mergeProjectionSegments
                (projectedPoints st ++
                 Draft.buildProjectionSegment
                   (measuredPoints (DraftHandlers.addDataPoint st))) /\
              List.length (measuredPoints (DraftHandlers.addDataPoint st)) =
                S (List.length (measuredPoints st))).
  { unfold DraftHandlers.addDataPoint.
    destruct (currentTime st) as [ | c t ] eqn:Et; [ contradiction | ].
    destruct (currentCO2 st) as [ | c' t' ] eqn:Ec; [ contradiction | ].
    cbn [truthy negb orb].
    destruct (measuredPoints st) as [ | first rest ] eqn:Em; [ contradiction | ].
    cbv zeta.
    destruct (_ <? _)%js;
      match goal with
      | |- context [(2 <=? ?n)%nat] =>
          replace (2 <=? n)%nat with true
            by (symmetry; apply Nat.leb_le; rewrite length_app; cbn; lia)
      end;
      cbn [measuredPoints projectedPoints setMeasuredPoints setProjectedPoints
           setCurrentTime setCurrentCO2];
      (split; [ reflexivity | rewrite length_app; cbn; lia ]). }
  destruct E as [E L]. split; [ exact E | ]. split; [ | exact L ].
  intros p Hp. rewrite E. apply merge_covers, in_or_app. left. exact Hp.
Qed.

Lemma Draft_addDataPoint_accumulates_witness :
  let st := {| measuredPoints := [reading "12:00" 0 1000; reading "12:10" 10 800];
               projectedPoints := [projectedAt 15 700; projectedAt 20 600];
               currentTime := "12:12"; currentCO2 := "790"; alerts := [] |} in
  exists q, In q (projectedPoints (DraftHandlers.addDataPoint st)) /\
            sameValueZero (minutes q) (ofZ 15) = true.
Proof.
  cbv zeta.
  apply (proj1 (proj2 (Draft_addDataPoint_accumulates
           {| measuredPoints := [reading "12:00" 0 1000; reading "12:10" 10 800];
              projectedPoints := [projectedAt 15 700; projectedAt 20 600];
              currentTime := "12:12"; currentCO2 := "790"; alerts := [] |}
           ltac:(discriminate) ltac:(discriminate) ltac:(discriminate)))
         (projectedAt 15 700)).
  left. reflexivity.
Defined.

(** ** The time-to-target panel *)

Lemma timePanel_app (older : list MeasuredPoint) (p c : MeasuredPoint) :
  timePanel (older ++ [p; c]) =
  if (co2 c >? 550)%js
  then match timeToIdeal (older ++ [p; c]) with
       | Some t =>
           if truthyNumber t
           then if (t >? 120)%js then Some (InHours (t / 60)%js)
                else Some (InMinutes t)
           else Some NotDecreasing
       | None => Some NotDecreasing
       end
  else None.
Proof.
  unfold timePanel.
  change (older ++ [p; c]) with (older ++ [p] ++ [c]) at 1.
  rewrite app_assoc, latestMeasured_app.
  rewrite !length_app. cbn [List.length].
  destruct (Nat.eqb_spec (List.length older + 2) 1); [ lia | ].
  destruct (Nat.leb_spec 2 (List.length older + 2)); [ | lia ].
  reflexivity.
Qed.

Lemma truthyNumber_ofZ (k : Z) : truthyNumber (ofZ k) = negb (k =? 0).
Proof.
  unfold truthyNumber, ofZ.
  change (Qeqb (inject_Z k) 0) with (ofZ k === ofZ 0)%js.
  rewrite strict_eq_ofZ. reflexivity.
Qed.

(** The panel and the chart never disagree: for integer readings the
    panel shows a time to the ideal level exactly when a projection is
    drawn, and the time it shows is the length of the projected segment;
    when no projection is drawn it shows nothing or "CO2 not
    decreasing". *)
Theorem timePanel_matches_projection :
  forall (older : list MeasuredPoint) (p c : MeasuredPoint),
    integral p -> integral c ->
    (buildProjectionSegment (older ++ [p; c]) = [] <->
     timePanel (older ++ [p; c]) = None \/
     timePanel (older ++ [p; c]) = Some NotDecreasing) /\
    (forall a b : ProjectedPoint,
       buildProjectionSegment (older ++ [p; c]) = [a; b] ->
       exists t : number,
         minutes b = (minutes c + t)%js /\
         timePanel (older ++ [p; c]) =
           Some (if (t >? 120)%js then InHours (t / 60)%js else InMinutes t)).
Proof.
  intros older p c Ip Ic. rewrite timePanel_app.
  destruct (minutes c === minutes p)%js eqn:Diff.
  - (* the two readings share their minute *)
    assert (Empty : buildProjectionSegment (older ++ [p; c]) = []).
    { rewrite buildProjectionSegment_app, buildProjectionSegment_pair.
      rewrite (minutes_diff_zero p c Ip Ic), Diff. reflexivity. }
    rewrite Empty. split; [ | discriminate ].
    split; [ intros _ | reflexivity ].
    unfold timeToIdeal. rewrite timeToIdeal_currentRate_app.
    destruct (co2 c >? 550)%js; [ | left; reflexivity ]. right.
    pose proof Ip as (mp & cp & Hmp & Hcp). pose proof Ic as (mc & cc & Hmc & Hcc).
    unfold minutesToTarget.
    rewrite (rate_integral p c mp cp mc cc Hmp Hcp Hmc Hcc).
    rewrite Hmp, Hmc, strict_eq_ofZ in Diff. rewrite Diff.
    destruct (cc =? cp); [ reflexivity | ].
    destruct (cp <? cc); [ reflexivity | ].
    rewrite Hcc. reflexivity.
  - destruct (projection_timeToIdeal_link older p c Ip Ic Diff) as (Pos & Empty & Int).
    destruct (co2 c >? 550)%js eqn:Above.
    + destruct (timeToIdeal (older ++ [p; c])) as [ t | ] eqn:T.
      * destruct (Int t eq_refl) as (k & -> & Hk).
        rewrite truthyNumber_ofZ.
        destruct (Z.eqb_spec k 0) as [ -> | NZ ]; cbn [negb].
        -- assert (E : buildProjectionSegment (older ++ [p; c]) = [])
             by (apply Empty; right; reflexivity).
           rewrite E. split; [ | discriminate ].
           split; [ intros _; right | ]; reflexivity.
        -- assert (P : (0 <? ofZ k)%js = true)
             by (change (ofZ 0 <? ofZ k)%js with (ofZ 0 <? ofZ k)%js;
                 rewrite lt_ofZ; apply Z.ltb_lt; lia).
           rewrite (Pos (ofZ k) eq_refl P). split.
           ++ split; [ discriminate | ].
              intros [ H | H ]; destruct (ofZ k >? 120)%js; discriminate.
           ++ intros a b E. injection E as _ <-. exists (ofZ k).
              split; [ reflexivity | destruct (ofZ k >? 120)%js; reflexivity ].
      * assert (E : buildProjectionSegment (older ++ [p; c]) = [])
          by (apply Empty; left; reflexivity).
        rewrite E. split; [ | discriminate ].
        split; [ intros _; right | ]; reflexivity.
    + assert (T : timeToIdeal (older ++ [p; c]) = None).
      { unfold timeToIdeal. rewrite timeToIdeal_currentRate_app, Above. reflexivity. }
      assert (E : buildProjectionSegment (older ++ [p; c]) = [])
        by (apply Empty; left; exact T).
      rewrite E. split; [ | discriminate ].
      split; [ intros _; left | ]; reflexivity.
Qed.

Lemma timePanel_matches_projection_witness :
  exists t : number,
    ofZ 23 = (ofZ 10 + t)%js /\
    timePanel ([] ++ [reading "12:00" 0 1000; reading "12:10" 10 800]) =
      Some (if (t >? 120)%js then InHours (t / 60)%js else InMinutes t).
Proof.
  apply (proj2 (timePanel_matches_projection []
                  (reading "12:00" 0 1000) (reading "12:10" 10 800)
                  (ex_intro _ 0 (ex_intro _ 1000 (conj eq_refl eq_refl)))
                  (ex_intro _ 10 (ex_intro _ 800 (conj eq_refl eq_refl))))
               (projectedAt 10 800) (projectedAt 23 550)).
  reflexivity.
Defined.

(** ** The five-minute series of the earlier draft *)

Lemma projectFrom_points (startMinutes startCO2 r : number) (steps : list Z)
      (q : ProjectedPoint) :
  In q (Draft.projectFrom startMinutes startCO2 r steps) ->
  exists i : Z,
    In i steps /\ minutes q = (startMinutes + i)%js /\
    co2 q = Math_round (startCO2 + r * i)%js /\ (co2 q <? 400)%js = false.
Proof.
  induction steps as [ | i steps IH ]; cbn [Draft.projectFrom]; [ contradiction | ].
  destruct (Math_round (startCO2 + r * i) <? 400)%js eqn:Low; [ contradiction | ].
  intros [ <- | H ].
  - exists i. cbn [minutes co2]. repeat split; [ left; reflexivity | exact Low ].
  - destruct (IH H) as (j & Hj & Rest). exists j. split; [ right; exact Hj | exact Rest ].
Qed.

Lemma projectFrom_length (startMinutes startCO2 r : number) (steps : list Z) :
  (List.length (Draft.projectFrom startMinutes startCO2 r steps) <= List.length steps)%nat.
Proof.
  induction steps as [ | i steps IH ]; cbn [Draft.projectFrom List.length]; [ lia | ].
  destruct (_ <? _)%js; cbn [List.length]; lia.
Qed.

Lemma projectFrom_NaN (startMinutes startCO2 : number) (steps : list Z) :
  Draft.projectFrom startMinutes startCO2 NaN steps =
  map (fun i : Z => projectedAt (startMinutes + i)%js NaN) steps.
Proof.
  induction steps as [ | i steps IH ]; cbn [Draft.projectFrom map]; [ reflexivity | ].
  assert (N : Math_round (startCO2 + NaN * i)%js = NaN) by (destruct startCO2; reflexivity).
  rewrite N. cbn [lt]. rewrite IH. reflexivity.
Qed.

(** The draft's series has at most 24 points, each a multiple of five
    minutes (up to 120) after the latest reading and none below
    400 ppm.  It lacks the guard against two readings in the same
    minute: identical integer readings give 24 points of concentration
    NaN, where the final [buildProjectionSegment] returns nothing. *)
Theorem Draft_series_bounds :
  forall (older : list MeasuredPoint) (p c : MeasuredPoint),
    (List.length (Draft.buildProjectionSegment (older ++ [p; c])) <= 24)%nat /\
    (forall q : ProjectedPoint,
       In q (Draft.buildProjectionSegment (older ++ [p; c])) ->
       (co2 q <? 400)%js = false /\
       exists k : Z, 1 <= k <= 24 /\ minutes q = (minutes c + ofZ (5 * k))%js) /\
    (integral p -> minutes c = minutes p -> co2 c = co2 p ->
     Draft.buildProjectionSegment (older ++ [p; c]) =
       map (fun i : Z => projectedAt (minutes c + i)%js NaN) Draft.fiveMinuteSteps /\
     buildProjectionSegment (older ++ [p; c]) = []).
Proof.
  intros older p c.
  assert (E : Draft.buildProjectionSegment (older ++ [p; c]) =
              if (rate p c >=? 0)%js then []
              else Draft.projectFrom (minutes c) (co2 c) (rate p c) Draft.fiveMinuteSteps).
  { rewrite Draft_buildProjectionSegment_slice.
    pose proof (slice_last_app older [p; c]) as S.
    change (List.length [p; c]) with 2%nat in S. rewrite S. reflexivity. }
  rewrite E. split; [ | split ].
  - destruct (rate p c >=? 0)%js; [ cbn; lia | ].
    eapply Nat.le_trans; [ apply projectFrom_length | ]. cbn. lia.
  - intros q Hq. destruct (rate p c >=? 0)%js; [ contradiction | ].
    destruct (projectFrom_points _ _ _ _ _ Hq) as (i & Hi & Em & _ & Low).
    split; [ exact Low | ].
    unfold Draft.fiveMinuteSteps in Hi. apply in_map_iff in Hi.
    destruct Hi as (n & <- & Hn). apply in_seq in Hn.
    exists (Z.of_nat n). split; [ lia | exact Em ].
  - intros (mp & cp & Hmp & Hcp) Em Ec.
    assert (R : rate p c = NaN).
    { rewrite (rate_integral p c mp cp mp cp Hmp Hcp); try congruence.
      rewrite !Z.eqb_refl. reflexivity. }
    rewrite R. cbn [ge le]. split; [ apply projectFrom_NaN | ].
    rewrite buildProjectionSegment_app, buildProjectionSegment_pair.
    rewrite Em, Hmp, sub_ofZ, Z.sub_diag by (rewrite Z.sub_diag; cbn; lia).
    reflexivity.
Qed.

Lemma Draft_series_bounds_witness :
  Draft.buildProjectionSegment ([] ++ [reading "10:00" 0 800; reading "10:00" 0 800]) =
    map (fun i : Z => projectedAt (ofZ 0 + i)%js NaN) Draft.fiveMinuteSteps /\
  buildProjectionSegment ([] ++ [reading "10:00" 0 800; reading "10:00" 0 800]) = [].
Proof.
  apply (proj2 (proj2 (Draft_series_bounds []
                         (reading "10:00" 0 800) (reading "10:00" 0 800)))).
  - exists 0, 800. split; reflexivity.
  - reflexivity.
  - reflexivity.
Defined.

(** ** From the time field to the submission *)

Lemma TimeShape_colon (s : string) (h m : Z) :
  TimeShape s h m -> includes ":" s = true.
Proof.
  intros []; cbn [includes]; rewrite Ascii.eqb_refl, ?orb_true_r; reflexivity.
Qed.

(** A time that went through the time field is accepted by
    [addDataPoint] (a concentration being entered) exactly when it is
    complete: five characters with a colon.  The one-digit hours that
    the pattern of [addDataPoint] would let through never come out of
    the field. *)
Theorem typed_time_accepted_iff :
  forall (targetValue : string) (st : State),
    truthy (currentCO2 st) = true ->
    exists out : string,
      timeInput_onChange targetValue st = Some (setCurrentTime out st) /\
      (accepted (setCurrentTime out st) = true <->
       includes ":" out = true /\ String.length out = 5%nat).
Proof.
  intros v st CO2.
  destruct (timeInput_onChange_form v st) as (out & E & _ & Col & _).
  exists out. split; [ exact E | ].
  unfold accepted. cbn [currentTime currentCO2 setCurrentTime]. rewrite CO2.
  split.
  - intros A. apply andb_true_iff in A. destruct A as [_ T].
    destruct (timePattern_shape out T) as (h & m & Sh).
    pose proof (TimeShape_colon _ _ _ Sh) as Inc.
    split; [ exact Inc | ].
    destruct (Col Inc) as (h' & mm & Rh & Eo & _).
    destruct Sh as [ h1 h2 m1 m2 _ _ _ _ _ | h2 m1 m2 _ _ _ ]; [ reflexivity | ].
    unfold twoDigits in Eo. cbn [append] in Eo. injection Eo as _ E2 _.
    assert (Q : 0 <= h' mod 10 <= 9) by (Z.div_mod_to_equations; lia).
    pose proof (code_digitChar _ Q) as C. rewrite <- E2 in C.
    change (code ":") with 58 in C. lia.
  - intros [Inc L].
    destruct (Col Inc) as (h' & mm & Rh & Eo & _ & _ & Strict).
    assert (L2 : String.length mm = 2%nat).
    { rewrite Eo in L. unfold twoDigits in L. cbn [append String.length] in L. lia. }
    rewrite (strictTimePattern_accepted out (Strict L2)).
    rewrite Eo. reflexivity.
Qed.

Lemma typed_time_accepted_iff_witness :
  exists out : string,
    timeInput_onChange "0930" (setCurrentCO2 "800" initialState) =
      Some (setCurrentTime out (setCurrentCO2 "800" initialState)) /\
    (accepted (setCurrentTime out (setCurrentCO2 "800" initialState)) = true <->
     includes ":" out = true /\ String.length out = 5%nat).
Proof.
  apply (typed_time_accepted_iff "0930" (setCurrentCO2 "800" initialState)).
  reflexivity.
Defined.

(** ** Submissions through the input fields *)

Example session_examples :
  option_map currentTime
    (session [ChangeTime "0930"] initialState) = Some "09:30" /\
  option_map currentTime
    (session [ChangeTime "9:30"] initialState) = Some "09:30" /\
  option_map currentTime
    (session [ChangeTime "0"; ChangeTime "09"; ChangeTime "093"] initialState)
    = Some "09:3" /\
  option_map currentTime
    (session [ChangeTime "12:3"] initialState) = Some "12:3" /\
  option_map currentTime
    (session [PressNow {| getHours := 7; getMinutes := 5 |}] initialState)
    = Some "07:05" /\
  option_map (fun st => map (fun p : MeasuredPoint => (time p, co2 p)) (measuredPoints st))
    (session [ChangeTime "2350"; ChangeCO2 "1000"; PressAdd;
              ChangeTime "0:10"; ChangeCO2 "1e3"; PressAdd] initialState)
    = Some [("23:50", ofZ 1000); ("00:10", ofZ 1)].
Proof. repeat split; vm_compute; reflexivity. Qed.







